(** * The project reorganizer ([new_structure.py]), embedded and verified

    The reorganizer is a linear batch job over the local file system:
    it validates the working directory, snapshots [src], creates a
    directory skeleton, applies a fixed table of file moves, sorts the
    loose stylesheets of [src/styles] into three buckets, and prints a
    report.  The file system is a tree of named nodes, the logger, the
    standard output and the progress tracker are threaded through a small
    state-and-exception monad, and every Python function keeps its name. *)

From Stdlib Require Import ZArith Lia Bool Ascii String List.
From Stdlib Require Import Floats.SpecFloat.
From stdpp Require Import base option list strings pretty gmap fin_maps.

#[local] Set Warnings "-register-all,-clear-no-such-hyp".
#[local] Open Scope string_scope.

(** ** Strings *)

Module Str.

(** A text is the string of the bytes of its UTF-8 encoding; a keyword of
    the program is ASCII, and an ASCII byte occurs in an encoded text only
    as the character it stands for, so that the substring and suffix tests
    below read the bytes. *)

(** [str.isascii]. *)
Fixpoint isascii (s : string) : bool :=
  match s with
  | EmptyString => true
  | String c r => (nat_of_ascii c <? 128)%nat && isascii r
  end.

(** [str.lower] on ASCII text: the letters [A] to [Z] become [a] to [z]. *)
Definition lower_ascii (c : ascii) : ascii :=
  let n := nat_of_ascii c in
  if (65 <=? n)%nat && (n <=? 90)%nat then ascii_of_nat (n + 32) else c.

Fixpoint lower_ascii_text (s : string) : string :=
  match s with
  | EmptyString => EmptyString
  | String c r => String (lower_ascii c) (lower_ascii_text r)
  end.

(** On text that is not ASCII [str.lower] follows the case mapping of the
    Unicode tables of the interpreter ([U+0130] becomes [i] and a combining
    dot, the Kelvin sign becomes [k]).  The tables are no part of the
    program: the mapping is left open, and what is proved of the program
    holds for every such mapping. *)
Class Lowering := unicode_lower : string → string.

Definition lower `{Lowering} (s : string) : string :=
  if isascii s then lower_ascii_text s else unicode_lower s.

Fixpoint startswith (p s : string) : bool :=
  match p, s with
  | EmptyString, _ => true
  | String a p', String b s' => if Ascii.eqb a b then startswith p' s' else false
  | String _ _, EmptyString => false
  end.

(** [k in s]: [k] occurs in [s] as a contiguous substring. *)
Fixpoint contains (k s : string) : bool :=
  startswith k s ||
  match s with
  | EmptyString => false
  | String _ s' => contains k s'
  end.

Fixpoint endswith (p s : string) : bool :=
  String.eqb p s ||
  match s with
  | EmptyString => false
  | String _ s' => endswith p s'
  end.

(** [sep.join(parts)]. *)
Fixpoint join (sep : string) (parts : list string) : string :=
  match parts with
  | [] => ""
  | [x] => x
  | x :: r => x ++ sep ++ join sep r
  end.

(** [s.split("/")], accumulating the current component in [acc]. *)
Fixpoint split_slash (acc : string) (s : string) : list string :=
  match s with
  | EmptyString => [acc]
  | String c r =>
      if Ascii.eqb c "/"%char then acc :: split_slash "" r
      else split_slash (acc ++ String c "") r
  end.

End Str.

(** ** Paths

    A relative POSIX path is the list of its components; the empty list
    is Python's empty path [""], which names nothing. *)

Abbreviation path := (list string).

Module Path.

Definition of_string (s : string) : path :=
  match s with
  | EmptyString => []
  | _ => Str.split_slash "" s
  end.

Definition to_string (p : path) : string := Str.join "/" p.

(** [os.path.join(p, name)] *)
Definition join (p : path) (name : string) : path := p ++ [name].

(** [os.path.dirname(p)] *)
Definition dirname (p : path) : path := removelast p.

(** [os.path.basename(p)] *)
Definition basename (p : path) : string := List.last p "".

(** The [while parent:] walk of [validate_file_moves]: the proper,
    non-empty ancestors of [p], nearest first. *)
Fixpoint ancestors_fuel (n : nat) (p : path) : list path :=
  match n with
  | O => []
  | S n' =>
      let parent := dirname p in
      match parent with
      | [] => []
      | _ => parent :: ancestors_fuel n' parent
      end
  end.

Definition ancestors (p : path) : list path := ancestors_fuel (length p) p.

(** [q] lies at or below [p]. *)
Fixpoint is_prefix (p q : path) : bool :=
  match p, q with
  | [], _ => true
  | a :: p', b :: q' => if String.eqb a b then is_prefix p' q' else false
  | _ :: _, [] => false
  end.

(** Neither path lies at or below the other. *)
Definition apart (p q : path) : bool := negb (is_prefix p q) && negb (is_prefix q p).

End Path.

(** ** The configuration tables *)

(** [NEW_DIRS] *)
Definition NEW_DIRS_text : list string :=
  [
    "src/types";
    "src/types/factions";
    "src/types/ships";
    "src/types/combat";
    "src/types/ui";
    "src/config";
    "src/config/factions";
    "src/config/ships";
    "src/config/combat";
    "src/config/game";
    "src/components";
    "src/components/ships";
    "src/components/ships/common";
    "src/components/ships/player";
    "src/components/ships/player/prefabs";
    "src/components/ships/player/controls";
    "src/components/ships/factions";
    "src/components/ships/factions/spaceRats";
    "src/components/ships/factions/lostNova";
    "src/components/ships/factions/equatorHorizon";
    "src/components/combat";
    "src/components/ui";
    "src/components/colony";
    "src/components/mining";
    "src/components/exploration";
    "src/components/visual";
    "src/components/debug";
    "src/effects";
    "src/effects/combat";
    "src/effects/visual";
    "src/effects/particles";
    "src/hooks";
    "src/hooks/factions";
    "src/hooks/combat";
    "src/hooks/ui";
    "src/hooks/game";
    "src/hooks/debug";
    "src/lib";
    "src/lib/factions";
    "src/lib/combat";
    "src/lib/ai";
    "src/lib/game";
    "src/utils";
    "src/utils/math";
    "src/utils/types";
    "src/contexts";
    "src/styles";
    "src/styles/components";
    "src/styles/effects";
    "src/styles/ui"
  ].

(** [FILE_MOVES], in insertion order. *)
Definition FILE_MOVES_text : list (string * string) :=
  [
    ("src/components/factions/types/FactionTypes.ts",
     "src/types/factions/FactionTypes.ts");
    ("src/components/factions/types/ShipTypes.ts",
     "src/types/ships/ShipTypes.ts");
    ("src/components/factions/types/CombatTypes.ts",
     "src/types/combat/CombatTypes.ts");
    ("src/components/factions/factionTypes/ship.ts",
     "src/types/ships/ship.ts");
    ("src/components/factions/types/index.ts",
     "src/types/index.ts");
    ("src/components/factions/types/common.ts",
     "src/types/common.ts");
    ("src/components/factions/types/UITypes.ts",
     "src/types/ui/UITypes.ts");
    ("src/components/factions/config/factionConfig.ts",
     "src/config/factions/factionConfig.ts");
    ("src/components/factions/config/shipStats.ts",
     "src/config/ships/shipStats.ts");
    ("src/components/factions/config/weaponConfig.ts",
     "src/config/combat/weaponConfig.ts");
    ("src/components/factions/config/factionShipStats.ts",
     "src/config/factions/factionShipStats.ts");
    ("src/config/playerShipStats.ts",
     "src/config/ships/playerShipStats.ts");
    ("src/components/factions/ships/components/ShipBase.tsx",
     "src/components/ships/common/ShipBase.tsx");
    ("src/components/factions/ships/components/WeaponMount.tsx",
     "src/components/ships/common/WeaponMount.tsx");
    ("src/components/ships/common/ShipStats.tsx",
     "src/components/ships/common/ShipStats.tsx");
    ("src/components/ships/common/ShipControls.tsx",
     "src/components/ships/common/ShipControls.tsx");
    ("src/components/ships/common/ShipHealth.tsx",
     "src/components/ships/common/ShipHealth.tsx");
    ("src/components/ships/common/ShipShields.tsx",
     "src/components/ships/common/ShipShields.tsx");
    ("src/components/ships/common/ShipWeapons.tsx",
     "src/components/ships/common/ShipWeapons.tsx");
    ("src/components/playerShips/WarShipCombat.tsx",
     "src/components/ships/player/WarShipCombat.tsx");
    ("src/components/playerShips/PlayerShipControls.tsx",
     "src/components/ships/player/controls/PlayerShipControls.tsx");
    ("src/components/playerShips/PlayerWeaponControls.tsx",
     "src/components/ships/player/controls/PlayerWeaponControls.tsx");
    ("src/components/factions/ships/spaceRats/RatKing.tsx",
     "src/components/ships/factions/spaceRats/RatKing.tsx");
    ("src/components/factions/ships/spaceRats/AsteroidMarauder.tsx",
     "src/components/ships/factions/spaceRats/AsteroidMarauder.tsx");
    ("src/components/factions/ships/spaceRats/RogueNebula.tsx",
     "src/components/ships/factions/spaceRats/RogueNebula.tsx");
    ("src/components/factions/ships/lostNova/EclipseScythe.tsx",
     "src/components/ships/factions/lostNova/EclipseScythe.tsx");
    ("src/components/factions/ships/lostNova/DarkMatterReaper.tsx",
     "src/components/ships/factions/lostNova/DarkMatterReaper.tsx");
    ("src/components/factions/ships/lostNova/NullHunter.tsx",
     "src/components/ships/factions/lostNova/NullHunter.tsx");
    ("src/components/factions/ships/equatorHorizon/CelestialArbiter.tsx",
     "src/components/ships/factions/equatorHorizon/CelestialArbiter.tsx");
    ("src/components/factions/ships/equatorHorizon/EtherealGalleon.tsx",
     "src/components/ships/factions/equatorHorizon/EtherealGalleon.tsx");
    ("src/components/factions/ships/equatorHorizon/StellarEquinox.tsx",
     "src/components/ships/factions/equatorHorizon/StellarEquinox.tsx");
    ("src/components/factions/FactionAI.tsx",
     "src/components/ships/factions/FactionAI.tsx");
    ("src/components/factions/FactionFleet.tsx",
     "src/components/ships/factions/FactionFleet.tsx");
    ("src/components/factions/FactionManager.tsx",
     "src/components/ships/factions/FactionManager.tsx");
    ("src/components/factions/SpaceRatShip.tsx",
     "src/components/ships/factions/spaceRats/SpaceRatShip.tsx");
    ("src/components/factions/LostNovaShip.tsx",
     "src/components/ships/factions/lostNova/LostNovaShip.tsx");
    ("src/components/factions/EquatorHorizonShip.tsx",
     "src/components/ships/factions/equatorHorizon/EquatorHorizonShip.tsx");
    ("src/components/combat/CombatManager.tsx",
     "src/components/combat/CombatManager.tsx");
    ("src/components/combat/CombatUI.tsx",
     "src/components/combat/CombatUI.tsx");
    ("src/components/combat/DamageIndicator.tsx",
     "src/components/combat/DamageIndicator.tsx");
    ("src/components/combat/TargetingSystem.tsx",
     "src/components/combat/TargetingSystem.tsx");
    ("src/components/combat/WeaponSystem.tsx",
     "src/components/combat/WeaponSystem.tsx");
    ("src/components/combat/ShieldSystem.tsx",
     "src/components/combat/ShieldSystem.tsx");
    ("src/components/combat/PowerSystem.tsx",
     "src/components/combat/PowerSystem.tsx");
    ("src/components/combat/SalvageSystem.tsx",
     "src/components/combat/SalvageSystem.tsx");
    ("src/components/ui/ShipCard.tsx",
     "src/components/ui/ShipCard.tsx");
    ("src/components/ui/WeaponCard.tsx",
     "src/components/ui/WeaponCard.tsx");
    ("src/components/ui/StatusBar.tsx",
     "src/components/ui/StatusBar.tsx");
    ("src/components/ui/ResourceDisplay.tsx",
     "src/components/ui/ResourceDisplay.tsx");
    ("src/components/ui/Tooltip.tsx",
     "src/components/ui/Tooltip.tsx");
    ("src/components/ui/Modal.tsx",
     "src/components/ui/Modal.tsx");
    ("src/components/effects/WeaponEffect.tsx",
     "src/effects/combat/WeaponEffect.tsx");
    ("src/components/effects/ExplosionEffect.tsx",
     "src/effects/combat/ExplosionEffect.tsx");
    ("src/components/effects/ShieldEffect.tsx",
     "src/effects/combat/ShieldEffect.tsx");
    ("src/components/effects/ThrusterEffect.tsx",
     "src/effects/visual/ThrusterEffect.tsx");
    ("src/components/effects/SmokeTrailEffect.tsx",
     "src/effects/visual/SmokeTrailEffect.tsx");
    ("src/components/factions/factionHooks/useFactionBehavior.ts",
     "src/hooks/factions/useFactionBehavior.ts");
    ("src/components/factions/factionHooks/useFactionAI.ts",
     "src/hooks/factions/useFactionAI.ts");
    ("src/components/factions/factionHooks/useEnemyAI.ts",
     "src/hooks/factions/useEnemyAI.ts");
    ("src/hooks/useFleetAI.ts",
     "src/hooks/factions/useFleetAI.ts");
    ("src/hooks/useAdaptiveAI.ts",
     "src/hooks/factions/useAdaptiveAI.ts");
    ("src/hooks/useCombatSystem.ts",
     "src/hooks/combat/useCombatSystem.ts");
    ("src/hooks/useTooltip.ts",
     "src/hooks/ui/useTooltip.ts");
    ("src/hooks/useGameState.ts",
     "src/hooks/game/useGameState.ts");
    ("src/components/factions/factionLib/factionManager.ts",
     "src/lib/factions/factionManager.ts");
    ("src/lib/combatManager.ts",
     "src/lib/combat/combatManager.ts");
    ("src/lib/gameManager.ts",
     "src/lib/game/gameManager.ts");
    ("src/lib/ai/behaviorTree.ts",
     "src/lib/ai/behaviorTree.ts");
    ("src/lib/ai/pathfinding.ts",
     "src/lib/ai/pathfinding.ts");
    ("src/lib/ai/decisionMaking.ts",
     "src/lib/ai/decisionMaking.ts");
    ("src/lib/factions/factionAI.ts",
     "src/lib/factions/factionAI.ts");
    ("src/lib/factions/fleetManager.ts",
     "src/lib/factions/fleetManager.ts");
    ("src/lib/combat/weaponSystem.ts",
     "src/lib/combat/weaponSystem.ts");
    ("src/lib/combat/damageCalculator.ts",
     "src/lib/combat/damageCalculator.ts");
    ("src/lib/game/saveManager.ts",
     "src/lib/game/saveManager.ts");
    ("src/lib/game/resourceManager.ts",
     "src/lib/game/resourceManager.ts");
    ("src/utils/math.ts",
     "src/utils/math.ts");
    ("src/utils/idGenerator.ts",
     "src/utils/idGenerator.ts");
    ("src/utils/helpers.ts",
     "src/utils/helpers.ts");
    ("src/utils/constants.ts",
     "src/utils/constants.ts");
    ("src/utils/types.ts",
     "src/utils/types.ts");
    ("src/contexts/GameContext.tsx",
     "src/contexts/GameContext.tsx");
    ("src/contexts/ThresholdContext.tsx",
     "src/contexts/ThresholdContext.tsx");
    ("src/contexts/CombatContext.tsx",
     "src/contexts/CombatContext.tsx");
    ("src/contexts/FactionContext.tsx",
     "src/contexts/FactionContext.tsx")
  ].

(** [EXTRA_WARN_FILES] *)
Definition EXTRA_WARN_FILES_text : list string :=
  [ "src/contexts/ThresholdTypes.ts";
    "src/components/factions/DiplomacyPanel.tsx";
    "src/components/debug/AIDebugOverlay.tsx";
    "src/hooks/useDebugOverlay.ts";
    "src/components/factions/types/index.ts" ].

Definition NEW_DIRS : list path :=
  Eval vm_compute in List.map Path.of_string NEW_DIRS_text.

Definition FILE_MOVES : list (path * path) :=
  Eval vm_compute in
    List.map (fun sd => (Path.of_string (fst sd), Path.of_string (snd sd))) FILE_MOVES_text.

Definition EXTRA_WARN_FILES : list path :=
  Eval vm_compute in List.map Path.of_string EXTRA_WARN_FILES_text.

(** ** The file system

    A node is a regular file with its contents or a directory with its
    named entries; the root of the tree is the working directory.  Links,
    permissions and other metadata are outside the model. *)

Inductive node :=
  | File (data : string)
  | Dir (entries : gmap string node).

(** What the operating system and [shutil] can raise, and Python's own
    errors met on the way. *)
Inductive exn :=
  | FileExistsError (p : path)
  | FileNotFoundError (p : path)
  | NotADirectoryError (p : path)
  | ShutilError (msg : string)
  | OSError (msg : string)
  | OverflowError
  | ZeroDivisionError.

Inductive result (A : Type) :=
  | Ok (a : A)
  | Raise (e : exn).
Arguments Ok {A} a.
Arguments Raise {A} e.

Module FS.

(** Resolution of a path from the working directory. *)
Fixpoint lookup (t : node) (p : path) : option node :=
  match p with
  | [] => Some t
  | c :: p' =>
      match t with
      | Dir es => match es !! c with
                  | Some t' => lookup t' p'
                  | None => None
                  end
      | File _ => None
      end
  end.

(** [os.path.exists], [os.path.isdir], [os.path.isfile]: all false on
    the empty path. *)
Definition exists_ (t : node) (p : path) : bool :=
  match p, lookup t p with
  | _ :: _, Some _ => true
  | _, _ => false
  end.

Definition isdir (t : node) (p : path) : bool :=
  match p, lookup t p with
  | _ :: _, Some (Dir _) => true
  | _, _ => false
  end.

Definition isfile (t : node) (p : path) : bool :=
  match p, lookup t p with
  | _ :: _, Some (File _) => true
  | _, _ => false
  end.

(** Rewrites the entry named by [p] inside its parent directory; does
    nothing when the parent is missing or is a file. *)
Fixpoint update (f : option node -> option node) (p : path) (t : node) : node :=
  match p with
  | [] => t
  | [c] =>
      match t with
      | Dir es => Dir (partial_alter f c es)
      | File _ => t
      end
  | c :: p' =>
      match t with
      | Dir es => Dir (alter (update f p') c es)
      | File _ => t
      end
  end.

Definition put (p : path) (v : node) (t : node) : node := update (fun _ => Some v) p t.
Definition remove (p : path) (t : node) : node := update (fun _ => None) p t.

(** Creation of [p] and of its missing ancestors below [t]; [None] when
    a component on the way is a regular file. *)
Fixpoint mkdirs (t : node) (p : path) : option node :=
  match t with
  | File _ => None
  | Dir es =>
      match p with
      | [] => Some t
      | c :: p' =>
          match mkdirs (default (Dir ∅) (es !! c)) p' with
          | Some t' => Some (Dir (<[c := t']> es))
          | None => None
          end
      end
  end.

(** The error [os.mkdir] reports when [mkdirs] fails: the leaf is a
    regular file, or the component after a regular file cannot be
    created. *)
Fixpoint mkdir_failure (t : node) (seen p : path) : exn :=
  match p with
  | [] => FileExistsError seen
  | c :: p' =>
      match t with
      | File _ => NotADirectoryError (seen ++ [c])
      | Dir es => mkdir_failure (default (Dir ∅) (es !! c)) (seen ++ [c]) p'
      end
  end.

(** [os.makedirs(p, exist_ok=True)] *)
Definition makedirs (p : path) (t : node) : result node :=
  match p with
  | [] => Raise (FileNotFoundError [])
  | _ =>
      match mkdirs t p with
      | Some t' => Ok t'
      | None => Raise (mkdir_failure t [] p)
      end
  end.

(** [os.makedirs(p)], which refuses an existing leaf. *)
Definition makedirs_new (p : path) (t : node) : result node :=
  if exists_ t p then Raise (FileExistsError p) else makedirs p t.

(** [shutil.copytree(src, dst)] *)
Definition copytree (src dst : path) (t : node) : result node :=
  match src, lookup t src with
  | _ :: _, Some (Dir es) =>
      match makedirs_new dst t with
      | Ok t' => Ok (put dst (Dir es) t')
      | Raise e => Raise e
      end
  | _ :: _, Some (File _) => Raise (NotADirectoryError src)
  | _, _ => Raise (FileNotFoundError src)
  end.

(** [shutil.rmtree(p)] *)
Definition rmtree (p : path) (t : node) : result node :=
  match p, lookup t p with
  | _ :: _, Some (Dir _) => Ok (remove p t)
  | _ :: _, Some (File _) => Raise (NotADirectoryError p)
  | _, _ => Raise (FileNotFoundError p)
  end.

(** [os.rename(src, dst)] followed by [shutil.move]'s fallback when the
    rename is refused. *)
Definition rename (src dst : path) (t : node) : result node :=
  match src, lookup t src with
  | _ :: _, Some v =>
      if decide (src = dst) then Ok t
      else if Path.is_prefix src dst then
        match v with
        | Dir _ =>
            Raise (ShutilError ("Cannot move a directory '" ++ Path.to_string src
                                  ++ "' into itself '" ++ Path.to_string dst ++ "'."))
        | File _ => Raise (NotADirectoryError dst)
        end
      else
        match lookup t dst, v with
        | Some (Dir _), _ => Raise (FileExistsError dst)
        | Some (File _), Dir _ => Raise (FileExistsError dst)
        | Some (File _), File _ => Ok (put dst v (remove src t))
        | None, File _ =>
            if isdir t (Path.dirname dst) then Ok (put dst v (remove src t))
            else Raise (FileNotFoundError dst)
        | None, Dir _ =>
            match makedirs_new dst t with
            | Ok t' => Ok (remove src (put dst v t'))
            | Raise e => Raise e
            end
        end
  | _, _ => Raise (FileNotFoundError src)
  end.

(** [shutil.move(src, dst)]: into [dst] when it is a directory, onto
    [dst] otherwise. *)
Definition move (src dst : path) (t : node) : result node :=
  if isdir t dst then
    if decide (src = dst) then rename src dst t
    else
      let real_dst := Path.join dst (Path.basename src) in
      if exists_ t real_dst then
        Raise (ShutilError ("Destination path '" ++ Path.to_string real_dst
                              ++ "' already exists"))
      else rename src real_dst t
  else rename src dst t.

(** [os.listdir(p)]; the order of the names is the map's. *)
Definition listdir (p : path) (t : node) : result (list string) :=
  match p, lookup t p with
  | _ :: _, Some (Dir es) => Ok (fst <$> map_to_list es)
  | _ :: _, Some (File _) => Raise (NotADirectoryError p)
  | _, _ => Raise (FileNotFoundError p)
  end.

(** The sum of [os.path.getsize] over the regular files of a tree, as
    [os.walk] meets them. *)
Fixpoint tree_size (t : node) : Z :=
  match t with
  | File data => Z.of_nat (String.length data)
  | Dir es => map_fold (fun _ t' acc => (tree_size t' + acc)%Z) 0%Z es
  end.

Definition walk_size (p : path) (t : node) : Z :=
  match p, lookup t p with
  | _ :: _, Some (Dir es) => tree_size (Dir es)
  | _, _ => 0%Z
  end.

End FS.

(** ** Logger, standard output and progress tracker *)

Inductive level := INFO | WARNING | ERROR.

(** A log message; the one message that prints floating-point figures
    keeps them unformatted. *)
Inductive message :=
  | Text (s : string)
  | InsufficientDiskSpace (required_space : spec_float) (free_space : Z).

(** A line of the final report; the success rate keeps its two operands. *)
Inductive report_line :=
  | Line (s : string)
  | SuccessRate (completed total : nat).

Inductive output :=
  | Progress (completed total : nat)
  | Printed (report : list report_line).

Record ProgressTracker := {
  total_operations : nat;
  completed_operations : nat;
  errors : list string;
  warnings : list string
}.

Record state := {
  fs : node;
  log : list (level * message);
  stdout : list output;
  progress : ProgressTracker
}.

(** What the run reads from its surroundings: the command line, the
    clock, the free space of the volume, and whether [os.listdir] fails. *)
Record environment := {
  dry_run : bool;
  now : string;
  free : Z;
  listdir_fault : option exn
}.

(** ** A state and exception monad *)

Definition M (A : Type) : Type := state -> result A * state.

#[global] Instance M_ret : MRet M := fun A a s => (Ok a, s).
#[global] Instance M_bind : MBind M := fun A B f m s =>
  match m s with
  | (Ok a, s') => f a s'
  | (Raise e, s') => (Raise e, s')
  end.

Definition raise {A} (e : exn) : M A := fun s => (Raise e, s).

(** [try: body except Exception as e: handler(e)] *)
Definition try_except {A} (body : M A) (handler : exn -> M A) : M A := fun s =>
  match body s with
  | (Ok a, s') => (Ok a, s')
  | (Raise e, s') => handler e s'
  end.

Definition get_fs : M node := fun s => (Ok (fs s), s).

Definition set_fs (t : node) : M unit := fun s =>
  (Ok tt, {| fs := t; log := log s; stdout := stdout s; progress := progress s |}).

(** A file-system call: its result replaces the tree, its error is raised. *)
Definition syscall (op : node -> result node) : M unit := fun s =>
  match op (fs s) with
  | Ok t => set_fs t s
  | Raise e => (Raise e, s)
  end.

Definition get_progress : M ProgressTracker := fun s => (Ok (progress s), s).

Definition set_progress (p : ProgressTracker) : M unit := fun s =>
  (Ok tt, {| fs := fs s; log := log s; stdout := stdout s; progress := p |}).

Definition write_stdout (o : output) : M unit := fun s =>
  (Ok tt, {| fs := fs s; log := log s; stdout := stdout s ++ [o]; progress := progress s |}).

Definition logging (l : level) (m : message) : M unit := fun s =>
  (Ok tt, {| fs := fs s; log := log s ++ [(l, m)]; stdout := stdout s; progress := progress s |}).

Definition logging_info (m : string) : M unit := logging INFO (Text m).
Definition logging_warning (m : string) : M unit := logging WARNING (Text m).
Definition logging_error (m : string) : M unit := logging ERROR (Text m).

(** [for x in xs: body(x)] *)
Fixpoint for_each {A} (xs : list A) (body : A -> M unit) : M unit :=
  match xs with
  | [] => mret tt
  | x :: r => body x ;; for_each r body
  end.

(** [str(e)] *)
Definition str_exn (e : exn) : string :=
  match e with
  | FileExistsError p => "[Errno 17] File exists: '" ++ Path.to_string p ++ "'"
  | FileNotFoundError p => "[Errno 2] No such file or directory: '" ++ Path.to_string p ++ "'"
  | NotADirectoryError p => "[Errno 20] Not a directory: '" ++ Path.to_string p ++ "'"
  | ShutilError msg => msg
  | OSError msg => msg
  | OverflowError => "int too large to convert to float"
  | ZeroDivisionError => "division by zero"
  end.

Definition nl : string := String (ascii_of_nat 10) "".

(** *** [class ProgressTracker] *)

Definition ProgressTracker_init : ProgressTracker :=
  {| total_operations := 0; completed_operations := 0; errors := []; warnings := [] |}.

Definition add_error (message : string) : M unit :=
  p ← get_progress;
  set_progress {| total_operations := total_operations p;
                  completed_operations := completed_operations p;
                  errors := errors p ++ [message];
                  warnings := warnings p |} ;;
  logging_error message.

Definition add_warning (message : string) : M unit :=
  p ← get_progress;
  set_progress {| total_operations := total_operations p;
                  completed_operations := completed_operations p;
                  errors := errors p;
                  warnings := warnings p ++ [message] |} ;;
  logging_warning message.

Definition _update_progress : M unit :=
  p ← get_progress;
  if (0 <? total_operations p)%nat
  then write_stdout (Progress (completed_operations p) (total_operations p))
  else mret tt.

Definition increment : M unit :=
  p ← get_progress;
  set_progress {| total_operations := total_operations p;
                  completed_operations := completed_operations p + 1;
                  errors := errors p;
                  warnings := warnings p |} ;;
  _update_progress.

Definition set_total (total : nat) : M unit :=
  p ← get_progress;
  set_progress {| total_operations := total;
                  completed_operations := completed_operations p;
                  errors := errors p;
                  warnings := warnings p |}.

(** The success rate divides by [total_operations]. *)
Definition generate_report : M (list report_line) :=
  p ← get_progress;
  if (total_operations p =? 0)%nat then raise ZeroDivisionError
  else
    mret (concat
            [ [ Line (nl ++ "=== Restructuring Report ===");
                Line ("Total operations: " ++ pretty (total_operations p));
                Line ("Completed operations: " ++ pretty (completed_operations p));
                SuccessRate (completed_operations p) (total_operations p) ];
              (if errors p is [] then [] else [Line (nl ++ "Errors:")]);
              (fun err => Line ("  - " ++ err)) <$> errors p;
              (if warnings p is [] then [] else [Line (nl ++ "Warnings:")]);
              (fun warn => Line ("  - " ++ warn)) <$> warnings p;
              [ Line (nl ++ "===========================") ] ]).

(** ** Binary64 arithmetic of the capacity check *)

Module Float.

Definition prec : Z := 53.
Definition emax : Z := 1024.

(** [float(n)], correctly rounded; Python raises when [n] is too large. *)
Definition of_int (n : Z) : result spec_float :=
  match binary_normalize prec emax n 0 false with
  | S754_infinity _ => Raise OverflowError
  | x => Ok x
  end.

(** The literal [1.2]: the double nearest to 6/5. *)
Definition lit_1_2 : spec_float := S754_finite false 5404319552844595 (-52).

(** [n * x] for an integer [n] and a double [x]. *)
Definition int_mul (n : Z) (x : spec_float) : result spec_float :=
  match of_int n with
  | Ok y => Ok (SFmul prec emax y x)
  | Raise e => Raise e
  end.

(** [n < x] for an integer [n] and a double [x]; Python compares the
    two exactly. *)
Definition int_lt (n : Z) (x : spec_float) : bool :=
  match x with
  | S754_zero _ => (n <? 0)%Z
  | S754_infinity s => negb s
  | S754_nan => false
  | S754_finite s m e =>
      let v := if s then Z.neg m else Z.pos m in
      match e with
      | Z.neg k => (n * Z.pow 2 (Z.pos k) <? v)%Z
      | _ => (n <? v * Z.pow 2 e)%Z
      end
  end.

End Float.

(** ** The program *)

Section Reorganizer.

Context {tables : Str.Lowering}.

Section Program.

Variable env : environment.

Definition liftR {A} (r : result A) : M A := fun s => (r, s).

(** [os.listdir], which the surroundings may make fail. *)
Definition os_listdir (p : path) : M (list string) :=
  match listdir_fault env with
  | Some e => raise e
  | None => t ← get_fs; liftR (FS.listdir p t)
  end.

Definition create_new_directories : M unit :=
  logging_info "Creating new directory structure ..." ;;
  for_each NEW_DIRS (fun directory =>
    t ← get_fs;
    if FS.isdir t directory then
      logging_info ("Directory already exists: " ++ Path.to_string directory)
    else if dry_run env then
      logging_info ("[DRY RUN] Would create directory: " ++ Path.to_string directory)
    else
      try_except
        (syscall (FS.makedirs directory) ;;
         logging_info ("Created directory: " ++ Path.to_string directory))
        (fun e => logging_error ("Error creating directory " ++ Path.to_string directory
                                   ++ ": " ++ str_exn e))).

Definition move_file (src dst : path) : M unit :=
  t ← get_fs;
  if negb (FS.exists_ t src) then
    add_warning ("Source file not found (skipped): " ++ Path.to_string src)
  else
    let dst_dir := Path.dirname dst in
    created ←
      (if negb (FS.isdir t dst_dir) then
         if dry_run env then
           logging_info ("[DRY RUN] Would create directory for destination: "
                           ++ Path.to_string dst_dir) ;;
           mret true
         else
           try_except
             (syscall (FS.makedirs dst_dir) ;;
              logging_info ("Created directory for destination: " ++ Path.to_string dst_dir) ;;
              mret true)
             (fun e =>
                add_error ("Error creating destination directory " ++ Path.to_string dst_dir
                             ++ ": " ++ str_exn e) ;;
                mret false)
       else mret true);
    if negb created then mret tt
    else if dry_run env then
      logging_info ("[DRY RUN] Would move: " ++ Path.to_string src ++ " -> "
                      ++ Path.to_string dst) ;;
      increment
    else
      try_except
        (syscall (FS.move src dst) ;;
         logging_info ("Moved: " ++ Path.to_string src ++ " -> " ++ Path.to_string dst) ;;
         increment)
        (fun e => add_error ("Error moving " ++ Path.to_string src ++ " to "
                               ++ Path.to_string dst ++ ": " ++ str_exn e)).

(** The entries whose source is present and whose destination is absent. *)
Definition moves_needed (t : node) : list (path * path) :=
  List.filter (fun sd => FS.exists_ t (fst sd) && negb (FS.exists_ t (snd sd))) FILE_MOVES.

Definition process_file_moves : M unit :=
  logging_info "Processing explicit file moves ..." ;;
  t ← get_fs;
  let needed := moves_needed t in
  set_total (length needed) ;;
  for_each needed (fun sd => move_file (fst sd) (snd sd)) ;;
  let skipped := length FILE_MOVES - length needed in
  if (0 <? skipped)%nat then
    logging_info ("Skipped " ++ pretty skipped ++ " files that were already moved or missing.")
  else mret tt.

Definition styles_root : path := Path.join ["src"] "styles".

(** A regular file directly under [src/styles] whose name ends in [.css]. *)
Definition is_css (t : node) (item : string) : bool :=
  FS.isfile t (Path.join styles_root item) && Str.endswith ".css" (Str.lower item).

(** The destination folder of a stylesheet, by its file name. *)
Definition category_of (item : string) : string :=
  let lower_name := Str.lower item in
  if Str.contains "effects" lower_name || Str.contains "vpr-effects" lower_name then "effects"
  else if Str.contains "ui" lower_name || Str.contains "vpr-system" lower_name then "ui"
  else "components".

(** The dictionary [css_files], keys in insertion order, after the
    classification loop over [items]. *)
Definition css_files (t : node) (items : list string) : list (string * list string) :=
  let css := List.filter (is_css t) items in
  (fun category => (category, List.filter (fun item => String.eqb (category_of item) category) css))
    <$> ["effects"; "ui"; "components"].

Definition reorganize_styles : M unit :=
  logging_info "Reorganizing CSS files ..." ;;
  t ← get_fs;
  if negb (FS.isdir t styles_root) then
    add_warning ("Styles folder not found: " ++ Path.to_string styles_root)
  else
    counted ← os_listdir styles_root;
    let total_css_files := length (List.filter (is_css t) counted) in
    p ← get_progress;
    set_total (total_operations p + total_css_files) ;;
    items ← os_listdir styles_root;
    for_each (css_files t items) (fun entry =>
      let dest_dir := Path.join styles_root (fst entry) in
      for_each (snd entry) (fun file =>
        move_file (Path.join styles_root file) (Path.join dest_dir file))).

Definition check_extra_files : M unit :=
  logging_info "Checking for extra files that may not belong ..." ;;
  for_each EXTRA_WARN_FILES (fun f =>
    t ← get_fs;
    if FS.exists_ t f then
      logging_warning ("Extra file found: " ++ Path.to_string f
                         ++ "  —  Consider removing or moving this file.")
    else logging_info ("Extra file not found (OK): " ++ Path.to_string f)).

Definition create_backup : M (option path) :=
  let timestamp := now env in
  let backup_dir := ["src_backup_" ++ timestamp] in
  if negb (dry_run env) then
    try_except
      (syscall (FS.copytree ["src"] backup_dir) ;;
       logging_info ("Created backup at: " ++ Path.to_string backup_dir) ;;
       mret (Some backup_dir))
      (fun e => logging_error ("Failed to create backup: " ++ str_exn e) ;; mret None)
  else mret None.

Definition restore_from_backup (backup_dir : path) : M bool :=
  t ← get_fs;
  if negb (dry_run env) && FS.exists_ t backup_dir then
    try_except
      (syscall (FS.rmtree ["src"]) ;;
       syscall (FS.copytree backup_dir ["src"]) ;;
       logging_info ("Restored from backup: " ++ Path.to_string backup_dir) ;;
       mret true)
      (fun e => logging_error ("Failed to restore from backup: " ++ str_exn e) ;; mret false)
  else mret false.

Definition required_dirs : list path :=
  [ ["src"; "components"]; ["src"; "components"; "factions"] ].

Definition validate_environment : M bool :=
  t ← get_fs;
  if negb (FS.isdir t ["src"]) then
    logging_error "No 'src' directory found. Are you in the project root?" ;; mret false
  else
    match List.find (fun dir => negb (FS.isdir t dir)) required_dirs with
    | Some dir => logging_error ("Required directory not found: " ++ Path.to_string dir) ;;
                  mret false
    | None => mret true
    end.

(** The accumulators of the loop of [validate_file_moves]. *)
Record validation := {
  issues_found : bool;
  already_moved : list (path * path);
  missing_sources : list path
}.

Definition validate_entry (v : validation) (sd : path * path) : M validation :=
  let '(src, dst) := sd in
  t ← get_fs;
  if FS.exists_ t dst && negb (FS.exists_ t src) then
    mret {| issues_found := issues_found v;
            already_moved := already_moved v ++ [(src, dst)];
            missing_sources := missing_sources v |}
  else if negb (FS.exists_ t src) && negb (FS.exists_ t dst) then
    mret {| issues_found := issues_found v;
            already_moved := already_moved v;
            missing_sources := missing_sources v ++ [src] |}
  else
    both ←
      (if FS.exists_ t src && FS.exists_ t dst then
         logging_error ("Both source and destination exist: " ++ Path.to_string src
                          ++ " -> " ++ Path.to_string dst) ;;
         mret true
       else mret false);
    match List.find (FS.isfile t) (Path.ancestors dst) with
    | Some parent =>
        logging_error ("Parent path is a file: " ++ Path.to_string parent) ;;
        mret {| issues_found := true;
                already_moved := already_moved v;
                missing_sources := missing_sources v |}
    | None =>
        mret {| issues_found := issues_found v || both;
                already_moved := already_moved v;
                missing_sources := missing_sources v |}
    end.

Fixpoint validate_loop (moves : list (path * path)) (v : validation) : M validation :=
  match moves with
  | [] => mret v
  | sd :: rest => v' ← validate_entry v sd; validate_loop rest v'
  end.

Definition validate_file_moves : M bool :=
  v ← validate_loop FILE_MOVES
        {| issues_found := false; already_moved := []; missing_sources := [] |};
  (if already_moved v is [] then mret tt
   else
     logging_info (nl ++ "Files that appear to be already moved:") ;;
     for_each (already_moved v) (fun sd =>
       logging_info ("  " ++ Path.to_string (fst sd) ++ " -> " ++ Path.to_string (snd sd)))) ;;
  (if missing_sources v is [] then mret tt
   else
     logging_warning (nl ++ "Files that are missing and need to be created:") ;;
     for_each (missing_sources v) (fun src => logging_warning ("  " ++ Path.to_string src))) ;;
  mret (negb (issues_found v)).

Definition check_disk_space (backup : bool) : M bool :=
  try_except
    (t ← get_fs;
     let src_size := FS.walk_size ["src"] t in
     required_space ←
       liftR (Float.int_mul (src_size * (if backup then 2 else 1)) Float.lit_1_2);
     let free_space := free env in
     if Float.int_lt free_space required_space then
       logging ERROR (InsufficientDiskSpace required_space free_space) ;;
       mret false
     else mret true)
    (fun e => logging_error ("Error checking disk space: " ++ str_exn e) ;; mret false).

(** The body of the [try] block of [main]. *)
Definition migrate (backup_dir : option path) : M unit :=
  create_new_directories ;;
  process_file_moves ;;
  reorganize_styles ;;
  check_extra_files ;;
  (if dry_run env then
     logging_info "Dry run completed. No changes were made."
   else
     logging_info "Restructuring completed successfully!" ;;
     match backup_dir with
     | Some dir =>
         t ← get_fs;
         if FS.exists_ t dir then
           syscall (FS.rmtree dir) ;;
           logging_info ("Removed backup directory: " ++ Path.to_string dir)
         else mret tt
     | None => mret tt
     end) ;;
  report ← generate_report;
  write_stdout (Printed report).

(** The [except Exception as e:] block of [main]. *)
Definition on_failure (backup_dir : option path) (e : exn) : M unit :=
  add_error ("An error occurred during restructuring: " ++ str_exn e) ;;
  match backup_dir with
  | Some dir =>
      if negb (dry_run env) then
        logging_info "Attempting to restore from backup..." ;;
        restored ← restore_from_backup dir;
        if (restored : bool) then logging_info "Successfully restored from backup."
        else logging_error ("Failed to restore. Backup remains at: " ++ Path.to_string dir)
      else mret tt
  | None => mret tt
  end ;;
  report ← generate_report;
  write_stdout (Printed report).

Definition main : M unit :=
  set_progress ProgressTracker_init ;;
  ok ← validate_environment;
  if negb ok then logging_error "Environment validation failed. Aborting."
  else
    validate_file_moves ;;
    enough ← check_disk_space (negb (dry_run env));
    if negb enough then logging_error "Disk space check failed. Aborting."
    else
      backup_dir ← create_backup;
      if (if backup_dir is Some _ then false else true) && negb (dry_run env) then
        logging_error "Failed to create backup. Aborting."
      else try_except (migrate backup_dir) (on_failure backup_dir).

Definition boot (t : node) : state :=
  {| fs := t; log := []; stdout := []; progress := ProgressTracker_init |}.

(** The [if __name__ == "__main__":] block: the exit status of the
    process and the state it leaves. *)
Definition script (t : node) : Z * state :=
  if negb (FS.isdir t ["src"]) then
    (1%Z, snd (logging_error
                 "This script must be run from the project root (the folder containing 'src')."
                 (boot t)))
  else
    match main (boot t) with
    | (Ok _, s) => (0%Z, s)
    | (Raise _, s) => (1%Z, s)
    end.

End Program.


(** ** Sample trees *)

Definition add_dir (t : node) (d : string) : node :=
  default t (FS.mkdirs t (Path.of_string d)).

Definition add_file (t : node) (f : string * string) : node :=
  let p := Path.of_string (fst f) in
  match FS.mkdirs t (Path.dirname p) with
  | Some t' => FS.put p (File (snd f)) t'
  | None => t
  end.

(** The tree holding the directories [dirs] and the files [files], given
    with their contents. *)
Definition tree (dirs : list string) (files : list (string * string)) : node :=
  foldl add_file (foldl add_dir (Dir ∅) dirs) files.

Definition settings (dry : bool) (space : Z) : environment :=
  {| dry_run := dry; now := "20250101_120000"; free := space; listdir_fault := None |}.

(** A project root with one pending move, one entry mapped onto itself,
    and three loose stylesheets. *)
Definition sample_project : node :=
  tree ["src/components/factions"; "src/styles"]
       [ ("src/components/factions/FactionAI.tsx", "export const ai = 1;");
         ("src/utils/math.ts", "export const pi = 3;");
         ("src/styles/combat-effects.css", ".hit {}");
         ("src/styles/main-ui-panel.css", ".panel {}");
         ("src/styles/panel.css", ".p {}") ].

(** ** The bucketing rule, in the words of the specification

    Two keyword groups in a fixed order, the effects keyword and the ui
    keyword: the first group with a keyword that occurs in the lower-cased
    name names the bucket, and the default bucket takes every other
    name. *)





(** ** Properties *)





Lemma category_of_cases item :
  category_of item = "effects" ∨ category_of item = "ui" ∨ category_of item = "components".
Proof.
  unfold category_of.
  destruct (_ || _); [by left|]. destruct (_ || _); [by right; left | by right; right].
Qed.



(** *** The report and the exit status on concrete runs *)

(** A project root in which nothing is left to move. *)
Definition settled_project : node :=
  tree ["src/components/factions"; "src/styles/components"]
       [ ("src/components/ships/factions/FactionAI.tsx", "export const ai = 1;");
         ("src/styles/components/panel.css", ".p {}") ].

Definition last_log (s : state) : option (level * message) := List.last (Some <$> log s) None.

Definition printed_reports (s : state) : list (list report_line) :=
  omap (fun o => match o with Printed r => Some r | Progress _ _ => None end) (stdout s).

(** C9.  [generate_report] divides by [total_operations] without the guard
    that [_update_progress] has: with no planned operation it raises
    [ZeroDivisionError] and returns no report, whatever the rest of the
    tracker holds.  On a project with nothing left to move the run therefore
    ends in the handler of [main], whose own call of [generate_report]
    raises again: no report is printed and the process ends with status 1. *)
Theorem generate_report_raises_on_zero_total :
  (∀ t lg out completed errs warns,
      let s := {| fs := t; log := lg; stdout := out;
                  progress := {| total_operations := 0; completed_operations := completed;
                                 errors := errs; warnings := warns |} |} in
      generate_report s = (Raise ZeroDivisionError, s) ∧ _update_progress s = (Ok tt, s))
  ∧ (let r := script (settings false 1000) settled_project in
     fst r = 1%Z
     ∧ printed_reports (snd r) = []
     ∧ total_operations (progress (snd r)) = 0
     ∧ errors (progress (snd r)) = ["An error occurred during restructuring: division by zero"]).
Proof.
  split.
  - intros t lg out completed errs warns s. split; reflexivity.
  - vm_compute. repeat split; reflexivity.
Qed.

(** C4.  Of the five ways a run is abandoned only the check of the
    [__main__] block ends the process with a status other than 0: a
    missing required directory, too little free space, a backup that
    cannot be made and a rollback after a failure in the migration all
    leave [main] by a plain [return], and the process ends with status 0. *)
Theorem abort_exit_statuses :
  (let r := script (settings false 1000) (Dir ∅) in
   fst r = 1%Z
   ∧ last_log (snd r)
     = Some (ERROR, Text "This script must be run from the project root (the folder containing 'src')."))
  ∧ (let r := script (settings false 1000) (tree ["src"] []) in
     fst r = 0%Z
     ∧ last_log (snd r) = Some (ERROR, Text "Environment validation failed. Aborting."))
  ∧ (let r := script (settings false 0) sample_project in
     fst r = 0%Z
     ∧ last_log (snd r) = Some (ERROR, Text "Disk space check failed. Aborting."))
  ∧ (let r := script (settings false 1000) (add_dir sample_project "src_backup_20250101_120000") in
     fst r = 0%Z
     ∧ last_log (snd r) = Some (ERROR, Text "Failed to create backup. Aborting."))
  ∧ (let r := script {| dry_run := false; now := "20250101_120000"; free := 1000;
                        listdir_fault := Some (OSError "[Errno 5] Input/output error") |}
                     sample_project in
     fst r = 0%Z
     ∧ last_log (snd r) = Some (INFO, Text "Successfully restored from backup.")).
Proof. vm_compute. repeat split; reflexivity. Qed.

(** A project in which the loose [panel.css] has a namesake inside its
    bucket. *)
Definition clashing_styles : node :=
  tree ["src/components/factions"]
       [ ("src/components/factions/FactionAI.tsx", "export const ai = 1;");
         ("src/styles/panel.css", ".p {}");
         ("src/styles/components/panel.css", ".old {}") ].

Definition error_lines (s : state) : list message :=
  omap (fun lm => match fst lm with ERROR => Some (snd lm) | _ => None end) (log s).

(** C10.  There is a state with a stylesheet loose in [src/styles] and a
    regular file of the same name already in its bucket on which the run
    moves the loose file onto the other one: the bucket file now holds the
    loose file's contents, the old contents are gone, and neither the
    tracker nor the log records an error or a warning.  The both-exist
    check of [validate_file_moves] reads the move mapping only. *)
Theorem bucket_namesake_is_overwritten :
  ∃ t old new,
    old ≠ new
    ∧ FS.lookup t ["src"; "styles"; "panel.css"] = Some (File new)
    ∧ FS.lookup t ["src"; "styles"; "components"; "panel.css"] = Some (File old)
    ∧ category_of "panel.css" = "components"
    ∧ let r := script (settings false 1000) t in
      fst r = 0%Z
      ∧ FS.lookup (fs (snd r)) ["src"; "styles"; "components"; "panel.css"] = Some (File new)
      ∧ FS.lookup (fs (snd r)) ["src"; "styles"; "panel.css"] = None
      ∧ errors (progress (snd r)) = []
      ∧ warnings (progress (snd r)) = []
      ∧ error_lines (snd r) = [].
Proof.
  exists clashing_styles, ".old {}", ".p {}".
  split; [discriminate|]. vm_compute. repeat split; reflexivity.
Qed.

#[local] Open Scope list_scope.
#[local] Open Scope nat_scope.

(** ** Facts about paths *)

Lemma is_prefix_spec p q : Path.is_prefix p q = true ↔ ∃ r, q = p ++ r.
Proof.
  revert q. induction p as [|a p IH]; intros q; simpl.
  - split; [by exists q | done].
  - destruct q as [|b q].
    + split; [done | by intros [r Hr]].
    + destruct (String.eqb_spec a b) as [-> | Hne].
      * rewrite IH. split; intros [r Hr]; exists r; simpl in *; congruence.
      * split; [done | intros [r Hr]; simpl in Hr; congruence].
Qed.

Lemma is_prefix_refl p : Path.is_prefix p p = true.
Proof. apply is_prefix_spec. exists []. by rewrite app_nil_r. Qed.

Lemma is_prefix_app p r : Path.is_prefix p (p ++ r) = true.
Proof. apply is_prefix_spec. by exists r. Qed.

Lemma is_prefix_trans p q r :
  Path.is_prefix p q = true → Path.is_prefix q r = true → Path.is_prefix p r = true.
Proof.
  rewrite !is_prefix_spec. intros [a ->] [b ->]. exists (a ++ b). by rewrite app_assoc.
Qed.

(** Two prefixes of one path are comparable. *)
Lemma is_prefix_comparable p q r :
  Path.is_prefix p r = true → Path.is_prefix q r = true →
  Path.is_prefix p q = true ∨ Path.is_prefix q p = true.
Proof.
  revert q r. induction p as [|a p IH]; intros q r; [by left|].
  destruct q as [|b q]; [by right|]. destruct r as [|c r]; [done|]. simpl.
  destruct (String.eqb_spec a c) as [-> | ]; [|done].
  destruct (String.eqb_spec b c) as [-> | ]; [|done].
  rewrite String.eqb_refl. apply IH.
Qed.

Lemma apart_sym p q : Path.apart p q = Path.apart q p.
Proof. unfold Path.apart. apply andb_comm. Qed.

Lemma apart_spec p q :
  Path.apart p q = true ↔ Path.is_prefix p q = false ∧ Path.is_prefix q p = false.
Proof.
  unfold Path.apart. rewrite andb_true_iff, !negb_true_iff. done.
Qed.

Lemma dirname_prefix p : Path.is_prefix (Path.dirname p) p = true.
Proof.
  apply is_prefix_spec. unfold Path.dirname.
  destruct (decide (p = [])) as [-> | Hne]; [by exists []|].
  exists [List.last p ""]. by apply app_removelast_last.
Qed.

Lemma dirname_join p name : Path.dirname (Path.join p name) = p.
Proof. unfold Path.dirname, Path.join. apply removelast_last. Qed.

(** A path not above [q] is not above the parent of [q] either. *)
Lemma not_prefix_dirname p q :
  Path.is_prefix p q = false → Path.is_prefix p (Path.dirname q) = false.
Proof.
  intros H. destruct (Path.is_prefix p (Path.dirname q)) eqn:E; [|done].
  rewrite (is_prefix_trans _ _ _ E (dirname_prefix q)) in H. done.
Qed.

(** A path apart from [q] is apart from everything below [q]. *)
Lemma apart_below p q r : Path.apart p q = true → Path.apart p (q ++ r) = true.
Proof.
  rewrite !apart_spec. intros [H1 H2]. split.
  - destruct (Path.is_prefix p (q ++ r)) eqn:E; [|done].
    destruct (is_prefix_comparable p q (q ++ r) E (is_prefix_app q r)); congruence.
  - destruct (Path.is_prefix (q ++ r) p) eqn:E; [|done].
    rewrite (is_prefix_trans _ _ _ (is_prefix_app q r) E) in H2. done.
Qed.

(** ** Facts about the file system *)

Lemma lookup_app t p r :
  FS.lookup t (p ++ r) = FS.lookup t p ≫= (fun t' => FS.lookup t' r).
Proof.
  revert t. induction p as [|c p IH]; intros t; simpl; [done|].
  destruct t as [|es]; [done|]. destruct (es !! c); [apply IH | done].
Qed.

Lemma lookup_below_none t p r : FS.lookup t p = None → FS.lookup t (p ++ r) = None.
Proof. intros H. by rewrite lookup_app, H. Qed.

Lemma lookup_below_file t p data c r :
  FS.lookup t p = Some (File data) → FS.lookup t (p ++ c :: r) = None.
Proof. intros H. by rewrite lookup_app, H. Qed.

(** The parent of an existing path is a directory. *)
Lemma lookup_parent_dir t p c v :
  FS.lookup t (p ++ [c]) = Some v → ∃ es, FS.lookup t p = Some (Dir es) ∧ es !! c = Some v.
Proof.
  rewrite lookup_app. destruct (FS.lookup t p) as [[|es]|]; simpl; [done| |done].
  destruct (es !! c) eqn:E; [|done]. intros [= ->]. eauto.
Qed.

(** *** [update] seen from a path *)

Lemma lookup_update_apart f p q t :
  Path.apart p q = true → FS.lookup (FS.update f p t) q = FS.lookup t q.
Proof.
  revert q t. induction p as [|c p IH]; intros q t; [done|].
  destruct q as [|d q]; [by rewrite apart_sym|].
  unfold Path.apart. simpl Path.is_prefix.
  destruct t as [|es]; [by destruct p|].
  destruct (String.eqb_spec c d) as [-> | Hne].
  - rewrite String.eqb_refl. intros Hap. destruct p as [|c' p].
    + done.
    + change (FS.update f (d :: c' :: p) (Dir es))
        with (Dir (alter (FS.update f (c' :: p)) d es)).
      simpl FS.lookup. rewrite lookup_alter_eq.
      destruct (es !! d) as [t'|]; simpl; [|done]. by apply IH.
  - intros _. destruct p as [|c' p]; simpl.
    + by rewrite lookup_partial_alter_ne.
    + by rewrite lookup_alter_ne.
Qed.

Lemma lookup_dir_cons es c p :
  FS.lookup (Dir es) (c :: p) = es !! c ≫= (fun t' => FS.lookup t' p).
Proof. simpl. by destruct (es !! c). Qed.

Lemma update_deeper f c c' p es :
  FS.update f (c :: c' :: p) (Dir es) = Dir (alter (FS.update f (c' :: p)) c es).
Proof. reflexivity. Qed.

Lemma dirname_deeper c c' (p : path) :
  Path.dirname (c :: c' :: p) = c :: Path.dirname (c' :: p).
Proof. reflexivity. Qed.

Lemma lookup_update_at f p t r :
  p ≠ [] → (∃ es, FS.lookup t (Path.dirname p) = Some (Dir es)) →
  FS.lookup (FS.update f p t) (p ++ r) = f (FS.lookup t p) ≫= (fun v => FS.lookup v r).
Proof.
  revert t. induction p as [|c p IH]; intros t Hne [es0 Hdir]; [done|].
  destruct p as [|c' p].
  - simpl in Hdir. injection Hdir as ->. simpl. rewrite lookup_partial_alter_eq.
    destruct (es0 !! c); simpl; by destruct (f _).
  - rewrite dirname_deeper in Hdir. destruct t as [|es]; [done|].
    rewrite lookup_dir_cons in Hdir.
    rewrite update_deeper, <- app_comm_cons, !lookup_dir_cons, lookup_alter_eq.
    destruct (es !! c) as [t'|]; simpl in *; [|done].
    apply IH; [done | by exists es0].
Qed.

(** When the parent is not a directory, [update] changes nothing. *)
Lemma update_without_parent f p t :
  (∀ es, FS.lookup t (Path.dirname p) ≠ Some (Dir es)) → FS.update f p t = t.
Proof.
  revert t. induction p as [|c p IH]; intros t Hdir; [done|].
  destruct p as [|c' p].
  - destruct t as [|es]; [done|]. by destruct (Hdir es).
  - destruct t as [|es]; [done|].
    change (FS.update f (c :: c' :: p) (Dir es))
      with (Dir (alter (FS.update f (c' :: p)) c es)).
    f_equal. apply alter_id. intros t' Ht'. apply IH. intros es' Hes'.
    apply (Hdir es'). change (Path.dirname (c :: c' :: p)) with (c :: Path.dirname (c' :: p)).
    simpl. by rewrite Ht'.
Qed.

(** The kinds of nodes: absent, regular file with its contents, directory. *)
Definition same_kind (o o' : option node) : Prop :=
  match o, o' with
  | None, None => True
  | Some (File a), Some (File b) => a = b
  | Some (Dir _), Some (Dir _) => True
  | _, _ => False
  end.

Lemma same_kind_refl o : same_kind o o.
Proof. by destruct o as [[]|]. Qed.

Lemma same_kind_trans o1 o2 o3 : same_kind o1 o2 → same_kind o2 o3 → same_kind o1 o3.
Proof.
  destruct o1 as [[]|], o2 as [[]|], o3 as [[]|]; simpl; try done. congruence.
Qed.

Lemma same_kind_sym o1 o2 : same_kind o1 o2 → same_kind o2 o1.
Proof. destruct o1 as [[]|], o2 as [[]|]; simpl; try done. Qed.

(** Above and beside the updated entry nothing changes kind. *)
Lemma lookup_update_kind f p q t :
  Path.is_prefix p q = false →
  same_kind (FS.lookup t q) (FS.lookup (FS.update f p t) q).
Proof.
  revert q t. induction p as [|c p IH]; intros q t; [done|].
  intros Hpre. destruct q as [|d q].
  - simpl. destruct t as [|es]; [by destruct p | by destruct p].
  - simpl in Hpre. destruct t as [|es]; [by destruct p|].
    destruct (String.eqb_spec c d) as [-> | Hne].
    + destruct p as [|c' p]; [done|].
      change (FS.update f (d :: c' :: p) (Dir es))
        with (Dir (alter (FS.update f (c' :: p)) d es)).
      simpl FS.lookup. rewrite lookup_alter_eq.
      destruct (es !! d) as [t'|]; simpl; [|done]. by apply IH.
    + destruct p as [|c' p]; simpl.
      * rewrite lookup_partial_alter_ne by done. apply same_kind_refl.
      * rewrite lookup_alter_ne by done. apply same_kind_refl.
Qed.

(** *** [mkdirs] *)

Lemma mkdirs_is_dir t d t' : FS.mkdirs t d = Some t' → ∃ es, t' = Dir es.
Proof.
  destruct t as [|es]; [by destruct d|]. destruct d as [|c d]; simpl.
  - intros [= <-]. eauto.
  - destruct (FS.mkdirs _ d); [|done]. intros [= <-]. eauto.
Qed.

Lemma mkdirs_cons es c d t' :
  FS.mkdirs (Dir es) (c :: d) = Some t' ↔
  ∃ t'', FS.mkdirs (default (Dir ∅) (es !! c)) d = Some t'' ∧ t' = Dir (<[c := t'']> es).
Proof.
  simpl. destruct (FS.mkdirs _ d) as [t''|].
  - split; [intros [= <-]; eauto | intros (? & [= <-] & ->); done].
  - split; [done | by intros (? & ? & _)].
Qed.

(** Only the prefixes of the created path can change. *)
Lemma mkdirs_lookup_other t d t' q :
  FS.mkdirs t d = Some t' → Path.is_prefix q d = false → FS.lookup t' q = FS.lookup t q.
Proof.
  revert t t' q. induction d as [|c d IH]; intros t t' q Hmk Hq.
  - destruct t; simpl in Hmk; [done | by injection Hmk as <-].
  - destruct t as [|es]; [done|]. apply mkdirs_cons in Hmk as (t'' & Hmk & ->).
    destruct q as [|e q]; [done|]. simpl in Hq. rewrite !lookup_dir_cons.
    destruct (String.eqb_spec e c) as [-> | Hne].
    + rewrite lookup_insert_eq. simpl. rewrite (IH _ _ _ Hmk Hq).
      destruct (es !! c); simpl; [done|].
      destruct q as [|e q]; [done|]. by rewrite lookup_dir_cons, lookup_empty.
    + by rewrite lookup_insert_ne.
Qed.

(** Every prefix of the created path is a directory afterwards. *)
Lemma mkdirs_lookup_prefix t d t' q :
  FS.mkdirs t d = Some t' → Path.is_prefix q d = true → ∃ es, FS.lookup t' q = Some (Dir es).
Proof.
  revert t t' q. induction d as [|c d IH]; intros t t' q Hmk Hq.
  - destruct q; [|done]. apply mkdirs_is_dir in Hmk as [es ->]. simpl. eauto.
  - destruct q as [|e q]; [apply mkdirs_is_dir in Hmk as [es ->]; simpl; eauto|].
    destruct t as [|es]; [done|]. apply mkdirs_cons in Hmk as (t'' & Hmk & ->).
    simpl in Hq. destruct (String.eqb_spec e c) as [-> | Hne]; [|done].
    rewrite lookup_dir_cons, lookup_insert_eq. simpl. by eapply IH.
Qed.

(** [mkdirs] fails exactly when a regular file stands on the way. *)
Lemma mkdirs_none t d :
  FS.mkdirs t d = None ↔
  ∃ q data, Path.is_prefix q d = true ∧ FS.lookup t q = Some (File data).
Proof.
  revert t. induction d as [|c d IH]; intros t.
  - destruct t as [data|es]; simpl.
    + split; [intros _; by exists [], data | done].
    + split; [done|]. intros (q & data & Hq & Hl). by destruct q.
  - destruct t as [data|es].
    + split; [intros _; by exists [], data | done].
    + simpl FS.mkdirs. destruct (FS.mkdirs _ d) as [t''|] eqn:Hmk.
      * split; [done|]. intros (q & data & Hq & Hl). exfalso.
        destruct q as [|e q]; [done|]. simpl in Hq.
        destruct (String.eqb_spec e c) as [-> | Hne]; [|done].
        rewrite lookup_dir_cons in Hl.
        assert (FS.mkdirs (default (Dir ∅) (es !! c)) d = None) as Hnone; [|congruence].
        apply IH. exists q, data. split; [done|].
        by destruct (es !! c).
      * split; [intros _|done]. apply IH in Hmk as (q & data & Hq & Hl).
        exists (c :: q), data. simpl. rewrite String.eqb_refl. split; [done|].
        destruct (es !! c) as [t0|]; simpl in *; [done|].
        destruct q as [|e q]; [done|]. by rewrite lookup_dir_cons, lookup_empty in Hl.
Qed.

(** What exists keeps its kind when directories are created. *)
Definition kind_le (o o' : option node) : Prop :=
  match o with
  | None => True
  | Some (File a) => o' = Some (File a)
  | Some (Dir _) => ∃ es, o' = Some (Dir es)
  end.

Lemma kind_le_refl o : kind_le o o.
Proof. destruct o as [[]|]; simpl; eauto. Qed.

Lemma kind_le_trans o1 o2 o3 : kind_le o1 o2 → kind_le o2 o3 → kind_le o1 o3.
Proof.
  destruct o1 as [[]|]; simpl; [by intros -> | | done].
  intros [es ->]. done.
Qed.

Lemma same_kind_le o o' : same_kind o o' → kind_le o o'.
Proof. destruct o as [[]|], o' as [[]|]; simpl; try done; [by intros -> | eauto]. Qed.

Lemma eq_kind_le o o' : o' = o → kind_le o o'.
Proof. intros ->. apply kind_le_refl. Qed.

Lemma mkdirs_kind t d t' q :
  FS.mkdirs t d = Some t' → kind_le (FS.lookup t q) (FS.lookup t' q).
Proof.
  intros Hmk. destruct (Path.is_prefix q d) eqn:Hq.
  - destruct (mkdirs_lookup_prefix _ _ _ _ Hmk Hq) as [es' ->].
    destruct (FS.lookup t q) as [[data|es]|] eqn:Hl; simpl; [|eauto|done].
    assert (FS.mkdirs t d = None) as Hnone; [|congruence].
    apply mkdirs_none. eauto.
  - apply eq_kind_le. by apply mkdirs_lookup_other with d.
Qed.

Lemma makedirs_ok d t t' : FS.makedirs d t = Ok t' ↔ d ≠ [] ∧ FS.mkdirs t d = Some t'.
Proof.
  unfold FS.makedirs. destruct d as [|c d]; [split; [done | by intros [? _]]|].
  destruct (FS.mkdirs t (c :: d)); split; try done.
  - by intros [= ->].
  - by intros [_ [= ->]].
  - by intros [_ ?].
Qed.

Lemma makedirs_new_ok d t t' :
  FS.makedirs_new d t = Ok t' ↔ FS.exists_ t d = false ∧ d ≠ [] ∧ FS.mkdirs t d = Some t'.
Proof.
  unfold FS.makedirs_new. destruct (FS.exists_ t d).
  - split; [done | by intros [? _]].
  - rewrite makedirs_ok. naive_solver.
Qed.

(** *** The tests *)

Lemma exists_true t p : FS.exists_ t p = true ↔ p ≠ [] ∧ ∃ v, FS.lookup t p = Some v.
Proof.
  unfold FS.exists_. destruct p as [|c p]; [naive_solver|].
  destruct (FS.lookup t (c :: p)); naive_solver.
Qed.

Lemma exists_false t p : FS.exists_ t p = false ↔ p = [] ∨ FS.lookup t p = None.
Proof.
  unfold FS.exists_. destruct p as [|c p]; [naive_solver|].
  destruct (FS.lookup t (c :: p)); naive_solver.
Qed.

Lemma isdir_true t p : FS.isdir t p = true ↔ p ≠ [] ∧ ∃ es, FS.lookup t p = Some (Dir es).
Proof.
  unfold FS.isdir. destruct p as [|c p]; [naive_solver|].
  destruct (FS.lookup t (c :: p)) as [[]|]; naive_solver.
Qed.

Lemma isfile_true t p : FS.isfile t p = true ↔ p ≠ [] ∧ ∃ data, FS.lookup t p = Some (File data).
Proof.
  unfold FS.isfile. destruct p as [|c p]; [naive_solver|].
  destruct (FS.lookup t (c :: p)) as [[]|]; naive_solver.
Qed.

(** The three tests read nothing but the node found at the path. *)
Lemma tests_of_lookup t t' p :
  FS.lookup t' p = FS.lookup t p →
  FS.exists_ t' p = FS.exists_ t p ∧ FS.isdir t' p = FS.isdir t p
  ∧ FS.isfile t' p = FS.isfile t p.
Proof.
  intros H. unfold FS.exists_, FS.isdir, FS.isfile. destruct p; [done|]. by rewrite H.
Qed.

Lemma exists_of_lookup t t' p :
  FS.lookup t' p = FS.lookup t p → FS.exists_ t' p = FS.exists_ t p.
Proof. intros H. by apply tests_of_lookup. Qed.

(** *** [shutil.move] *)

Lemma is_prefix_false_ne (p q : path) : Path.is_prefix p q = false → p ≠ q.
Proof. intros H ->. by rewrite is_prefix_refl in H. Qed.

(** A strict prefix of an existing path is a directory. *)
Lemma lookup_strict_prefix t p q v :
  Path.is_prefix p q = true → p ≠ q → FS.lookup t q = Some v →
  ∃ es, FS.lookup t p = Some (Dir es).
Proof.
  intros Hpre Hne Hq. apply is_prefix_spec in Hpre as [r ->]. rewrite lookup_app in Hq.
  destruct r as [|c r]; [by rewrite app_nil_r in Hne|].
  destruct (FS.lookup t p) as [[data|es]|]; simpl in Hq; [done | eauto | done].
Qed.

(** A successful [rename] of [src] to another path [dst]: ancestors of
    [dst] may have been created, then the node moves. *)
Lemma rename_ok src dst t t' :
  FS.rename src dst t = Ok t' → src ≠ dst →
  ∃ v tm,
    src ≠ [] ∧ dst ≠ [] ∧ FS.lookup t src = Some v
    ∧ Path.apart src dst = true
    ∧ (tm = t ∨ FS.mkdirs t dst = Some tm)
    ∧ (∃ es, FS.lookup tm (Path.dirname dst) = Some (Dir es))
    ∧ (t' = FS.put dst v (FS.remove src tm) ∨ t' = FS.remove src (FS.put dst v tm)).
Proof.
  unfold FS.rename. intros H Hne.
  destruct src as [|c0 src0] eqn:Hsrc; [done|]. rewrite <- Hsrc in *.
  assert (src ≠ []) as Hsrc_ne by (by rewrite Hsrc). clear Hsrc c0 src0.
  destruct (FS.lookup t src) as [v|] eqn:Hv; [|done].
  destruct (decide (src = dst)); [done|].
  destruct (Path.is_prefix src dst) eqn:Hpre; [by destruct v|].
  assert (Path.is_prefix dst src = true → ∃ es, FS.lookup t dst = Some (Dir es)) as Hup.
  { intros E. eapply lookup_strict_prefix; eauto. }
  assert (dst ≠ []) as Hdst_ne.
  { intros ->. destruct Hup as [es Hes]; [done|]. simpl in Hes. injection Hes as ->.
    simpl in H. by destruct v. }
  destruct (FS.lookup t dst) as [[data|es]|] eqn:Hd.
  - destruct v as [data'|es']; [|done]. injection H as <-.
    exists (File data'), t. repeat split; try done; [|by left| |by left].
    + apply apart_spec. split; [done|].
      destruct (Path.is_prefix dst src); [|done]. by destruct Hup.
    + destruct (exists_last Hdst_ne) as (p & c & ->).
      apply lookup_parent_dir in Hd as (es & Hes & _).
      unfold Path.dirname. rewrite removelast_last. eauto.
  - by destruct v.
  - assert (Path.apart src dst = true) as Hap.
    { apply apart_spec. split; [done|].
      destruct (Path.is_prefix dst src); [|done]. by destruct Hup. }
    destruct v as [data'|es'].
    + destruct (FS.isdir t (Path.dirname dst)) eqn:Hdir; [|done]. injection H as <-.
      apply isdir_true in Hdir as (_ & es & Hes).
      exists (File data'), t. repeat split; try done; [by left | eauto | by left].
    + destruct (FS.makedirs_new dst t) as [t1|] eqn:Hmk; [|done]. injection H as <-.
      apply makedirs_new_ok in Hmk as (_ & _ & Hmk).
      exists (Dir es'), t1. repeat split; try done; [by right | | by right].
      apply (mkdirs_lookup_prefix _ _ _ _ Hmk), dirname_prefix.
Qed.

(** Where [shutil.move] puts the node: onto [dst], or inside [dst] when it
    is a directory. *)
Definition real_dst (t : node) (src dst : path) : path :=
  if FS.isdir t dst then Path.join dst (Path.basename src) else dst.

Lemma move_ok src dst t t' :
  FS.move src dst t = Ok t' → src ≠ dst →
  ∃ v tm,
    src ≠ [] ∧ FS.lookup t src = Some v
    ∧ Path.apart src (real_dst t src dst) = true
    ∧ (tm = t ∨ FS.mkdirs t (real_dst t src dst) = Some tm)
    ∧ (∃ es, FS.lookup tm (Path.dirname (real_dst t src dst)) = Some (Dir es))
    ∧ (t' = FS.put (real_dst t src dst) v (FS.remove src tm)
       ∨ t' = FS.remove src (FS.put (real_dst t src dst) v tm)).
Proof.
  unfold FS.move, real_dst. intros H Hne.
  destruct (FS.isdir t dst) eqn:Hdir.
  - destruct (decide (src = dst)); [done|].
    destruct (FS.exists_ t (Path.join dst (Path.basename src))) eqn:Hex; [done|].
    assert (src ≠ Path.join dst (Path.basename src)) as Hne'.
    { intros Heq. unfold FS.rename in H. destruct src as [|c src]; [done|].
      destruct (FS.lookup t (c :: src)) eqn:Hl; [|done].
      apply exists_false in Hex as [Hex | Hex]; [by destruct dst|].
      rewrite <- Heq in Hex. congruence. }
    apply rename_ok in H as (v & tm & ? & ? & ? & ? & ? & ? & ?); [|done].
    exists v, tm. done.
  - apply rename_ok in H as (v & tm & ? & ? & ? & ? & ? & ? & ?); [|done].
    exists v, tm. done.
Qed.

Lemma real_dst_below t src dst : Path.is_prefix dst (real_dst t src dst) = true.
Proof.
  unfold real_dst. destruct (FS.isdir t dst); [apply is_prefix_app | apply is_prefix_refl].
Qed.

Lemma not_prefix_below p q r :
  Path.is_prefix q p = false → Path.is_prefix q r = true → Path.is_prefix r p = false.
Proof.
  intros H1 H2. destruct (Path.is_prefix r p) eqn:E; [|done].
  by rewrite (is_prefix_trans _ _ _ H2 E) in H1.
Qed.

Lemma apart_below' p q r :
  Path.apart p q = true → Path.is_prefix q r = true → Path.apart p r = true.
Proof. intros H1 H2. apply is_prefix_spec in H2 as [x ->]. by apply apart_below. Qed.

(** Paths apart from the source and from the destination are not touched. *)
Lemma move_lookup_apart src dst t t' q :
  FS.move src dst t = Ok t' →
  Path.apart q src = true → Path.apart q dst = true →
  FS.lookup t' q = FS.lookup t q.
Proof.
  intros H Hs Hd. destruct (decide (src = dst)) as [-> | Hne].
  - unfold FS.move, FS.rename in H. destruct (FS.isdir t dst).
    + rewrite decide_True in H by done. destruct dst; [done|].
      destruct (FS.lookup t _); [|done]. rewrite decide_True in H by done. by injection H as <-.
    + destruct dst; [done|].
      destruct (FS.lookup t _); [|done]. rewrite decide_True in H by done. by injection H as <-.
  - apply move_ok in H as (v & tm & _ & _ & _ & Htm & _ & Ht'); [|done].
    pose proof (apart_below' _ _ _ Hd (real_dst_below t src dst)) as Hd'.
    assert (FS.lookup tm q = FS.lookup t q) as Hq.
    { destruct Htm as [-> | Hmk]; [done|].
      apply (mkdirs_lookup_other _ _ _ _ Hmk). by apply apart_spec in Hd' as [? _]. }
    rewrite apart_sym in Hs, Hd'.
    destruct Ht' as [-> | ->]; unfold FS.put, FS.remove;
      by rewrite !lookup_update_apart.
Qed.

(** What is neither at nor below the source and the destination keeps its
    kind. *)
Lemma move_kind src dst t t' q :
  FS.move src dst t = Ok t' →
  Path.is_prefix src q = false → Path.is_prefix dst q = false →
  kind_le (FS.lookup t q) (FS.lookup t' q).
Proof.
  intros H Hs Hd. destruct (decide (src = dst)) as [-> | Hne].
  - unfold FS.move, FS.rename in H. apply eq_kind_le. destruct (FS.isdir t dst).
    + rewrite decide_True in H by done. destruct dst; [done|].
      destruct (FS.lookup t _); [|done]. rewrite decide_True in H by done. by injection H as <-.
    + destruct dst; [done|].
      destruct (FS.lookup t _); [|done]. rewrite decide_True in H by done. by injection H as <-.
  - apply move_ok in H as (v & tm & _ & _ & _ & Htm & _ & Ht'); [|done].
    pose proof (not_prefix_below _ _ _ Hd (real_dst_below t src dst)) as Hd'.
    assert (kind_le (FS.lookup t q) (FS.lookup tm q)) as Hq.
    { destruct Htm as [-> | Hmk]; [apply kind_le_refl | by eapply mkdirs_kind]. }
    eapply kind_le_trans; [exact Hq|].
    destruct Ht' as [-> | ->]; unfold FS.put, FS.remove;
      (eapply kind_le_trans; apply same_kind_le, lookup_update_kind; done).
Qed.

(** After a move to another path the source is gone and the node stands
    at its new place. *)
Lemma move_effect src dst t t' :
  FS.move src dst t = Ok t' → src ≠ dst →
  FS.lookup t' src = None ∧ FS.lookup t' (real_dst t src dst) = FS.lookup t src.
Proof.
  intros H Hne. apply move_ok in H as (v & tm & Hsrc & Hv & Hap & Htm & [es Hpar] & Ht'); [|done].
  set (d := real_dst t src dst) in *. rewrite Hv.
  apply apart_spec in Hap as Hap'. destruct Hap' as [Hsd Hds].
  assert (d ≠ []) as Hd by (intros E; rewrite E in Hds; by destruct src).
  assert (∃ es', FS.lookup tm (Path.dirname src) = Some (Dir es')) as [es' Hpar'].
  { destruct (exists_last Hsrc) as (p & c & ->).
    unfold Path.dirname. rewrite removelast_last.
    apply lookup_parent_dir in Hv as (es0 & Hes0 & _).
    destruct Htm as [-> | Hmk]; [eauto|].
    pose proof (mkdirs_kind _ _ _ p Hmk) as Hk. rewrite Hes0 in Hk. exact Hk. }
  pose proof (lookup_update_at (fun _ => Some v) d) as Hput.
  pose proof (lookup_update_at (fun _ => None) src) as Hrm.
  destruct Ht' as [-> | ->]; unfold FS.put, FS.remove; split.
  - rewrite lookup_update_apart by (by rewrite apart_sym).
    specialize (Hrm tm [] Hsrc (ex_intro _ es' Hpar')). by rewrite app_nil_r in Hrm.
  - specialize (Hput (FS.update (fun _ => None) src tm) [] Hd). rewrite app_nil_r in Hput.
    rewrite Hput; [done|].
    pose proof (lookup_update_kind (fun _ => None) src (Path.dirname d) tm
                  (not_prefix_dirname _ _ Hsd)) as Hk.
    apply same_kind_le in Hk. by rewrite Hpar in Hk.
  - specialize (Hrm (FS.update (fun _ => Some v) d tm) [] Hsrc). rewrite app_nil_r in Hrm.
    rewrite Hrm; [done|].
    pose proof (lookup_update_kind (fun _ => Some v) d (Path.dirname src) tm
                  (not_prefix_dirname _ _ Hds)) as Hk.
    apply same_kind_le in Hk. by rewrite Hpar' in Hk.
  - rewrite lookup_update_apart by done.
    specialize (Hput tm [] Hd (ex_intro _ es Hpar)). by rewrite app_nil_r in Hput.
Qed.

(** ** Running the monad *)

Arguments FS.copytree : simpl never.
Arguments FS.rmtree : simpl never.
Arguments FS.makedirs : simpl never.
Arguments FS.move : simpl never.
Arguments FS.listdir : simpl never.
Arguments FS.walk_size : simpl never.
Arguments FS.exists_ : simpl never.
Arguments FS.isdir : simpl never.
Arguments FS.isfile : simpl never.

Lemma run_bind {A B} (m : M A) (f : A → M B) s :
  (m ≫= f) s = match m s with
               | (Ok a, s') => f a s'
               | (Raise e, s') => (Raise e, s')
               end.
Proof. reflexivity. Qed.

Lemma run_ret {A} (a : A) s : (mret a : M A) s = (Ok a, s).
Proof. reflexivity. Qed.

Lemma run_try {A} (body : M A) handler s :
  try_except body handler s = match body s with
                              | (Ok a, s') => (Ok a, s')
                              | (Raise e, s') => handler e s'
                              end.
Proof. reflexivity. Qed.

Lemma run_for_each_cons {A} (x : A) r body s :
  for_each (x :: r) body s = match body x s with
                             | (Ok _, s') => for_each r body s'
                             | (Raise e, s') => (Raise e, s')
                             end.
Proof. reflexivity. Qed.

(** Unfolds the primitive operations of the monad in the goal and in the
    hypotheses. *)
Ltac run :=
  repeat (unfold mbind, M_bind, mret, M_ret, try_except, raise, liftR, syscall, get_fs, set_fs,
           get_progress, set_progress, write_stdout, logging_info, logging_warning,
           logging_error, logging, add_error, add_warning, increment, _update_progress,
           set_total in *;
          simpl in *).

(** The planned total and the reports printed so far are what they were. *)
Definition same_plan (s s' : state) : Prop :=
  total_operations (progress s') = total_operations (progress s)
  ∧ printed_reports s' = printed_reports s.

Lemma same_plan_refl s : same_plan s s.
Proof. done. Qed.

Lemma same_plan_trans s1 s2 s3 : same_plan s1 s2 → same_plan s2 s3 → same_plan s1 s3.
Proof. intros [? ?] [? ?]. split; congruence. Qed.

Lemma printed_reports_progress t lg out p a b :
  printed_reports {| fs := t; log := lg; stdout := out ++ [Progress a b]; progress := p |}
  = omap (fun o => match o with Printed r => Some r | Progress _ _ => None end) out.
Proof. unfold printed_reports. simpl. rewrite omap_app. simpl. apply app_nil_r. Qed.

(** Closes the goals [same_plan s s'] left by a run of [move_file]. *)
Ltac plan := split; [done | first [done | apply printed_reports_progress]].

(** *** One call of [move_file], for real *)

Section RealRun.

Variable env : environment.
Hypothesis real : dry_run env = false.

Lemma move_file_step src dst s :
  ∃ s', move_file env src dst s = (Ok tt, s')
    ∧ same_plan s s'
    ∧ ∃ tm,
        (tm = fs s
         ∨ (FS.isdir (fs s) (Path.dirname dst) = false
            ∧ FS.mkdirs (fs s) (Path.dirname dst) = Some tm))
        ∧ ((fs s' = tm
            ∧ (FS.exists_ (fs s) src = true →
               ∃ msg, errors (progress s') = errors (progress s) ++ [msg])
            ∧ (FS.exists_ (fs s) src = false → errors (progress s') = errors (progress s)))
           ∨ (FS.exists_ (fs s) src = true
              ∧ FS.move src dst tm = Ok (fs s')
              ∧ errors (progress s') = errors (progress s))).
Proof.
  unfold move_file. rewrite real. run.
  destruct (FS.exists_ (fs s) src) eqn:Hsrc; simpl.
  2:{ eexists; split; [done|]. simpl. split; [plan|]. exists (fs s). split; [by left|].
      left. done. }
  destruct (FS.isdir (fs s) (Path.dirname dst)) eqn:Hdir; simpl.
  - destruct (FS.move src dst (fs s)) as [t'|e] eqn:Hmv; simpl.
    + destruct (0 <? total_operations (progress s))%nat; simpl;
        (eexists; split; [done|]; simpl; split; [plan|]; exists (fs s); split; [by left|];
         right; done).
    + eexists; split; [done|]. simpl. split; [plan|]. exists (fs s). split; [by left|].
      left. split; [done|]. split; [eauto | done].
  - destruct (FS.makedirs (Path.dirname dst) (fs s)) as [tm|e] eqn:Hmk; simpl.
    + apply makedirs_ok in Hmk as [_ Hmk].
      destruct (FS.move src dst tm) as [t'|e] eqn:Hmv; simpl.
      * destruct (0 <? total_operations (progress s))%nat; simpl;
          (eexists; split; [done|]; simpl; split; [plan|]; exists tm; split; [by right|];
           right; done).
      * eexists; split; [done|]. simpl. split; [plan|]. exists tm. split; [by right|].
        left. split; [done|]. split; [eauto | done].
    + eexists; split; [done|]. simpl. split; [plan|]. exists (fs s). split; [by left|].
      left. split; [done|]. split; [eauto | done].
Qed.

End RealRun.

(** *** Loops of [move_file] *)

(** The four paths of two entries are pairwise apart. *)
Definition far (e e' : path * path) : bool :=
  Path.apart e.1 e'.1 && Path.apart e.1 e'.2 && Path.apart e.2 e'.1 && Path.apart e.2 e'.2.

Fixpoint independent (l : list (path * path)) : bool :=
  match l with
  | [] => true
  | e :: r => forallb (far e) r && independent r
  end.

Definition well_separated (l : list (path * path)) : Prop :=
  independent l = true ∧ ∀ e, e ∈ l → Path.apart e.1 e.2 = true.

Lemma far_spec e e' :
  far e e' = true ↔
  Path.apart e.1 e'.1 = true ∧ Path.apart e.1 e'.2 = true
  ∧ Path.apart e.2 e'.1 = true ∧ Path.apart e.2 e'.2 = true.
Proof. unfold far. rewrite !andb_true_iff. tauto. Qed.

Lemma independent_cons e r :
  independent (e :: r) = true ↔ (∀ e', e' ∈ r → far e e' = true) ∧ independent r = true.
Proof.
  simpl. rewrite andb_true_iff, forallb_forall.
  split; intros [H1 H2]; (split; [|done]); intros e' He'; apply H1;
    by apply list_elem_of_In.
Qed.

Lemma independent_filter P l : independent l = true → independent (List.filter P l) = true.
Proof.
  induction l as [|e r IH]; [done|]. rewrite independent_cons. intros [H1 H2]. simpl.
  destruct (P e); [|by apply IH]. apply independent_cons. split; [|by apply IH].
  intros e' He'. apply H1. apply list_elem_of_In in He'. apply filter_In in He' as [He' _].
  by apply list_elem_of_In.
Qed.

(** What one entry of a loop has become: left as it was, with an error
    recorded if its source was there, or moved. *)
Definition settled_entry (s s' : state) (e : path * path) : Prop :=
  (FS.lookup (fs s') e.1 = FS.lookup (fs s) e.1
   ∧ FS.lookup (fs s') e.2 = FS.lookup (fs s) e.2
   ∧ (FS.exists_ (fs s) e.1 = true →
      length (errors (progress s)) < length (errors (progress s'))))
  ∨ (FS.exists_ (fs s) e.1 = true
     ∧ FS.lookup (fs s') e.1 = None
     ∧ FS.lookup (fs s') (real_dst (fs s) e.1 e.2) = FS.lookup (fs s) e.1).

Record loop_post (l : list (path * path)) (s s' : state) : Prop := {
  lp_errors : length (errors (progress s)) ≤ length (errors (progress s'));
  lp_frame : ∀ q,
    (∀ e, e ∈ l → Path.apart q e.1 = true ∧ Path.apart q e.2 = true) →
    FS.lookup (fs s') q = FS.lookup (fs s) q;
  lp_kind : ∀ q,
    (∀ e, e ∈ l → Path.is_prefix e.1 q = false ∧ Path.is_prefix e.2 q = false) →
    kind_le (FS.lookup (fs s) q) (FS.lookup (fs s') q);
  lp_each : ∀ e, e ∈ l → settled_entry s s' e
}.

Lemma apart_nonempty p q : Path.apart p q = true → p ≠ [] ∧ q ≠ [].
Proof.
  rewrite apart_spec. intros [H1 H2]. split; intros ->; simpl in *; done.
Qed.

Lemma not_prefix_own_dirname (p : path) : p ≠ [] → Path.is_prefix p (Path.dirname p) = false.
Proof.
  intros Hp. destruct (Path.is_prefix p (Path.dirname p)) eqn:E; [|done]. exfalso.
  apply is_prefix_spec in E as [r Hr].
  destruct (exists_last Hp) as (p0 & c & ->).
  unfold Path.dirname in Hr. rewrite removelast_last in Hr.
  apply (f_equal length) in Hr. rewrite !length_app in Hr. simpl in Hr. lia.
Qed.

Lemma real_dst_of_lookup t t' src dst :
  FS.lookup t' dst = FS.lookup t dst → real_dst t' src dst = real_dst t src dst.
Proof. intros H. unfold real_dst. by destruct (tests_of_lookup _ _ _ H) as (_ & -> & _). Qed.

Section RealLoops.

Variable env : environment.
Hypothesis real : dry_run env = false.

Lemma move_file_post e s :
  Path.apart e.1 e.2 = true →
  ∃ s', move_file env e.1 e.2 s = (Ok tt, s') ∧ same_plan s s' ∧ loop_post [e] s s'.
Proof.
  destruct e as [src dst]. simpl. intros Hap.
  destruct (move_file_step env real src dst s) as (s' & Hrun & Htot & tm & Htm & Hcase).
  exists s'. split; [done|]. split; [done|].
  apply apart_spec in Hap as Hap'. destruct Hap' as [Hsd Hds].
  destruct (apart_nonempty _ _ Hap) as [Hsrc Hdst].
  assert (∀ q, Path.is_prefix q (Path.dirname dst) = false →
               FS.lookup tm q = FS.lookup (fs s) q) as Hmk_other.
  { intros q Hq. destruct Htm as [-> | [_ Hmk]]; [done|]. by eapply mkdirs_lookup_other. }
  assert (∀ q, kind_le (FS.lookup (fs s) q) (FS.lookup tm q)) as Hmk_kind.
  { intros q. destruct Htm as [-> | [_ Hmk]]; [apply kind_le_refl|]. by eapply mkdirs_kind. }
  assert (FS.lookup tm src = FS.lookup (fs s) src) as Hsrc_tm
    by (by apply Hmk_other, not_prefix_dirname).
  assert (FS.lookup tm dst = FS.lookup (fs s) dst) as Hdst_tm
    by (by apply Hmk_other, not_prefix_own_dirname).
  split.
  - destruct Hcase as [(_ & He1 & He2) | (_ & _ & ->)]; [|done].
    destruct (FS.exists_ (fs s) src); [|by rewrite He2].
    destruct He1 as [msg ->]; [done|]. rewrite length_app. lia.
  - intros q Hq. destruct (Hq (src, dst)) as [Hq1 Hq2]; [by apply list_elem_of_singleton|].
    simpl in *. apply apart_spec in Hq2 as Hq2'. destruct Hq2' as [Hq2' _].
    destruct Hcase as [(-> & _) | (_ & Hmv & _)].
    + by apply Hmk_other, not_prefix_dirname.
    + rewrite (move_lookup_apart _ _ _ _ _ Hmv Hq1 Hq2).
      by apply Hmk_other, not_prefix_dirname.
  - intros q Hq. destruct (Hq (src, dst)) as [Hq1 Hq2]; [by apply list_elem_of_singleton|].
    simpl in *. destruct Hcase as [(-> & _) | (_ & Hmv & _)]; [done|].
    eapply kind_le_trans; [apply Hmk_kind|]. by eapply move_kind.
  - intros e He. apply list_elem_of_singleton in He as ->. unfold settled_entry. simpl.
    destruct Hcase as [(-> & He1 & _) | (Hex & Hmv & _)].
    + left. split; [done|]. split; [done|]. intros Hex.
      destruct (He1 Hex) as [msg ->]. rewrite length_app. simpl. lia.
    + right. split; [done|].
      destruct (move_effect _ _ _ _ Hmv) as [Hgone Harrived]; [by apply is_prefix_false_ne|].
      split; [done|]. by rewrite <- (real_dst_of_lookup _ _ src dst Hdst_tm), Harrived.
Qed.

Lemma settled_entry_before e s s1 s' :
  FS.lookup (fs s1) e.1 = FS.lookup (fs s) e.1 →
  FS.lookup (fs s1) e.2 = FS.lookup (fs s) e.2 →
  length (errors (progress s)) ≤ length (errors (progress s1)) →
  settled_entry s1 s' e → settled_entry s s' e.
Proof.
  intros H1 H2 Hle. unfold settled_entry.
  rewrite (exists_of_lookup _ _ _ H1), (real_dst_of_lookup _ _ e.1 e.2 H2), H1, H2.
  intros [(? & ? & He) | ?]; [left | by right].
  split; [done|]. split; [done|]. intros Hex. specialize (He Hex). lia.
Qed.

Lemma settled_entry_after e s s1 s' :
  FS.lookup (fs s') e.1 = FS.lookup (fs s1) e.1 →
  FS.lookup (fs s') e.2 = FS.lookup (fs s1) e.2 →
  FS.lookup (fs s') (real_dst (fs s) e.1 e.2) = FS.lookup (fs s1) (real_dst (fs s) e.1 e.2) →
  length (errors (progress s1)) ≤ length (errors (progress s')) →
  settled_entry s s1 e → settled_entry s s' e.
Proof.
  intros H1 H2 H3 Hle. unfold settled_entry. rewrite H1, H2, H3.
  intros [(? & ? & He) | ?]; [left | by right].
  split; [done|]. split; [done|]. intros Hex. specialize (He Hex). lia.
Qed.

Lemma move_loop l s :
  well_separated l →
  ∃ s', for_each l (fun sd => move_file env sd.1 sd.2) s = (Ok tt, s')
    ∧ same_plan s s' ∧ loop_post l s s'.
Proof.
  revert s. induction l as [|e r IH]; intros s [Hind Hap].
  - exists s. split; [done|]. split; [done|]. split; try done.
    + intros q _. apply kind_le_refl.
    + intros e He. by apply elem_of_nil in He.
  - apply independent_cons in Hind as [Hfar Hind].
    destruct (move_file_post e s) as (s1 & Hrun1 & Htot1 & P1); [apply Hap; left|].
    destruct (IH s1) as (s' & Hrun & Htot & P); [split; [done|]; intros; apply Hap; by right|].
    exists s'. rewrite run_for_each_cons, Hrun1. split; [done|].
    split; [by eapply same_plan_trans|].
    assert (∀ e', e' ∈ r → ∀ q,
               Path.is_prefix e'.1 q = true ∨ Path.is_prefix e'.2 q = true →
               FS.lookup (fs s1) q = FS.lookup (fs s) q) as Hback.
    { intros e' He' q Hq. apply (lp_frame _ _ _ P1). intros e0 He0.
      apply list_elem_of_singleton in He0 as ->.
      apply Hfar, far_spec in He' as (H11 & H12 & H21 & H22).
      rewrite (apart_sym q e.1), (apart_sym q e.2).
      destruct Hq as [Hq | Hq]; split; (eapply apart_below'; [|exact Hq]); done. }
    assert (∀ q, Path.is_prefix e.1 q = true ∨ Path.is_prefix e.2 q = true →
               FS.lookup (fs s') q = FS.lookup (fs s1) q) as Hforth.
    { intros q Hq. apply (lp_frame _ _ _ P). intros e' He'.
      apply Hfar, far_spec in He' as (H11 & H12 & H21 & H22).
      rewrite (apart_sym q e'.1), (apart_sym q e'.2).
      rewrite (apart_sym e.1) in H11, H12. rewrite (apart_sym e.2) in H21, H22.
      destruct Hq as [Hq | Hq]; split; (eapply apart_below'; [|exact Hq]); done. }
    split.
    + pose proof (lp_errors _ _ _ P). pose proof (lp_errors _ _ _ P1). lia.
    + intros q Hq. rewrite (lp_frame _ _ _ P), (lp_frame _ _ _ P1); [done| |].
      * intros e0 He0. apply list_elem_of_singleton in He0 as ->. apply Hq. left.
      * intros e0 He0. apply Hq. by right.
    + intros q Hq. eapply kind_le_trans; [apply (lp_kind _ _ _ P1) | apply (lp_kind _ _ _ P)].
      * intros e0 He0. apply list_elem_of_singleton in He0 as ->. apply Hq. left.
      * intros e0 He0. apply Hq. by right.
    + intros e0 He0. apply elem_of_cons in He0 as [-> | He0].
      * apply (settled_entry_after e s s1 s').
        -- apply Hforth. left. apply is_prefix_refl.
        -- apply Hforth. right. apply is_prefix_refl.
        -- apply Hforth. right. apply real_dst_below.
        -- apply (lp_errors _ _ _ P).
        -- apply (lp_each _ _ _ P1). by apply list_elem_of_singleton.
      * apply (settled_entry_before e0 s s1 s').
        -- apply (Hback e0 He0). left. apply is_prefix_refl.
        -- apply (Hback e0 He0). right. apply is_prefix_refl.
        -- apply (lp_errors _ _ _ P1).
        -- by apply (lp_each _ _ _ P).
Qed.

End RealLoops.

(** *** The tables *)

#[local] Opaque FILE_MOVES NEW_DIRS EXTRA_WARN_FILES.

Definition table_paths : list path := flat_map (fun e => [e.1; e.2]) FILE_MOVES.

Definition same_path (p q : path) : bool := Path.is_prefix p q && Path.is_prefix q p.

Lemma same_path_eq p q : same_path p q = true → p = q.
Proof.
  unfold same_path. rewrite andb_true_iff, !is_prefix_spec. intros [[a ->] [b Hb]].
  apply (f_equal length) in Hb as Hlen. rewrite !length_app in Hlen.
  destruct a; [by rewrite app_nil_r | simpl in Hlen; lia].
Qed.

Lemma FILE_MOVES_independent : independent FILE_MOVES = true.
Proof. vm_compute. reflexivity. Qed.

(** An entry maps a path onto itself or onto a path apart from it. *)
Lemma FILE_MOVES_entries e :
  e ∈ FILE_MOVES → e.1 = e.2 ∨ Path.apart e.1 e.2 = true.
Proof.
  assert (forallb (fun e => same_path e.1 e.2 || Path.apart e.1 e.2) FILE_MOVES = true) as H
    by (vm_compute; reflexivity).
  intros He. rewrite forallb_forall in H. apply list_elem_of_In, H in He.
  apply orb_prop in He as [He | He]; [left; by apply same_path_eq | by right].
Qed.

(** No mapped path is a directory of the skeleton or one of its ancestors. *)
Lemma table_path_not_skeleton p d :
  p ∈ table_paths → d ∈ NEW_DIRS → Path.is_prefix p d = false.
Proof.
  assert (forallb (fun p => forallb (fun d => negb (Path.is_prefix p d)) NEW_DIRS) table_paths
          = true) as H by (vm_compute; reflexivity).
  intros Hp Hd. rewrite forallb_forall in H. apply list_elem_of_In, H in Hp.
  rewrite forallb_forall in Hp. apply list_elem_of_In, Hp in Hd. by apply negb_true_iff.
Qed.

(** Every mapped path lies below [src] and away from [src/styles]. *)
Lemma table_path_under_src p :
  p ∈ table_paths → ∃ r, p = "src"%string :: r ∧ Path.apart p styles_root = true.
Proof.
  assert (forallb (fun p => match p with
                            | c :: _ => String.eqb c "src" && Path.apart p styles_root
                            | [] => false
                            end) table_paths = true) as H by (vm_compute; reflexivity).
  intros Hp. rewrite forallb_forall in H. apply list_elem_of_In, H in Hp.
  destruct p as [|c r]; [done|]. apply andb_prop in Hp as [Hc Hs].
  apply String.eqb_eq in Hc as ->. eauto.
Qed.

Lemma table_paths_of_entry e : e ∈ FILE_MOVES → e.1 ∈ table_paths ∧ e.2 ∈ table_paths.
Proof.
  intros He. unfold table_paths. split; apply list_elem_of_In, in_flat_map;
    exists e; (split; [by apply list_elem_of_In | simpl; tauto]).
Qed.

Lemma moves_needed_spec t e :
  e ∈ moves_needed t ↔
  e ∈ FILE_MOVES ∧ FS.exists_ t e.1 = true ∧ FS.exists_ t e.2 = false.
Proof.
  unfold moves_needed. rewrite !list_elem_of_In, filter_In, andb_true_iff, negb_true_iff.
  done.
Qed.

Lemma moves_needed_separated t : well_separated (moves_needed t).
Proof.
  split.
  - apply independent_filter, FILE_MOVES_independent.
  - intros e He. apply moves_needed_spec in He as (He & H1 & H2).
    destruct (FILE_MOVES_entries e He) as [Heq | ?]; [|done].
    rewrite Heq in H1. congruence.
Qed.

Lemma loop_post_rebase l s0 s s' :
  fs s = fs s0 → errors (progress s) = errors (progress s0) →
  loop_post l s s' → loop_post l s0 s'.
Proof.
  intros Hfs Herr [P1 P2 P3 P4]. unfold settled_entry in *. rewrite Hfs, Herr in *.
  by split.
Qed.

Lemma loop_post_extend l s s1 s' :
  fs s' = fs s1 → errors (progress s') = errors (progress s1) →
  loop_post l s s1 → loop_post l s s'.
Proof.
  intros Hfs Herr [P1 P2 P3 P4]. unfold settled_entry in *. rewrite <- Hfs, <- Herr in *.
  by split.
Qed.

Section RealPhases.

Variable env : environment.
Hypothesis real : dry_run env = false.

Lemma process_file_moves_post s :
  ∃ s', process_file_moves env s = (Ok tt, s')
    ∧ total_operations (progress s') = length (moves_needed (fs s))
    ∧ printed_reports s' = printed_reports s
    ∧ loop_post (moves_needed (fs s)) s s'.
Proof.
  unfold process_file_moves. run.
  set (s1 := {| fs := fs s; log := _; stdout := _; progress := _ |}).
  destruct (move_loop env real (moves_needed (fs s)) s1) as (s2 & Hrun & [Htot Hpr] & P);
    [apply moves_needed_separated|].
  rewrite Hrun.
  apply (loop_post_rebase _ s) in P; [|done..].
  destruct (0 <? _); simpl;
    (eexists; split; [done|]; simpl; split; [by rewrite Htot|]; split; [exact Hpr|]).
  - eapply loop_post_extend; [..|exact P]; done.
  - done.
Qed.

End RealPhases.

Lemma independent_far l e e' :
  independent l = true → e ∈ l → e' ∈ l → e ≠ e' → far e e' = true.
Proof.
  induction l as [|x r IH]; intros Hind He He' Hne; [by apply elem_of_nil in He|].
  apply independent_cons in Hind as [Hfar Hind].
  apply elem_of_cons in He as [-> | He], He' as [-> | He'].
  - done.
  - by apply Hfar.
  - specialize (Hfar _ He). apply far_spec in Hfar as (H1 & H2 & H3 & H4).
    apply far_spec. by rewrite (apart_sym e.1), (apart_sym e.1), (apart_sym e.2), (apart_sym e.2).
  - by apply IH.
Qed.

(** *** The backup *)

Definition backup_name (env : environment) : string := ("src_backup_" ++ now env)%string.

Lemma backup_name_not_src env : backup_name env ≠ "src"%string.
Proof. done. Qed.

Lemma lookup_root_insert root (c : string) v p :
  p ≠ [] → List.hd c p ≠ c → FS.lookup (Dir (<[c := v]> root)) p = FS.lookup (Dir root) p.
Proof.
  destruct p as [|d p]; [done|]. simpl. intros _ Hne. by rewrite lookup_insert_ne.
Qed.

Lemma lookup_root_delete root (c : string) p :
  p ≠ [] → List.hd c p ≠ c → FS.lookup (Dir (delete c root)) p = FS.lookup (Dir root) p.
Proof.
  destruct p as [|d p]; [done|]. simpl. intros _ Hne. by rewrite lookup_delete_ne.
Qed.

(** A copy of a directory to a fresh name in the working directory. *)
Lemma copytree_to_root src (c : string) t t' :
  FS.copytree src [c] t = Ok t' →
  ∃ root es, t = Dir root ∧ FS.lookup t src = Some (Dir es) ∧ src ≠ []
             ∧ root !! c = None ∧ t' = Dir (<[c := Dir es]> root).
Proof.
  unfold FS.copytree. destruct src as [|c0 src0] eqn:Hsrc; [done|]. rewrite <- Hsrc.
  assert (src ≠ []) as Hne by (by rewrite Hsrc).
  destruct (FS.lookup t src) as [[|es]|] eqn:Hl; try done.
  destruct (FS.makedirs_new [c] t) as [t1|] eqn:Hmk; [|done]. intros [= <-].
  apply makedirs_new_ok in Hmk as (Hex & _ & Hmk).
  destruct t as [|root]; [done|]. exists root, es.
  apply exists_false in Hex as [? | Hex]; [done|]. simpl in Hex.
  destruct (root !! c) eqn:Hc; [done|].
  simpl in Hmk. rewrite Hc in Hmk. simpl in Hmk. injection Hmk as <-.
  repeat split; try done.
  unfold FS.put. simpl. f_equal. exact (insert_insert_eq root c (Dir es) (Dir ∅)).
Qed.

Lemma rmtree_at_root (c : string) t t' :
  FS.rmtree [c] t = Ok t' → ∃ root, t = Dir root ∧ t' = Dir (delete c root).
Proof.
  unfold FS.rmtree. destruct (FS.lookup t [c]) as [[|es]|] eqn:Hl; try done.
  intros [= <-]. destruct t as [|root]; [done|]. by exists root.
Qed.

Section Backup.

Variable env : environment.
Hypothesis real : dry_run env = false.

Lemma create_backup_post s :
  ∃ r s', create_backup env s = (Ok r, s')
    ∧ progress s' = progress s ∧ stdout s' = stdout s
    ∧ (∃ lg, log s' = log s ++ lg)
    ∧ ((r = None ∧ fs s' = fs s)
       ∨ (∃ root es,
            r = Some [backup_name env]
            ∧ fs s = Dir root ∧ root !! "src"%string = Some (Dir es)
            ∧ root !! backup_name env = None
            ∧ fs s' = Dir (<[backup_name env := Dir es]> root))).
Proof.
  unfold create_backup. rewrite real. run.
  destruct (FS.copytree _ _ (fs s)) as [t'|e] eqn:Hcp; simpl.
  - apply copytree_to_root in Hcp as (root & es & Hroot & Hsrc & _ & Hbk & ->).
    eexists _, _. split; [done|]. simpl. repeat split; try done; [by eexists|]. right.
    exists root, es. repeat split; try done.
    rewrite Hroot in Hsrc. simpl in Hsrc. by destruct (root !! "src"%string).
  - eexists _, _. split; [done|]. simpl. repeat split; try done; [by eexists|]. by left.
Qed.

End Backup.

(** *** The directory skeleton *)

(** A directory of the skeleton is in place, or a regular file bars it. *)
Definition skeleton_ok (t : node) (d : path) : Prop :=
  FS.isdir t d = true ∨ FS.mkdirs t d = None.

Lemma skeleton_ok_kind t t' d :
  (∀ q, Path.is_prefix q d = true → kind_le (FS.lookup t q) (FS.lookup t' q)) →
  skeleton_ok t d → skeleton_ok t' d.
Proof.
  intros Hk [Hdir | Hno].
  - left. apply isdir_true in Hdir as (Hd & es & Hes). apply isdir_true. split; [done|].
    specialize (Hk d (is_prefix_refl d)). by rewrite Hes in Hk.
  - right. apply mkdirs_none in Hno as (q & data & Hq & Hl). apply mkdirs_none.
    exists q, data. split; [done|]. specialize (Hk q Hq). by rewrite Hl in Hk.
Qed.

Lemma NEW_DIRS_nonempty d : d ∈ NEW_DIRS → d ≠ [].
Proof.
  assert (forallb (fun d => negb (same_path d [])) NEW_DIRS = true) as H
    by (vm_compute; reflexivity).
  intros Hd. rewrite forallb_forall in H. apply list_elem_of_In, H in Hd. by intros ->.
Qed.

Section Skeleton.

Variable env : environment.
Hypothesis real : dry_run env = false.

(** The body of the loop of [create_new_directories]. *)
Definition ensure_directory (directory : path) : M unit :=
  t ← get_fs;
  if FS.isdir t directory then
    logging_info ("Directory already exists: " ++ Path.to_string directory)%string
  else if dry_run env then
    logging_info ("[DRY RUN] Would create directory: " ++ Path.to_string directory)%string
  else
    try_except
      (syscall (FS.makedirs directory) ;;
       logging_info ("Created directory: " ++ Path.to_string directory)%string)
      (fun e => logging_error ("Error creating directory " ++ Path.to_string directory
                                 ++ ": " ++ str_exn e)%string).

Lemma create_new_directories_unfold :
  create_new_directories env
  = (logging_info "Creating new directory structure ..." ;; for_each NEW_DIRS ensure_directory).
Proof. reflexivity. Qed.

Lemma ensure_directory_step d s :
  d ≠ [] →
  ∃ s', ensure_directory d s = (Ok tt, s')
    ∧ progress s' = progress s ∧ stdout s' = stdout s
    ∧ ((fs s' = fs s ∧ skeleton_ok (fs s) d)
       ∨ (FS.isdir (fs s) d = false ∧ FS.mkdirs (fs s) d = Some (fs s'))).
Proof.
  intros Hd. unfold ensure_directory. rewrite real. run.
  destruct (FS.isdir (fs s) d) eqn:Hdir; simpl.
  - eexists. split; [done|]. simpl. repeat split; try done. left. split; [done | by left].
  - destruct (FS.makedirs d (fs s)) as [t'|e] eqn:Hmk; simpl.
    + apply makedirs_ok in Hmk as [_ Hmk].
      eexists. split; [done|]. simpl. repeat split; try done. by right.
    + eexists. split; [done|]. simpl. repeat split; try done. left. split; [done|]. right.
      unfold FS.makedirs in Hmk. destruct d; [done|]. by destruct (FS.mkdirs _ _).
Qed.

Lemma skeleton_loop ds s :
  (∀ d, d ∈ ds → d ≠ []) →
  ∃ s', for_each ds ensure_directory s = (Ok tt, s')
    ∧ progress s' = progress s ∧ stdout s' = stdout s
    ∧ (∀ q, (∀ d, d ∈ ds → Path.is_prefix q d = false) →
            FS.lookup (fs s') q = FS.lookup (fs s) q)
    ∧ (∀ q, kind_le (FS.lookup (fs s) q) (FS.lookup (fs s') q))
    ∧ (∀ d, d ∈ ds → skeleton_ok (fs s') d)
    ∧ ((∀ d, d ∈ ds → skeleton_ok (fs s) d) → fs s' = fs s).
Proof.
  revert s. induction ds as [|d r IH]; intros s Hne.
  - exists s. repeat split; try done.
    + intros. apply kind_le_refl.
    + intros d Hd. by apply elem_of_nil in Hd.
  - destruct (ensure_directory_step d s) as (s1 & Hrun1 & Hp1 & Ho1 & Hcase); [apply Hne; left|].
    destruct (IH s1) as (s' & Hrun & Hp & Ho & Hframe & Hkind & Hok & Hnoop);
      [intros; apply Hne; by right|].
    exists s'. rewrite run_for_each_cons, Hrun1.
    assert (∀ q, kind_le (FS.lookup (fs s) q) (FS.lookup (fs s1) q)) as Hkind1.
    { intros q. destruct Hcase as [[-> _] | [_ Hmk]]; [apply kind_le_refl|].
      by eapply mkdirs_kind. }
    repeat split; try congruence.
    + intros q Hq. rewrite Hframe by (intros; apply Hq; by right).
      destruct Hcase as [[-> _] | [_ Hmk]]; [done|].
      apply (mkdirs_lookup_other _ _ _ _ Hmk), Hq. left.
    + intros q. eapply kind_le_trans; [apply Hkind1 | apply Hkind].
    + intros d0 Hd0. apply elem_of_cons in Hd0 as [-> | Hd0]; [|by apply Hok].
      apply (skeleton_ok_kind (fs s1)); [intros; apply Hkind|].
      destruct Hcase as [[-> ?] | [_ Hmk]]; [done|]. left.
      apply isdir_true. split; [apply Hne; left|].
      apply (mkdirs_lookup_prefix _ _ _ _ Hmk), is_prefix_refl.
    + intros Hall. destruct Hcase as [[Hfs _] | [Hdir Hmk]].
      * rewrite <- Hfs. apply Hnoop. intros d0 Hd0. rewrite Hfs. apply Hall. by right.
      * destruct (Hall d) as [? | ?]; [left | congruence | congruence].
Qed.

Lemma create_new_directories_post s :
  ∃ s', create_new_directories env s = (Ok tt, s')
    ∧ progress s' = progress s ∧ stdout s' = stdout s
    ∧ (∀ q, (∀ d, d ∈ NEW_DIRS → Path.is_prefix q d = false) →
            FS.lookup (fs s') q = FS.lookup (fs s) q)
    ∧ (∀ q, kind_le (FS.lookup (fs s) q) (FS.lookup (fs s') q))
    ∧ (∀ d, d ∈ NEW_DIRS → skeleton_ok (fs s') d)
    ∧ ((∀ d, d ∈ NEW_DIRS → skeleton_ok (fs s) d) → fs s' = fs s).
Proof.
  rewrite create_new_directories_unfold. rewrite run_bind.
  unfold logging_info at 1, logging at 1.
  set (s0 := {| fs := fs s; log := _; stdout := stdout s; progress := progress s |}).
  destruct (skeleton_loop NEW_DIRS s0 NEW_DIRS_nonempty) as (s' & Hrun & H).
  exists s'. split; [done|]. exact H.
Qed.

End Skeleton.

(** *** The stylesheets *)

Lemma run_for_each_app {A} (l1 l2 : list A) body s :
  for_each (l1 ++ l2) body s = (for_each l1 body ;; for_each l2 body) s.
Proof.
  revert s. induction l1 as [|x r IH]; intros s; [done|].
  rewrite <- app_comm_cons, run_bind, !run_for_each_cons.
  destruct (body x s) as [[[]|e] s1]; [|done]. by rewrite IH, run_bind.
Qed.

Lemma run_for_each_fmap {A B} (f : A → B) (l : list A) body s :
  for_each (f <$> l) body s = for_each l (fun x => body (f x)) s.
Proof.
  revert s. induction l as [|x r IH]; intros s; [done|].
  rewrite fmap_cons, !run_for_each_cons. destruct (body (f x) s) as [[[]|e] s1]; [|done].
  apply IH.
Qed.

(** The move planned for a loose stylesheet. *)
Definition css_move (item : string) : path * path :=
  (Path.join styles_root item, Path.join (Path.join styles_root (category_of item)) item).

(** The moves of [reorganize_styles], in the order of its two loops. *)
Definition css_moves (t : node) (items : list string) : list (path * path) :=
  flat_map (fun entry => css_move <$> entry.2) (css_files t items).

Lemma filter_eqb_category c l x :
  In x (List.filter (fun item => String.eqb (category_of item) c) l) ↔ In x l ∧ category_of x = c.
Proof. by rewrite filter_In, String.eqb_eq. Qed.

Lemma css_loops_flatten env t items s :
  for_each (css_files t items) (fun entry =>
    let dest_dir := Path.join styles_root (fst entry) in
    for_each (snd entry) (fun file =>
      move_file env (Path.join styles_root file) (Path.join dest_dir file))) s
  = for_each (css_moves t items) (fun sd => move_file env sd.1 sd.2) s.
Proof.
  unfold css_moves. generalize (eq_refl (css_files t items)).
  assert (∀ entry, entry ∈ css_files t items → ∀ file, file ∈ entry.2 →
                   category_of file = entry.1) as Hcat.
  { intros entry He file Hf. unfold css_files in He.
    apply list_elem_of_fmap in He as (c & -> & _). simpl in *.
    apply list_elem_of_In, filter_eqb_category in Hf. tauto. }
  revert Hcat s. generalize (css_files t items) at 1 2 3 4 5 as entries.
  induction entries as [|entry r IH]; intros Hcat s _; [done|].
  simpl flat_map. rewrite run_for_each_app, run_for_each_cons, run_bind, run_for_each_fmap.
  assert (∀ s0, for_each entry.2
                  (fun file => move_file env (Path.join styles_root file)
                                 (Path.join (Path.join styles_root entry.1) file)) s0
                = for_each entry.2
                    (fun x => move_file env (css_move x).1 (css_move x).2) s0) as Heq.
  { assert (∀ file, file ∈ entry.2 → category_of file = entry.1) as Hc
      by (intros; apply (Hcat entry); [left | done]).
    revert Hc. generalize entry.2 as files. induction files as [|f fs IHf]; intros Hc s0; [done|].
    rewrite !run_for_each_cons. unfold css_move at 1 2. simpl.
    rewrite (Hc f) by left.
    destruct (move_file _ _ _ s0) as [[[]|e] s1]; [|done].
    apply IHf. intros. apply Hc. by right. }
  simpl. rewrite Heq.
  destruct (for_each entry.2 _ s) as [[[]|e] s1]; [|done].
  apply IH; [|done]. intros. eapply Hcat; [by right | done].
Qed.

Definition categories : list string := ["effects"; "ui"; "components"]%string.

Lemma category_of_in item : category_of item ∈ categories.
Proof.
  unfold categories. destruct (category_of_cases item) as [-> | [-> | ->]];
    repeat constructor.
Qed.

(** A name ending in [.css] is not the name of a bucket. *)
Lemma css_name_not_category t item : is_css t item = true → item ∉ categories.
Proof.
  unfold is_css. rewrite andb_true_iff. intros [_ Hend] Hin.
  unfold categories in Hin. rewrite !elem_of_cons in Hin.
  destruct Hin as [-> | [-> | [-> | Hin]]]; try done. by apply elem_of_nil in Hin.
Qed.

Lemma is_css_of_lookup t t' item :
  FS.lookup t' (Path.join styles_root item) = FS.lookup t (Path.join styles_root item) →
  is_css t' item = is_css t item.
Proof. intros H. unfold is_css. by destruct (tests_of_lookup _ _ _ H) as (_ & _ & ->). Qed.

Lemma elem_of_css_moves t items e :
  e ∈ css_moves t items ↔ ∃ x, x ∈ items ∧ is_css t x = true ∧ e = css_move x.
Proof.
  unfold css_moves, css_files. rewrite list_elem_of_In, in_flat_map. split.
  - intros (entry & He & Hin). apply list_elem_of_In, list_elem_of_fmap in He as (c & -> & _).
    simpl in Hin. apply list_elem_of_In, list_elem_of_fmap in Hin as (x & -> & Hx).
    apply list_elem_of_In, filter_eqb_category in Hx as [Hx _].
    apply filter_In in Hx as [Hx Hcss]. exists x. by rewrite list_elem_of_In.
  - intros (x & Hx & Hcss & ->).
    exists (category_of x, List.filter (fun item => String.eqb (category_of item) (category_of x))
                             (List.filter (is_css t) items)).
    split.
    + apply list_elem_of_In, list_elem_of_fmap. exists (category_of x). split; [done|].
      apply category_of_in.
    + simpl. apply list_elem_of_In, list_elem_of_fmap. exists x. split; [done|].
      apply list_elem_of_In, filter_eqb_category. split; [|done].
      apply filter_In. by rewrite <- list_elem_of_In.
Qed.

Lemma apart_cons_ne (c d : string) (p q : path) : c ≠ d → Path.apart (c :: p) (d :: q) = true.
Proof.
  intros Hne. unfold Path.apart. simpl.
  destruct (String.eqb_spec c d); [done|]. by destruct (String.eqb_spec d c).
Qed.

Lemma apart_cons_eq (c : string) (p q : path) :
  Path.apart (c :: p) (c :: q) = Path.apart p q.
Proof. unfold Path.apart. simpl. by rewrite String.eqb_refl. Qed.

Lemma far_css_moves x y :
  x ≠ y → x ∉ categories → y ∉ categories → far (css_move x) (css_move y) = true.
Proof.
  intros Hxy Hx Hy. apply far_spec. unfold css_move, styles_root, Path.join. simpl.
  pose proof (category_of_in x). pose proof (category_of_in y).
  rewrite !apart_cons_eq. repeat split.
  - by apply apart_cons_ne.
  - apply apart_cons_ne. by intros ->.
  - apply apart_cons_ne. by intros <-.
  - destruct (decide (category_of x = category_of y)) as [-> | Hne].
    + rewrite apart_cons_eq. by apply apart_cons_ne.
    + by apply apart_cons_ne.
Qed.

Lemma css_move_apart x : x ∉ categories → Path.apart (css_move x).1 (css_move x).2 = true.
Proof.
  intros Hx. unfold css_move, styles_root, Path.join. simpl. rewrite !apart_cons_eq.
  apply apart_cons_ne. intros Heq. apply Hx. rewrite Heq. apply category_of_in.
Qed.

Lemma independent_pairwise (l : list (path * path)) :
  NoDup l → (∀ e e', e ∈ l → e' ∈ l → e ≠ e' → far e e' = true) → independent l = true.
Proof.
  induction 1 as [|e r Hnotin Hnd IH]; intros Hfar; [done|].
  apply independent_cons. split.
  - intros e' He'. apply Hfar; [left | by right | by intros ->].
  - apply IH. intros e1 e2 H1 H2. apply Hfar; by right.
Qed.

Lemma NoDup_filter_bool {A} (P : A → bool) (l : list A) : NoDup l → NoDup (List.filter P l).
Proof.
  induction 1 as [|x r Hnotin Hnd IH]; simpl; [constructor|].
  destruct (P x); [|done]. constructor; [|done].
  rewrite list_elem_of_In, filter_In, <- list_elem_of_In. tauto.
Qed.

Lemma css_move_inj x y : css_move x = css_move y → x = y.
Proof. unfold css_move, styles_root, Path.join. simpl. congruence. Qed.

Lemma css_moves_NoDup t items : NoDup items → NoDup (css_moves t items).
Proof.
  intros Hnd. unfold css_moves, css_files. simpl. rewrite app_nil_r.
  set (css := List.filter (is_css t) items).
  assert (NoDup css) as Hcss by (by apply NoDup_filter_bool).
  assert (∀ c, NoDup (css_move <$> List.filter (fun item => String.eqb (category_of item) c) css))
    as Hpart.
  { intros c. apply NoDup_fmap_2; [intros x y; apply css_move_inj|].
    by apply NoDup_filter_bool. }
  assert (∀ c c' e, c ≠ c' →
            e ∈ css_move <$> List.filter (fun item => String.eqb (category_of item) c) css →
            e ∉ css_move <$> List.filter (fun item => String.eqb (category_of item) c') css)
    as Hdisj.
  { intros c c' e Hne H1 H2.
    apply list_elem_of_fmap in H1 as (x & -> & Hx), H2 as (y & Heq & Hy).
    apply css_move_inj in Heq as <-.
    apply list_elem_of_In, filter_eqb_category in Hx, Hy. destruct Hx, Hy. congruence. }
  apply NoDup_app. split; [apply Hpart|]. split.
  - intros e He. rewrite elem_of_app.
    intros [H | H];
      [apply (Hdisj "effects" "ui" e)%string | apply (Hdisj "effects" "components" e)%string];
      done.
  - apply NoDup_app. split; [apply Hpart|]. split; [|apply Hpart].
    intros e He H. by apply (Hdisj "ui" "components" e)%string.
Qed.

Lemma css_moves_separated t items : NoDup items → well_separated (css_moves t items).
Proof.
  intros Hnd. split.
  - apply independent_pairwise; [by apply css_moves_NoDup|].
    intros e e' He He' Hne.
    apply elem_of_css_moves in He as (x & _ & Hx & ->), He' as (y & _ & Hy & ->).
    apply far_css_moves; [by intros -> | by eapply css_name_not_category..].
  - intros e He. apply elem_of_css_moves in He as (x & _ & Hx & ->).
    apply css_move_apart. by eapply css_name_not_category.
Qed.

Lemma listdir_ok p t items :
  FS.listdir p t = Ok items →
  NoDup items ∧ ∀ x, x ∈ items ↔ ∃ v, FS.lookup t (p ++ [x]) = Some v.
Proof.
  unfold FS.listdir. destruct p as [|c p0] eqn:Hp; [done|]. rewrite <- Hp. clear Hp.
  destruct (FS.lookup t p) as [[|es]|] eqn:Hl; try done. intros [= <-]. split.
  - apply NoDup_fst_map_to_list.
  - intros x. rewrite lookup_app, Hl. simpl. rewrite list_elem_of_fmap. split.
    + intros ([k v] & -> & Hkv). apply elem_of_map_to_list in Hkv. simpl. rewrite Hkv. eauto.
    + intros [v Hv]. destruct (es !! x) as [v'|] eqn:Hx; [|done].
      exists (x, v'). split; [done|]. by apply elem_of_map_to_list.
Qed.

Lemma listdir_of_isdir p t : FS.isdir t p = true → ∃ items, FS.listdir p t = Ok items.
Proof.
  intros H. apply isdir_true in H as (Hp & es & Hes). unfold FS.listdir.
  destruct p; [done|]. rewrite Hes. eauto.
Qed.

Lemma listdir_not_dir p t : FS.isdir t p = false → ∃ e, FS.listdir p t = Raise e.
Proof.
  unfold FS.isdir, FS.listdir. destruct p; [eauto|].
  destruct (FS.lookup t _) as [[]|]; eauto; done.
Qed.

(** The stylesheets loose in [src/styles]. *)
Definition loose_stylesheets (t : node) : list string :=
  match FS.listdir styles_root t with
  | Ok items => List.filter (is_css t) items
  | Raise _ => []
  end.

Lemma elem_of_loose_stylesheets t x : x ∈ loose_stylesheets t ↔ is_css t x = true.
Proof.
  unfold loose_stylesheets. destruct (FS.listdir styles_root t) as [items|e] eqn:Hl.
  - apply listdir_ok in Hl as [_ Hl]. rewrite list_elem_of_In, filter_In, <- list_elem_of_In, Hl.
    split; [tauto|]. intros Hx. split; [|done].
    unfold is_css in Hx. apply andb_prop in Hx as [Hx _].
    apply isfile_true in Hx as (_ & data & Hx). eauto.
  - split; [by intros ?%elem_of_nil|]. intros Hx. exfalso.
    unfold is_css in Hx. apply andb_prop in Hx as [Hx _].
    apply isfile_true in Hx as (_ & data & Hx).
    apply lookup_parent_dir in Hx as (es & Hes & _).
    destruct (listdir_of_isdir styles_root t) as [items Hitems]; [|congruence].
    apply isdir_true. split; [done | eauto].
Qed.

Lemma loop_post_equiv l l' s s' :
  (∀ e, e ∈ l' ↔ e ∈ l) → loop_post l s s' → loop_post l' s s'.
Proof.
  intros Hsame [P1 P2 P3 P4]. split; [done | | |].
  - intros q Hq. apply P2. intros e He. by apply Hq, Hsame.
  - intros q Hq. apply P3. intros e He. by apply Hq, Hsame.
  - intros e He. by apply P4, Hsame.
Qed.

Lemma loop_post_nil s s' :
  fs s' = fs s → errors (progress s') = errors (progress s) → loop_post [] s s'.
Proof.
  intros Hfs Herr. split; rewrite ?Hfs, ?Herr; try done.
  - intros. apply kind_le_refl.
  - by intros e ?%elem_of_nil.
Qed.

#[local] Opaque css_files.

Section Styles.

Variable env : environment.
Hypothesis real : dry_run env = false.

Lemma reorganize_styles_post s :
  ∃ r s', reorganize_styles env s = (r, s')
    ∧ printed_reports s' = printed_reports s
    ∧ ((r = Ok tt
        ∧ total_operations (progress s')
          = total_operations (progress s) + length (loose_stylesheets (fs s))
        ∧ (FS.isdir (fs s) styles_root = true → listdir_fault env = None)
        ∧ loop_post (css_move <$> loose_stylesheets (fs s)) s s')
       ∨ (∃ e, r = Raise e ∧ listdir_fault env = Some e
               ∧ FS.isdir (fs s) styles_root = true
               ∧ fs s' = fs s ∧ progress s' = progress s)).
Proof.
  unfold reorganize_styles, os_listdir. run.
  destruct (FS.isdir (fs s) styles_root) eqn:Hdir; simpl.
  2:{ eexists _, _. split; [done|]. split; [done|]. left. split; [done|].
      unfold loose_stylesheets. destruct (listdir_not_dir _ _ Hdir) as [e ->]. simpl.
      split; [lia|]. split; [done|]. by apply loop_post_nil. }
  destruct (listdir_fault env) as [e|] eqn:Hfault; simpl.
  { eexists _, _. split; [done|]. split; [done|]. right. exists e. done. }
  destruct (listdir_of_isdir _ _ Hdir) as [items Hitems].
  unfold loose_stylesheets. rewrite Hitems. simpl.
  set (s1 := {| fs := fs s; log := _; stdout := _; progress := _ |}).
  rewrite css_loops_flatten.
  destruct (listdir_ok _ _ _ Hitems) as [Hnd Hmem].
  destruct (move_loop env real (css_moves (fs s) items) s1) as (s' & Hrun & [Htot Hpr] & P);
    [by apply css_moves_separated|].
  rewrite Hrun. eexists _, _. split; [done|]. split; [exact Hpr|]. left. split; [done|].
  split; [by rewrite Htot|]. split; [done|].
  apply (loop_post_rebase _ s) in P; [|done..].
  eapply loop_post_equiv; [|exact P]. intros e.
  rewrite elem_of_css_moves, list_elem_of_fmap.
  split; intros (x & Hx1 & Hx2); exists x.
  - apply list_elem_of_In, filter_In in Hx2 as [Hx2 Hcss]. by rewrite list_elem_of_In.
  - destruct Hx2 as [Hcss ->]. split; [done|]. apply list_elem_of_In, filter_In.
    by rewrite <- list_elem_of_In.
Qed.

End Styles.

(** ** Steps that only log *)

Definition quiet_step (s s' : state) : Prop :=
  fs s' = fs s ∧ progress s' = progress s ∧ stdout s' = stdout s
  ∧ ∃ lg, log s' = log s ++ lg.

Lemma quiet_step_refl s : quiet_step s s.
Proof. repeat split. exists []. by rewrite app_nil_r. Qed.

Lemma quiet_step_trans s1 s2 s3 : quiet_step s1 s2 → quiet_step s2 s3 → quiet_step s1 s3.
Proof.
  intros (? & ? & ? & lg1 & Hlg1) (? & ? & ? & lg2 & Hlg2). repeat split; try congruence.
  exists (lg1 ++ lg2). by rewrite Hlg2, Hlg1, app_assoc.
Qed.

(** [m] only logs, whatever it returns or raises. *)
Definition quiet {A} (m : M A) : Prop := ∀ s, quiet_step s (m s).2.

(** [m] only logs and returns. *)
Definition readonly {A} (m : M A) : Prop :=
  ∀ s, quiet_step s (m s).2 ∧ ∃ a, (m s).1 = Ok a.

Lemma readonly_quiet {A} (m : M A) : readonly m → quiet m.
Proof. intros H s. apply H. Qed.

Lemma quiet_ret {A} (a : A) : quiet (mret a : M A).
Proof. intros s. apply quiet_step_refl. Qed.

Lemma quiet_raise {A} e : quiet (raise e : M A).
Proof. intros s. apply quiet_step_refl. Qed.

Lemma quiet_liftR {A} (r : result A) : quiet (liftR r).
Proof. intros s. apply quiet_step_refl. Qed.

Lemma quiet_get_fs : quiet get_fs.
Proof. intros s. apply quiet_step_refl. Qed.

Lemma quiet_logging l m : quiet (logging l m).
Proof. intros s. repeat split. by eexists. Qed.

Lemma quiet_bind {A B} (m : M A) (f : A → M B) :
  quiet m → (∀ a, quiet (f a)) → quiet (m ≫= f).
Proof.
  intros Hm Hf s. rewrite run_bind. specialize (Hm s).
  destruct (m s) as [[a|e] s1]; simpl in *; [|done].
  eapply quiet_step_trans; [exact Hm | apply Hf].
Qed.

Lemma quiet_try {A} (body : M A) handler :
  quiet body → (∀ e, quiet (handler e)) → quiet (try_except body handler).
Proof.
  intros Hb Hh s. rewrite run_try. specialize (Hb s).
  destruct (body s) as [[a|e] s1]; simpl in *; [done|].
  eapply quiet_step_trans; [exact Hb | apply Hh].
Qed.

Lemma quiet_for_each {A} (l : list A) body : (∀ x, quiet (body x)) → quiet (for_each l body).
Proof.
  intros Hb. induction l as [|x r IH]; intros s; [apply quiet_step_refl|].
  rewrite run_for_each_cons. specialize (Hb x s).
  destruct (body x s) as [[[]|e] s1]; simpl in *; [|done].
  eapply quiet_step_trans; [exact Hb | apply IH].
Qed.

Lemma readonly_ret {A} (a : A) : readonly (mret a : M A).
Proof. intros s. split; [apply quiet_step_refl | by exists a]. Qed.

Lemma readonly_get_fs : readonly get_fs.
Proof. intros s. split; [apply quiet_step_refl | by eexists]. Qed.

Lemma readonly_logging l m : readonly (logging l m).
Proof. intros s. split; [apply quiet_logging | by eexists]. Qed.

Lemma readonly_bind {A B} (m : M A) (f : A → M B) :
  readonly m → (∀ a, readonly (f a)) → readonly (m ≫= f).
Proof.
  intros Hm Hf s. rewrite run_bind. destruct (Hm s) as [Hq [a Ha]].
  destruct (m s) as [r s1]; simpl in *. subst r.
  destruct (Hf a s1) as [Hq' Hok]. split; [|done].
  eapply quiet_step_trans; [exact Hq | exact Hq'].
Qed.

Lemma readonly_try {A} (body : M A) handler :
  quiet body → (∀ e, readonly (handler e)) → readonly (try_except body handler).
Proof.
  intros Hb Hh s. rewrite run_try. specialize (Hb s).
  destruct (body s) as [[a|e] s1]; simpl in *; [split; [done | by exists a]|].
  destruct (Hh e s1) as [Hq Hok]. split; [|done].
  eapply quiet_step_trans; [exact Hb | exact Hq].
Qed.

Lemma readonly_for_each {A} (l : list A) body :
  (∀ x, readonly (body x)) → readonly (for_each l body).
Proof.
  intros Hb. induction l as [|x r IH]; intros s; [apply readonly_ret|].
  rewrite run_for_each_cons. destruct (Hb x s) as [Hq [[] Ha]].
  destruct (body x s) as [r0 s1]; simpl in *. subst r0.
  destruct (IH s1) as [Hq' Hok]. split; [|done].
  eapply quiet_step_trans; [exact Hq | exact Hq'].
Qed.

(** Proves that a computation built from the logger, the tests of the
    file system and the control structures is quiet or read-only. *)
Ltac quietly :=
  repeat first
    [ apply readonly_ret | apply readonly_get_fs | apply readonly_logging
    | apply quiet_ret | apply quiet_get_fs | apply quiet_logging | apply quiet_raise
    | apply quiet_liftR
    | apply readonly_bind; [|intros ?] | apply quiet_bind; [|intros ?]
    | apply readonly_for_each; intros ? | apply quiet_for_each; intros ?
    | apply readonly_try; [|intros ?] | apply quiet_try; [|intros ?]
    | match goal with
      | |- readonly (if ?b then _ else _) => destruct b
      | |- quiet (if ?b then _ else _) => destruct b
      | |- readonly (match ?x with _ => _ end) => destruct x
      | |- quiet (match ?x with _ => _ end) => destruct x
      | |- readonly (let '(_, _) := ?x in _) => destruct x
      end ].

Lemma readonly_validate_environment : readonly validate_environment.
Proof. unfold validate_environment, logging_error. quietly. Qed.

Lemma readonly_validate_loop l v : readonly (validate_loop l v).
Proof.
  revert v. induction l as [|sd r IH]; intros v; simpl; [apply readonly_ret|].
  apply readonly_bind; [|done]. unfold validate_entry, logging_error. destruct sd. quietly.
Qed.

Lemma readonly_validate_file_moves : readonly validate_file_moves.
Proof.
  unfold validate_file_moves, logging_info, logging_warning.
  apply readonly_bind; [apply readonly_validate_loop|]. intros v. quietly.
Qed.

Lemma readonly_check_disk_space env backup : readonly (check_disk_space env backup).
Proof. unfold check_disk_space, logging_error. quietly. Qed.

Lemma readonly_check_extra_files : readonly check_extra_files.
Proof. unfold check_extra_files, logging_info, logging_warning. quietly. Qed.

(** ** The course of [main] *)

Definition fresh (s : state) : state :=
  {| fs := fs s; log := log s; stdout := stdout s; progress := ProgressTracker_init |}.

(** Either [main] gives up before the backup, having only logged, or it
    reaches the [try] block after the attempt to make the backup. *)
Lemma main_cases env s0 :
  (∃ s', main env s0 = (Ok tt, s') ∧ quiet_step (fresh s0) s')
  ∨ (∃ s1 bd s2,
       quiet_step (fresh s0) s1
       ∧ create_backup env s1 = (Ok bd, s2)
       ∧ (dry_run env = false → ∃ b, bd = Some b)
       ∧ main env s0 = try_except (migrate env bd) (on_failure env bd) s2).
Proof.
  remember (main env s0) as R eqn:HR. unfold main in HR. rewrite run_bind in HR.
  change (set_progress ProgressTracker_init s0) with (Ok tt, fresh s0) in HR.
  cbv beta iota in HR. rewrite run_bind in HR.
  destruct (readonly_validate_environment (fresh s0)) as [Hq1 [ok Hok]].
  destruct (validate_environment (fresh s0)) as [r1 s1]. simpl in Hq1, Hok. subst r1.
  destruct ok; simpl in HR.
  2:{ left. eexists. split; [exact HR|]. eapply quiet_step_trans; [exact Hq1|].
      apply (quiet_logging ERROR _ s1). }
  rewrite run_bind in HR.
  destruct (readonly_validate_file_moves s1) as [Hq2 [v Hv]].
  destruct (validate_file_moves s1) as [r2 s2]. simpl in Hq2, Hv. subst r2.
  rewrite run_bind in HR.
  destruct (readonly_check_disk_space env (negb (dry_run env)) s2) as [Hq3 [enough He]].
  destruct (check_disk_space env (negb (dry_run env)) s2) as [r3 s3]. simpl in Hq3, He. subst r3.
  assert (quiet_step (fresh s0) s3) as Hq
    by (eapply quiet_step_trans; [|exact Hq3]; eapply quiet_step_trans; eauto).
  destruct enough; simpl in HR.
  2:{ left. eexists. split; [exact HR|]. eapply quiet_step_trans; [exact Hq|].
      apply (quiet_logging ERROR _ s3). }
  rewrite run_bind in HR.
  destruct (dry_run env) eqn:Hdry.
  - right. exists s3, None, s3. split; [done|].
    assert (create_backup env s3 = (Ok None, s3)) as Hb
      by (unfold create_backup; by rewrite Hdry).
    rewrite Hb in HR. simpl in HR. done.
  - destruct (create_backup_post env Hdry s3) as (bd & s4 & Hb & Hp & Ho & Hlg & Hcase).
    rewrite Hb in HR. destruct bd as [b|]; simpl in HR.
    + right. exists s3, (Some b), s4. split; [exact Hq|]. split; [exact Hb|].
      split; [eauto | exact HR].
    + left. destruct Hcase as [[_ Hfs] | (? & ? & ? & _)]; [|done].
      eexists. split; [exact HR|]. eapply quiet_step_trans; [exact Hq|].
      eapply quiet_step_trans; [|apply (quiet_logging ERROR _ s4)]. by repeat split.
Qed.

(** The end of the [try] block of [main], after the three phases: the
    closing message, the removal of the backup, the report. *)
Definition finish (env : environment) (backup_dir : option path) : M unit :=
  check_extra_files ;;
  (if dry_run env then
     logging_info "Dry run completed. No changes were made."
   else
     logging_info "Restructuring completed successfully!" ;;
     match backup_dir with
     | Some dir =>
         t ← get_fs;
         if FS.exists_ t dir then
           syscall (FS.rmtree dir) ;;
           logging_info ("Removed backup directory: " ++ Path.to_string dir)%string
         else mret tt
     | None => mret tt
     end) ;;
  report ← generate_report;
  write_stdout (Printed report).

Lemma migrate_unfold env backup_dir :
  migrate env backup_dir
  = (create_new_directories env ;; process_file_moves env ;; reorganize_styles env ;;
     finish env backup_dir).
Proof. reflexivity. Qed.

(** Steps that change neither the file system nor the planned total. *)
Definition steady_step (s s' : state) : Prop :=
  fs s' = fs s ∧ same_plan s s'.

Lemma printed_of_stdout s s' : stdout s' = stdout s → printed_reports s' = printed_reports s.
Proof. unfold printed_reports. by intros ->. Qed.

Lemma quiet_same_plan s s' : quiet_step s s' → same_plan s s'.
Proof. intros (? & ? & ? & _). split; [congruence | by apply printed_of_stdout]. Qed.

Lemma quiet_steady s s' : quiet_step s s' → steady_step s s'.
Proof. intros H. split; [apply H | by apply quiet_same_plan]. Qed.

Lemma generate_report_cases s :
  (total_operations (progress s) = 0 ∧ generate_report s = (Raise ZeroDivisionError, s))
  ∨ (0 < total_operations (progress s) ∧ ∃ report, generate_report s = (Ok report, s)).
Proof.
  unfold generate_report. rewrite run_bind. simpl.
  destruct (total_operations (progress s)) as [|n] eqn:Hn; simpl.
  - by left.
  - right. split; [lia|]. by eexists.
Qed.

(** Printing the report changes nothing but the standard output. *)
Lemma report_and_print_cases s :
  (total_operations (progress s) = 0
   ∧ (report ← generate_report; write_stdout (Printed report)) s = (Raise ZeroDivisionError, s))
  ∨ (0 < total_operations (progress s)
     ∧ ∃ report s', (report ← generate_report; write_stdout (Printed report)) s = (Ok tt, s')
                    ∧ fs s' = fs s ∧ progress s' = progress s ∧ log s' = log s
                    ∧ stdout s' = stdout s ++ [Printed report]).
Proof.
  rewrite run_bind. destruct (generate_report_cases s) as [[H0 ->] | [Hpos [report ->]]].
  - by left.
  - right. split; [done|]. by exists report, (write_stdout (Printed report) s).2.
Qed.

Section DryRun.

Variable env : environment.
Hypothesis dry : dry_run env = true.

Lemma move_file_dry src dst s :
  ∃ s', move_file env src dst s = (Ok tt, s') ∧ steady_step s s'
        ∧ errors (progress s') = errors (progress s).
Proof.
  unfold move_file. rewrite dry. run.
  destruct (FS.exists_ (fs s) src); simpl;
    [|eexists; split; [done|]; split; [split; [done | plan] | done]].
  destruct (FS.isdir (fs s) (Path.dirname dst)); simpl;
    destruct (0 <? total_operations (progress s)); simpl;
    (eexists; split; [done|]; split; [split; [done | plan] | done]).
Qed.

Lemma move_loop_dry (l : list (path * path)) s :
  ∃ s', for_each l (fun sd => move_file env sd.1 sd.2) s = (Ok tt, s') ∧ steady_step s s'
        ∧ errors (progress s') = errors (progress s).
Proof.
  revert s. induction l as [|e r IH]; intros s; [by exists s|].
  destruct (move_file_dry e.1 e.2 s) as (s1 & Hrun1 & [Hfs1 Ht1] & He1).
  destruct (IH s1) as (s' & Hrun & [Hfs Ht] & He).
  exists s'. rewrite run_for_each_cons, Hrun1. split; [done|].
  split; [split; [congruence | by eapply same_plan_trans] | congruence].
Qed.

Lemma create_new_directories_dry : readonly (create_new_directories env).
Proof.
  unfold create_new_directories, logging_info, logging_error. rewrite dry.
  apply readonly_bind; [apply readonly_logging|]. intros _.
  apply readonly_for_each. intros d. quietly.
Qed.

Lemma process_file_moves_dry s :
  ∃ s', process_file_moves env s = (Ok tt, s') ∧ fs s' = fs s
        ∧ total_operations (progress s') = length (moves_needed (fs s))
        ∧ printed_reports s' = printed_reports s
        ∧ errors (progress s') = errors (progress s).
Proof.
  unfold process_file_moves. run.
  set (s1 := {| fs := fs s; log := _; stdout := _; progress := _ |}).
  destruct (move_loop_dry (moves_needed (fs s)) s1) as (s2 & Hrun & [Hfs [Ht Hpr]] & He).
  rewrite Hrun. destruct (0 <? _); simpl; by eexists.
Qed.

Lemma reorganize_styles_dry s :
  ∃ r s', reorganize_styles env s = (r, s') ∧ fs s' = fs s
    ∧ errors (progress s') = errors (progress s)
    ∧ printed_reports s' = printed_reports s
    ∧ ((r = Ok tt
        ∧ total_operations (progress s')
          = total_operations (progress s) + length (loose_stylesheets (fs s))
        ∧ (FS.isdir (fs s) styles_root = true → listdir_fault env = None))
       ∨ (∃ e, r = Raise e ∧ listdir_fault env = Some e
               ∧ FS.isdir (fs s) styles_root = true ∧ progress s' = progress s)).
Proof.
  unfold reorganize_styles, os_listdir. run.
  destruct (FS.isdir (fs s) styles_root) eqn:Hdir; simpl.
  2:{ eexists _, _. split; [done|]. simpl. split; [done|]. split; [done|]. split; [done|].
      left. split; [done|]. unfold loose_stylesheets.
      destruct (listdir_not_dir _ _ Hdir) as [e ->]. split; [simpl; lia | done]. }
  destruct (listdir_fault env) as [e|] eqn:Hfault; simpl.
  { eexists _, _. split; [done|]. split; [done|]. split; [done|]. split; [done|].
    right. by exists e. }
  destruct (listdir_of_isdir _ _ Hdir) as [items Hitems].
  unfold loose_stylesheets. rewrite Hitems. simpl.
  set (s1 := {| fs := fs s; log := _; stdout := _; progress := _ |}).
  rewrite css_loops_flatten.
  destruct (move_loop_dry (css_moves (fs s) items) s1) as (s' & Hrun & [Hfs [Ht Hpr]] & He).
  rewrite Hrun. eexists _, _. split; [done|]. split; [done|]. split; [done|].
  split; [done|]. left. done.
Qed.

End DryRun.

(** *** The handler of [main] *)

Definition with_error (msg : string) (s : state) : state :=
  {| fs := fs s;
     log := log s ++ [(ERROR, Text msg)];
     stdout := stdout s;
     progress := {| total_operations := total_operations (progress s);
                    completed_operations := completed_operations (progress s);
                    errors := errors (progress s) ++ [msg];
                    warnings := warnings (progress s) |} |}.

Lemma run_add_error msg s : add_error msg s = (Ok tt, with_error msg s).
Proof. reflexivity. Qed.

Definition failure_message (e : exn) : string :=
  ("An error occurred during restructuring: " ++ str_exn e)%string.

Definition report_and_print : M unit :=
  report ← generate_report; write_stdout (Printed report).

Lemma on_failure_without_backup env e s :
  on_failure env None e s = report_and_print (with_error (failure_message e) s).
Proof. reflexivity. Qed.

Lemma printed_reports_snoc s s' report :
  stdout s' = stdout s ++ [Printed report] →
  printed_reports s' = printed_reports s ++ [report].
Proof. unfold printed_reports. intros ->. by rewrite omap_app. Qed.

(** The outcome of printing the report, seen from outside: without a
    planned operation nothing is printed and [ZeroDivisionError] is raised,
    otherwise one report is printed. *)
Lemma report_and_print_post s :
  ∃ r s', report_and_print s = (r, s')
    ∧ fs s' = fs s ∧ progress s' = progress s
    ∧ ((total_operations (progress s) = 0 ∧ r = Raise ZeroDivisionError
        ∧ printed_reports s' = printed_reports s)
       ∨ (0 < total_operations (progress s) ∧ r = Ok tt
          ∧ ∃ report, printed_reports s' = printed_reports s ++ [report])).
Proof.
  destruct (report_and_print_cases s) as [[H0 Hrun] | [Hpos (report & s' & Hrun & ? & ? & ? & Hout)]].
  - exists (Raise ZeroDivisionError), s. split; [exact Hrun|]. repeat split. by left.
  - exists (Ok tt), s'. split; [exact Hrun|]. repeat split; try done. right.
    repeat split; try done. exists report. by apply printed_reports_snoc.
Qed.

Section DryScript.

Variable env : environment.
Hypothesis dry : dry_run env = true.

(** What a dry run plans, read off the starting tree. *)
Definition dry_plan (t : node) (total : nat) : Prop :=
  (total = length (moves_needed t) + length (loose_stylesheets t)
   ∧ (FS.isdir t styles_root = true → listdir_fault env = None))
  ∨ (∃ e, listdir_fault env = Some e ∧ FS.isdir t styles_root = true
          ∧ total = length (moves_needed t)).

Lemma migrate_dry s :
  let r := try_except (migrate env None) (on_failure env None) s in
  fs r.2 = fs s
  ∧ (printed_reports r.2 ≠ printed_reports s →
     dry_plan (fs s) (total_operations (progress r.2))).
Proof.
  simpl. rewrite run_try, migrate_unfold, run_bind.
  destruct (create_new_directories_dry env dry s) as [Hq3 [[] Hok3]].
  destruct (create_new_directories env s) as [r3 s3]. simpl in Hq3, Hok3. subst r3.
  destruct Hq3 as (Hfs3 & Hp3 & Ho3 & _). apply printed_of_stdout in Ho3.
  rewrite run_bind.
  destruct (process_file_moves_dry env dry s3) as (s4 & Hrun4 & Hfs4 & Ht4 & Hpr4 & _).
  rewrite Hrun4, run_bind.
  destruct (reorganize_styles_dry env dry s4) as (r5 & s5 & Hrun5 & Hfs5 & _ & Hpr5 & Hcase).
  rewrite Hrun5. rewrite Hfs3 in Ht4. rewrite Hfs4, Hfs3 in Hcase.
  destruct Hcase as [(-> & Ht5 & Hnofault) | (e & -> & Hfault & Hdir & Hp5)].
  - unfold finish. rewrite dry, run_bind.
    destruct (readonly_check_extra_files s5) as [Hq6 [[] Hok6]].
    destruct (check_extra_files s5) as [r6 s6]. simpl in Hq6, Hok6. subst r6.
    destruct Hq6 as (Hfs6 & Hp6 & Ho6 & _). apply printed_of_stdout in Ho6.
    rewrite run_bind. simpl.
    set (s7 := {| fs := fs s6; log := _; stdout := stdout s6; progress := progress s6 |}).
    fold report_and_print.
    destruct (report_and_print_post s7) as (r8 & s8 & Hrun8 & Hfs8 & Hp8 & Hcase8).
    rewrite Hrun8.
    assert (total_operations (progress s7)
            = length (moves_needed (fs s)) + length (loose_stylesheets (fs s))) as Htot
      by (simpl; rewrite Hp6, Ht5; congruence).
    destruct Hcase8 as [(H0 & -> & Hpr8) | (Hpos & -> & report & Hpr8)].
    + rewrite on_failure_without_backup.
      destruct (report_and_print_post (with_error (failure_message ZeroDivisionError) s8))
        as (r9 & s9 & Hrun9 & Hfs9 & Hp9 & Hcase9).
      rewrite Hrun9. simpl. split; [simpl in *; congruence|].
      destruct Hcase9 as [(_ & _ & Hpr9) | (Hpos & _)].
      * intros Hne. exfalso. apply Hne. rewrite Hpr9. simpl.
        change (printed_reports (with_error _ s8)) with (printed_reports s8).
        rewrite Hpr8. change (printed_reports s7) with (printed_reports s6). congruence.
      * simpl in Hpos. rewrite Hp8 in Hpos. lia.
    + simpl. split; [simpl in *; congruence|]. intros _. left. split; [|done].
      rewrite Hp8. exact Htot.
  - rewrite on_failure_without_backup.
    destruct (report_and_print_post (with_error (failure_message e) s5))
      as (r9 & s9 & Hrun9 & Hfs9 & Hp9 & Hcase9).
    rewrite Hrun9. simpl. split; [simpl in *; congruence|].
    intros _. right. exists e. split; [done|]. split; [done|].
    rewrite Hp9. simpl. rewrite Hp5. exact Ht4.
Qed.

Lemma script_dry t :
  let r := script env t in
  fs r.2 = t
  ∧ (printed_reports r.2 ≠ [] → dry_plan t (total_operations (progress r.2))).
Proof.
  simpl. unfold script. destruct (FS.isdir t ["src"%string]); simpl; [|done].
  destruct (main_cases env (boot t)) as [(s' & Hrun & Hq) | (s1 & bd & s2 & Hq & Hb & _ & Hrun)].
  - rewrite Hrun. simpl. destruct Hq as (Hfs & _ & Ho & _). split; [done|].
    apply printed_of_stdout in Ho. by rewrite Ho.
  - unfold create_backup in Hb. rewrite dry in Hb. simpl in Hb. injection Hb as <- <-.
    destruct Hq as (Hfs & _ & Ho & _). apply printed_of_stdout in Ho.
    destruct (migrate_dry s1) as [Hfs' Hplan]. rewrite <- Hrun in Hfs', Hplan.
    rewrite Hfs in Hfs', Hplan. simpl in Hfs', Hplan.
    destruct (main env (boot t)) as [[[]|e] s']; simpl in *;
      (split; [done|]; intros Hne; apply Hplan; by rewrite Ho).
Qed.

End DryScript.

(** ** A real run *)

(** The working directory keeps its entries other than [src], and [src]
    stays a directory. *)
Definition root_kept (t t' : node) : Prop :=
  (∀ c : string, c ≠ "src"%string → FS.lookup t' [c] = FS.lookup t [c])
  ∧ kind_le (FS.lookup t []) (FS.lookup t' [])
  ∧ kind_le (FS.lookup t ["src"%string]) (FS.lookup t' ["src"%string]).

Lemma root_kept_refl t : root_kept t t.
Proof. split; [done|]. split; apply kind_le_refl. Qed.

Lemma root_kept_trans t1 t2 t3 : root_kept t1 t2 → root_kept t2 t3 → root_kept t1 t3.
Proof.
  intros (F1 & K1 & S1) (F2 & K2 & S2). split; [|split].
  - intros c Hc. by rewrite F2, F1.
  - by eapply kind_le_trans.
  - by eapply kind_le_trans.
Qed.

Lemma root_kept_dir t t' root :
  root_kept t t' → t = Dir root →
  ∃ root', t' = Dir root'
    ∧ (∀ c : string, c ≠ "src"%string → root' !! c = root !! c)
    ∧ (∀ es, root !! "src"%string = Some (Dir es) → ∃ es', root' !! "src"%string = Some (Dir es')).
Proof.
  intros (F & K & S) ->. simpl in K. destruct K as [root' [= ->]]. exists root'.
  split; [done|]. split.
  - intros c Hc. specialize (F c Hc). simpl in F.
    by destruct (root' !! c), (root !! c).
  - intros es Hes. simpl in S. rewrite Hes in S. destruct S as [es' Hes'].
    destruct (root' !! "src"%string); [|done]. injection Hes' as ->. eauto.
Qed.

(** A path with at least two components, the first of which is [src]. *)
Definition deep_in_src (p : path) : Prop := ∃ c r, p = "src"%string :: c :: r.

Lemma deep_in_src_apart_root p (c : string) :
  deep_in_src p → c ≠ "src"%string → Path.apart [c] p = true.
Proof. intros (c' & r & ->) Hc. by apply apart_cons_ne. Qed.

Lemma deep_in_src_not_above p q :
  deep_in_src p → q = [] ∨ q = ["src"%string] → Path.is_prefix p q = false.
Proof. intros (c' & r & ->) [-> | ->]; [done|]. simpl. by destruct c'. Qed.

Lemma table_path_deep p : p ∈ table_paths → deep_in_src p.
Proof.
  intros Hp. destruct (table_path_under_src p Hp) as (r & -> & Hap).
  destruct r as [|c r]; [done|]. by exists c, r.
Qed.

Lemma css_move_deep x : deep_in_src (css_move x).1 ∧ deep_in_src (css_move x).2.
Proof. split; by eexists _, _. Qed.

Lemma NEW_DIRS_under_src d : d ∈ NEW_DIRS → ∃ r, d = "src"%string :: r.
Proof.
  assert (forallb (fun d => match d with c :: _ => String.eqb c "src" | [] => false end) NEW_DIRS
          = true) as H by (vm_compute; reflexivity).
  intros Hd. rewrite forallb_forall in H. apply list_elem_of_In, H in Hd.
  destruct d as [|c r]; [done|]. apply String.eqb_eq in Hd as ->. eauto.
Qed.

Lemma loop_root_kept l s s' :
  loop_post l s s' → (∀ e, e ∈ l → deep_in_src e.1 ∧ deep_in_src e.2) →
  root_kept (fs s) (fs s').
Proof.
  intros P Hdeep. split; [|split].
  - intros c Hc. apply (lp_frame _ _ _ P). intros e He. destruct (Hdeep e He).
    split; by apply deep_in_src_apart_root.
  - apply (lp_kind _ _ _ P). intros e He. destruct (Hdeep e He).
    split; apply deep_in_src_not_above; auto.
  - apply (lp_kind _ _ _ P). intros e He. destruct (Hdeep e He).
    split; apply deep_in_src_not_above; auto.
Qed.

Lemma moves_needed_deep t e : e ∈ moves_needed t → deep_in_src e.1 ∧ deep_in_src e.2.
Proof.
  intros He. apply moves_needed_spec in He as [He _].
  destruct (table_paths_of_entry e He). split; by apply table_path_deep.
Qed.

Lemma css_moves_deep (l : list string) e :
  e ∈ css_move <$> l → deep_in_src e.1 ∧ deep_in_src e.2.
Proof. intros (x & -> & _)%list_elem_of_fmap. apply css_move_deep. Qed.

(** *** Removing and restoring the backup *)

Lemma exists_root_entry root (c : string) :
  FS.exists_ (Dir root) [c] = bool_decide (is_Some (root !! c)).
Proof.
  unfold FS.exists_. simpl. destruct (root !! c) eqn:E.
  - by rewrite bool_decide_eq_true_2.
  - rewrite bool_decide_eq_false_2; [done|]. by intros [? ?].
Qed.

Lemma put_root_entry (root : gmap string node) (c : string) v w :
  FS.put [c] v (Dir (<[c := w]> root)) = Dir (<[c := v]> root).
Proof. unfold FS.put. simpl. f_equal. exact (insert_insert_eq root c v w). Qed.

Section Cleanup.

Variable env : environment.
Hypothesis real : dry_run env = false.

Lemma restore_from_backup_post (bk : string) s root es es' :
  bk ≠ "src"%string →
  fs s = Dir root → root !! bk = Some (Dir es) → root !! "src"%string = Some (Dir es') →
  ∃ s', restore_from_backup env [bk] s = (Ok true, s')
    ∧ fs s' = Dir (<["src"%string := Dir es]> root)
    ∧ progress s' = progress s ∧ stdout s' = stdout s.
Proof.
  intros Hbk Hroot Hb Hsrc. unfold restore_from_backup. rewrite real. run.
  rewrite Hroot, exists_root_entry, Hb, bool_decide_eq_true_2 by eauto. simpl.
  rewrite ?Hroot.
  assert (FS.rmtree ["src"%string] (Dir root) = Ok (Dir (delete "src"%string root))) as ->.
  { unfold FS.rmtree. simpl. by rewrite Hsrc. }
  simpl.
  assert (FS.copytree [bk] ["src"%string] (Dir (delete "src"%string root))
          = Ok (Dir (<["src"%string := Dir es]> root))) as ->.
  { unfold FS.copytree. simpl. rewrite lookup_delete_ne, Hb by done.
    unfold FS.makedirs_new. rewrite exists_root_entry, lookup_delete_eq.
    rewrite bool_decide_eq_false_2 by (by intros [? ?]).
    unfold FS.makedirs. simpl. rewrite lookup_delete_eq. simpl.
    by rewrite put_root_entry, insert_delete_eq. }
  simpl. eexists. split; [done|]. done.
Qed.

(** The removal of the backup at the end of a successful migration. *)
Definition remove_backup (dir : path) : M unit :=
  t ← get_fs;
  if FS.exists_ t dir then
    syscall (FS.rmtree dir) ;;
    logging_info ("Removed backup directory: " ++ Path.to_string dir)%string
  else mret tt.

Lemma remove_backup_post (bk : string) s root es :
  fs s = Dir root → root !! bk = Some (Dir es) →
  ∃ s', remove_backup [bk] s = (Ok tt, s')
    ∧ fs s' = Dir (delete bk root)
    ∧ progress s' = progress s ∧ stdout s' = stdout s.
Proof.
  intros Hroot Hb. unfold remove_backup. run.
  rewrite Hroot, exists_root_entry, Hb, bool_decide_eq_true_2 by eauto. simpl.
  rewrite ?Hroot.
  assert (FS.rmtree [bk] (Dir root) = Ok (Dir (delete bk root))) as ->.
  { unfold FS.rmtree. simpl. by rewrite Hb. }
  simpl. eexists. split; [done|]. done.
Qed.

End Cleanup.

Section RealScript.

Variable env : environment.
Hypothesis real : dry_run env = false.

Lemma skeleton_root_kept s s' :
  create_new_directories env s = (Ok tt, s') → root_kept (fs s) (fs s').
Proof.
  intros Hrun.
  destruct (create_new_directories_post env real s) as (s0 & Hrun0 & _ & _ & Hframe & Hkind & _).
  rewrite Hrun in Hrun0. injection Hrun0 as <-. split; [|split]; [|apply Hkind..].
  intros c Hc. apply Hframe. intros d Hd. destruct (NEW_DIRS_under_src d Hd) as [r ->].
  simpl. by destruct (String.eqb_spec c "src").
Qed.

Lemma moves_root_kept s s' :
  process_file_moves env s = (Ok tt, s') → root_kept (fs s) (fs s').
Proof.
  intros Hrun. destruct (process_file_moves_post env real s) as (s0 & Hrun0 & _ & _ & P).
  rewrite Hrun in Hrun0. injection Hrun0 as <-.
  eapply loop_root_kept; [exact P|]. apply moves_needed_deep.
Qed.

Lemma styles_root_kept s r s' :
  reorganize_styles env s = (r, s') → root_kept (fs s) (fs s').
Proof.
  intros Hrun. destruct (reorganize_styles_post env real s) as (r0 & s0 & Hrun0 & _ & Hcase).
  rewrite Hrun in Hrun0. injection Hrun0 as <- <-.
  destruct Hcase as [(_ & _ & _ & P) | (e & _ & _ & _ & -> & _)]; [|apply root_kept_refl].
  eapply loop_root_kept; [exact P|]. apply css_moves_deep.
Qed.

(** The end of a migration that went through: the backup is removed and
    the report is due. *)
Lemma finish_real (bk : string) s root es :
  fs s = Dir root → root !! bk = Some (Dir es) →
  ∃ s', finish env (Some [bk]) s = report_and_print s'
    ∧ fs s' = Dir (delete bk root)
    ∧ progress s' = progress s ∧ printed_reports s' = printed_reports s.
Proof.
  intros Hroot Hb. unfold finish. rewrite real, run_bind.
  destruct (readonly_check_extra_files s) as [Hq [[] Hok]].
  destruct (check_extra_files s) as [r1 s1]. simpl in Hq, Hok. subst r1.
  destruct Hq as (Hfs1 & Hp1 & Ho1 & _).
  rewrite run_bind, run_bind. simpl.
  set (s2 := {| fs := fs s1; log := _; stdout := stdout s1; progress := progress s1 |}).
  fold (remove_backup [bk]).
  destruct (remove_backup_post bk s2 root es) as (s3 & Hrun3 & Hfs3 & Hp3 & Ho3);
    [simpl; congruence | done |].
  rewrite Hrun3. exists s3. split; [done|]. split; [done|].
  split; [simpl in *; congruence|]. apply printed_of_stdout. simpl in *. congruence.
Qed.

(** The handler when the backup is still there: [src] is replaced by the
    backup. *)
Lemma on_failure_restores (bk : string) e s root es es' :
  bk ≠ "src"%string →
  fs s = Dir root → root !! bk = Some (Dir es) → root !! "src"%string = Some (Dir es') →
  ∃ s', on_failure env (Some [bk]) e s = report_and_print s'
    ∧ fs s' = Dir (<["src"%string := Dir es]> root)
    ∧ progress s' = progress (with_error (failure_message e) s)
    ∧ printed_reports s' = printed_reports s.
Proof.
  intros Hbk Hroot Hb Hsrc. unfold on_failure. rewrite real. run.
  match goal with |- context [restore_from_backup env [bk] ?x] => set (s1 := x) end.
  destruct (restore_from_backup_post env real bk s1 root es es') as (s2 & Hrun2 & Hfs2 & Hp2 & Ho2);
    [done.. |].
  rewrite Hrun2. simpl.
  eexists. split; [reflexivity|]. simpl. split; [done|]. split; [by rewrite Hp2|].
  apply printed_of_stdout. simpl. by rewrite Ho2.
Qed.

(** The handler when the backup is gone: nothing is restored. *)
Lemma on_failure_without_restore (bk : string) e s root :
  fs s = Dir root → root !! bk = None →
  ∃ s', on_failure env (Some [bk]) e s = report_and_print s'
    ∧ fs s' = fs s
    ∧ progress s' = progress (with_error (failure_message e) s)
    ∧ printed_reports s' = printed_reports s.
Proof.
  intros Hroot Hb. unfold on_failure, restore_from_backup. rewrite real. run.
  rewrite Hroot, exists_root_entry, Hb, bool_decide_eq_false_2 by (by intros [? ?]). simpl.
  eexists. split; [reflexivity|]. simpl. done.
Qed.

End RealScript.

(** ** The course of a real run

    Either the run gives up before the backup, and nothing but the log has
    changed, or it makes the backup and goes through the three phases; a
    failure while the stylesheets are listed rolls [src] back, and a
    completed migration removes the backup. *)

Section RealCourse.

Variable env : environment.
Hypothesis real : dry_run env = false.

Definition rolled_back (R : Z * state) (s2 s5 : state) (e : exn) : Prop :=
  fs R.2 = fs s2
  ∧ progress R.2 = progress (with_error (failure_message e) s5)
  ∧ (0 < total_operations (progress s5) → R.1 = 0%Z ∧ ∃ report, printed_reports R.2 = [report])
  ∧ (total_operations (progress s5) = 0 → R.1 = 1%Z ∧ printed_reports R.2 = []).

Definition completed (R : Z * state) (s5 : state) : Prop :=
  ∃ root5, fs s5 = Dir root5
    ∧ fs R.2 = Dir (delete (backup_name env) root5)
    ∧ ((0 < total_operations (progress s5) ∧ R.1 = 0%Z ∧ progress R.2 = progress s5
        ∧ ∃ report, printed_reports R.2 = [report])
       ∨ (total_operations (progress s5) = 0 ∧ R.1 = 1%Z ∧ printed_reports R.2 = []
          ∧ progress R.2 = progress (with_error (failure_message ZeroDivisionError) s5))).

Lemma script_real t :
  let R := script env t in
  (fs R.2 = t ∧ progress R.2 = ProgressTracker_init ∧ printed_reports R.2 = [])
  ∨ ∃ root es s2 s3 s4 r5 s5,
      t = Dir root ∧ root !! "src"%string = Some (Dir es) ∧ root !! backup_name env = None
      ∧ fs s2 = Dir (<[backup_name env := Dir es]> root)
      ∧ progress s2 = ProgressTracker_init ∧ printed_reports s2 = []
      ∧ create_new_directories env s2 = (Ok tt, s3)
      ∧ process_file_moves env s3 = (Ok tt, s4)
      ∧ reorganize_styles env s4 = (r5, s5)
      ∧ ((∃ e, r5 = Raise e ∧ rolled_back R s2 s5 e) ∨ (r5 = Ok tt ∧ completed R s5)).
Proof.
  simpl. unfold script. destruct (FS.isdir t ["src"%string]); simpl; [|by left].
  destruct (main_cases env (boot t)) as [(s' & Hrun & Hq) | (s1 & bd & s2 & Hq & Hb & Hbd & Hrun)].
  { left. rewrite Hrun. simpl. destruct Hq as (Hfs & Hp & Ho & _).
    split; [done|]. split; [done|]. apply printed_of_stdout in Ho. by rewrite Ho. }
  destruct Hq as (Hfs1 & Hp1 & Ho1 & _). simpl in Hfs1, Hp1, Ho1.
  destruct (create_backup_post env real s1) as (bd' & s2' & Hb' & Hp2 & Ho2 & _ & Hcase).
  rewrite Hb in Hb'. injection Hb' as <- <-.
  destruct Hcase as [[-> _] | (root & es & -> & Hroot & Hsrc & Hbk & Hfs2)];
    [by destruct (Hbd real)|].
  right. rewrite Hrun, run_try, migrate_unfold, run_bind. clear Hrun Hbd Hb.
  destruct (create_new_directories_post env real s2) as (s3 & Hrun3 & Hp3 & Ho3 & _).
  rewrite Hrun3, run_bind.
  destruct (process_file_moves_post env real s3) as (s4 & Hrun4 & Ht4 & Hpr4 & _).
  rewrite Hrun4, run_bind.
  destruct (reorganize_styles_post env real s4) as (r5 & s5 & Hrun5 & Hpr5 & Hcase5).
  rewrite Hrun5.
  exists root, es, s2, s3, s4, r5, s5.
  split; [congruence|]. split; [done|]. split; [done|]. split; [done|].
  split; [congruence|].
  assert (printed_reports s2 = []) as Hpr2.
  { apply printed_of_stdout in Ho2. rewrite Ho2. unfold printed_reports.
    by rewrite Ho1. }
  split; [done|]. split; [done|]. split; [done|]. split; [done|].
  assert (printed_reports s5 = []) as Hpr5'.
  { rewrite Hpr5, Hpr4. apply printed_of_stdout in Ho3. by rewrite Ho3. }
  assert (root_kept (fs s2) (fs s5)) as Hkept.
  { eapply root_kept_trans; [by eapply skeleton_root_kept|].
    eapply root_kept_trans; [by eapply moves_root_kept | by eapply styles_root_kept]. }
  destruct (root_kept_dir _ _ _ Hkept Hfs2) as (root5 & Hfs5 & Hother & Hsrc5).
  assert (root5 !! backup_name env = Some (Dir es)) as Hbk5.
  { rewrite Hother by apply backup_name_not_src. apply lookup_insert_eq. }
  destruct (Hsrc5 es) as [es5 Hes5].
  { rewrite lookup_insert_ne by apply backup_name_not_src. done. }
  destruct Hcase5 as [(-> & _) | (e & -> & _)].
  - right. split; [done|].
    destruct (finish_real env real (backup_name env) s5 root5 es Hfs5 Hbk5)
      as (s7 & -> & Hfs7 & Hp7 & Hpr7).
    destruct (report_and_print_post s7) as (r8 & s8 & Hrun8 & Hfs8 & Hp8 & Hcase8).
    rewrite Hrun8. exists root5. split; [done|].
    destruct Hcase8 as [(H0 & -> & Hpr8) | (Hpos & -> & report & Hpr8)].
    + destruct (on_failure_without_restore env real (backup_name env) ZeroDivisionError s8
                  (delete (backup_name env) root5)) as (s9 & -> & Hfs9 & Hp9 & Hpr9);
        [congruence | apply lookup_delete_eq |].
      destruct (report_and_print_post s9) as (r10 & s10 & Hrun10 & Hfs10 & Hp10 & Hcase10).
      rewrite Hrun10.
      assert (total_operations (progress s9) = 0) as H9
        by (rewrite Hp9; simpl; congruence).
      destruct Hcase10 as [(_ & -> & Hpr10) | (Hpos & _)]; [|lia]. simpl.
      split; [congruence|]. right. split; [congruence|]. split; [done|].
      split; [congruence|]. rewrite Hp10, Hp9. simpl. by rewrite Hp8, Hp7.
    + simpl. split; [congruence|]. left. split; [congruence|]. split; [done|].
      split; [congruence|]. exists report. rewrite Hpr8, Hpr7, Hpr5'. done.
  - left. exists e. split; [done|].
    destruct (on_failure_restores env real (backup_name env) e s5 root5 es es5)
      as (s9 & -> & Hfs9 & Hp9 & Hpr9); [apply backup_name_not_src | done..|].
    destruct (report_and_print_post s9) as (r10 & s10 & Hrun10 & Hfs10 & Hp10 & Hcase10).
    rewrite Hrun10.
    assert (fs s10 = fs s2) as Hback.
    { rewrite Hfs10, Hfs9, Hfs2. f_equal. apply map_eq. intros c.
      destruct (decide (c = "src"%string)) as [-> | Hc].
      - rewrite lookup_insert_eq, lookup_insert_ne by apply backup_name_not_src. done.
      - rewrite lookup_insert_ne by done. by apply Hother. }
    assert (total_operations (progress s9) = total_operations (progress s5)) as H9
      by (by rewrite Hp9).
    unfold rolled_back.
    destruct Hcase10 as [(H0 & -> & Hpr10) | (Hpos & -> & report & Hpr10)]; simpl.
    + split; [done|]. split; [by rewrite Hp10, Hp9|]. split; [lia|]. intros _.
      split; [done|]. congruence.
    + split; [done|]. split; [by rewrite Hp10, Hp9|]. split; [|lia]. intros _.
      split; [done|].
      exists report. rewrite Hpr10, Hpr9, Hpr5'. done.
Qed.

End RealCourse.

(** ** The entries of the move mapping across a real run *)

Section Entries.

Variable env : environment.
Hypothesis real : dry_run env = false.

(** What the run has done to one entry of the mapping: nothing, or the
    move of a source that was there to a destination that was not. *)
Definition untouched (t t' : node) (e : path * path) : Prop :=
  FS.lookup t' e.1 = FS.lookup t e.1 ∧ FS.lookup t' e.2 = FS.lookup t e.2.

Definition migrated (t t' : node) (e : path * path) : Prop :=
  FS.exists_ t e.1 = true ∧ FS.exists_ t e.2 = false
  ∧ FS.lookup t' e.1 = None ∧ FS.lookup t' e.2 = FS.lookup t e.1.

Lemma exists_false_isdir t p : FS.exists_ t p = false → FS.isdir t p = false.
Proof.
  intros H. destruct (FS.isdir t p) eqn:E; [|done].
  apply isdir_true in E as (Hp & es & E). apply exists_false in H as [-> | H]; congruence.
Qed.

Lemma table_path_skeleton_frame s s' p :
  create_new_directories env s = (Ok tt, s') → p ∈ table_paths →
  FS.lookup (fs s') p = FS.lookup (fs s) p.
Proof.
  intros Hrun Hp.
  destruct (create_new_directories_post env real s) as (s0 & Hrun0 & _ & _ & Hframe & _).
  rewrite Hrun in Hrun0. injection Hrun0 as <-. apply Hframe.
  intros d Hd. by apply table_path_not_skeleton.
Qed.

Lemma table_path_styles_frame s s' p :
  reorganize_styles env s = (Ok tt, s') → p ∈ table_paths →
  FS.lookup (fs s') p = FS.lookup (fs s) p
  ∧ length (errors (progress s)) ≤ length (errors (progress s')).
Proof.
  intros Hrun Hp.
  destruct (reorganize_styles_post env real s) as (r0 & s0 & Hrun0 & _ & Hcase).
  rewrite Hrun in Hrun0. injection Hrun0 as <- <-.
  destruct Hcase as [(_ & _ & _ & P) | (e & [=] & _)].
  split; [|apply (lp_errors _ _ _ P)].
  apply (lp_frame _ _ _ P). intros e (x & -> & _)%list_elem_of_fmap.
  destruct (table_path_under_src p Hp) as (r & _ & Hap).
  unfold css_move, Path.join. simpl. split.
  - by apply (apart_below p styles_root [x]).
  - by apply (apart_below p styles_root [category_of x; x]).
Qed.

Lemma entry_through_moves s s' e :
  process_file_moves env s = (Ok tt, s') → e ∈ FILE_MOVES →
  length (errors (progress s)) ≤ length (errors (progress s'))
  ∧ ((untouched (fs s) (fs s') e
      ∧ (FS.exists_ (fs s) e.1 = true → FS.exists_ (fs s) e.2 = false →
         length (errors (progress s)) < length (errors (progress s'))))
     ∨ migrated (fs s) (fs s') e).
Proof.
  intros Hrun He.
  destruct (process_file_moves_post env real s) as (s0 & Hrun0 & _ & _ & P).
  rewrite Hrun in Hrun0. injection Hrun0 as <-.
  split; [apply (lp_errors _ _ _ P)|].
  destruct (FS.exists_ (fs s) e.1) eqn:E1, (FS.exists_ (fs s) e.2) eqn:E2.
  2:{ assert (e ∈ moves_needed (fs s)) as Hin by (by apply moves_needed_spec).
      destruct (lp_each _ _ _ P e Hin) as [(H1 & H2 & Herr) | (_ & H1 & H2)].
      - left. split; [done|]. intros _ _. by apply Herr.
      - right. unfold real_dst in H2. rewrite (exists_false_isdir _ _ E2) in H2. done. }
  all: left; (split; [|done]); split; apply (lp_frame _ _ _ P); intros e' He';
    assert (e ≠ e') as Hne
      by (intros <-; apply moves_needed_spec in He' as (_ & ? & ?); congruence);
    apply moves_needed_spec in He' as (He' & _);
    pose proof (independent_far _ _ _ FILE_MOVES_independent He He' Hne) as Hfar;
    apply far_spec in Hfar; tauto.
Qed.

(** The three phases of the migration on one entry. *)
Lemma entry_through_phases s2 s3 s4 s5 e :
  create_new_directories env s2 = (Ok tt, s3) →
  process_file_moves env s3 = (Ok tt, s4) →
  reorganize_styles env s4 = (Ok tt, s5) →
  e ∈ FILE_MOVES →
  (untouched (fs s2) (fs s5) e
   ∧ (FS.exists_ (fs s2) e.1 = true → FS.exists_ (fs s2) e.2 = false →
      errors (progress s5) ≠ []))
  ∨ migrated (fs s2) (fs s5) e.
Proof.
  intros H3 H4 H5 He. destruct (table_paths_of_entry e He) as [Hp1 Hp2].
  pose proof (table_path_skeleton_frame _ _ _ H3 Hp1) as A1.
  pose proof (table_path_skeleton_frame _ _ _ H3 Hp2) as A2.
  destruct (table_path_styles_frame _ _ _ H5 Hp1) as [C1 Herr].
  destruct (table_path_styles_frame _ _ _ H5 Hp2) as [C2 _].
  pose proof (exists_of_lookup _ _ _ A1) as X1. pose proof (exists_of_lookup _ _ _ A2) as X2.
  destruct (entry_through_moves _ _ _ H4 He) as [_ [[[B1 B2] Hgrow] | (E1 & E2 & B1 & B2)]].
  - left. split; [split; congruence|]. intros E1 E2. rewrite X1, X2 in Hgrow.
    specialize (Hgrow E1 E2). intros Hnil. rewrite Hnil in Herr. simpl in Herr. lia.
  - right. unfold migrated. rewrite <- X1, <- X2. split; [done|]. split; [done|].
    split; congruence.
Qed.

Lemma table_path_root_insert root (c : string) v p :
  p ∈ table_paths → c ≠ "src"%string →
  FS.lookup (Dir (<[c := v]> root)) p = FS.lookup (Dir root) p.
Proof.
  intros Hp Hc. destruct (table_path_under_src p Hp) as (r & -> & _).
  apply lookup_root_insert; [done|]. simpl. congruence.
Qed.

Lemma table_path_root_delete root (c : string) p :
  p ∈ table_paths → c ≠ "src"%string →
  FS.lookup (Dir (delete c root)) p = FS.lookup (Dir root) p.
Proof.
  intros Hp Hc. destruct (table_path_under_src p Hp) as (r & -> & _).
  apply lookup_root_delete; [done|]. simpl. congruence.
Qed.

(** A run that went through: status 0, a report printed, no error in it. *)
Definition succeeded (R : Z * state) : Prop :=
  R.1 = 0%Z ∧ printed_reports R.2 ≠ [] ∧ errors (progress R.2) = [].

(** Every entry is left as it was or migrated, and after a run that went
    through no entry that was ready has been left behind. *)
Lemma entry_course t e :
  e ∈ FILE_MOVES →
  let R := script env t in
  (untouched t (fs R.2) e
   ∧ (succeeded R → FS.exists_ t e.1 = true → FS.exists_ t e.2 = false → False))
  ∨ migrated t (fs R.2) e.
Proof.
  intros He R. destruct (table_paths_of_entry e He) as [Hp1 Hp2].
  destruct (script_real env real t)
    as [(Hfs & _ & Hpr) | (root & es & s2 & s3 & s4 & r5 & s5 & -> & Hsrc & Hbk & Hfs2 & _ & _
                           & H3 & H4 & H5 & Hcase)];
    fold R in Hfs, Hpr || fold R in Hcase.
  { left. rewrite Hfs. split; [done|]. by intros (_ & ? & _). }
  assert (∀ p, p ∈ table_paths → FS.lookup (fs s2) p = FS.lookup (Dir root) p) as Hin.
  { intros p Hp. rewrite Hfs2. apply table_path_root_insert; [done|].
    apply backup_name_not_src. }
  destruct Hcase as [(x & -> & Hfs & Hp & _) | (-> & root5 & Hfs5 & Hfs & Hcase)].
  - left. rewrite Hfs. split; [split; by apply Hin|].
    intros (_ & _ & Herr). rewrite Hp in Herr. simpl in Herr.
    by destruct (errors (progress s5)).
  - assert (∀ p, p ∈ table_paths → FS.lookup (fs R.2) p = FS.lookup (fs s5) p) as Hout.
    { intros p Hp. rewrite Hfs, Hfs5. apply table_path_root_delete; [done|].
      apply backup_name_not_src. }
    pose proof (exists_of_lookup _ _ _ (Hin _ Hp1)) as X1.
    pose proof (exists_of_lookup _ _ _ (Hin _ Hp2)) as X2.
    destruct (entry_through_phases _ _ _ _ _ H3 H4 H5 He) as [[[A1 A2] Herr] | (E1 & E2 & A1 & A2)].
    + left. split; [split; rewrite Hout by done; rewrite <- Hin by done; done|].
      intros (_ & Hpr & Hnone) E1 E2. rewrite <- X1 in E1. rewrite <- X2 in E2.
      destruct Hcase as [(_ & _ & Hp & _) | (_ & _ & Hnil & _)]; [|done].
      apply (Herr E1 E2). by rewrite <- Hp.
    + right. unfold migrated. rewrite <- X1, <- X2, !Hout, <- Hin by done. done.
Qed.

End Entries.

(** C1.  After a non-simulate run that went through (status 0, the report
    printed, no error recorded), every entry of the move mapping has its
    source or its destination, but not both and not neither: an entry whose
    source was there and whose destination was not has been moved, the
    destination now holding what the source held, and an entry already
    migrated is as it was.  The entries in conflict (both there) or missing
    (neither there) before the run are as they were. *)
Theorem exactly_one_side_after_successful_run env t e :
  dry_run env = false → e ∈ FILE_MOVES →
  let R := script env t in
  succeeded R →
  (FS.exists_ t e.1 = FS.exists_ t e.2 → untouched t (fs R.2) e)
  ∧ (FS.exists_ t e.1 ≠ FS.exists_ t e.2 →
     FS.exists_ (fs R.2) e.1 ≠ FS.exists_ (fs R.2) e.2
     ∧ (FS.exists_ t e.1 = true → migrated t (fs R.2) e)
     ∧ (FS.exists_ t e.1 = false → untouched t (fs R.2) e)).
Proof.
  intros real He R Hok.
  destruct (entry_course env real t e He) as [[[A1 A2] Hnot] | (E1 & E2 & A1 & A2)];
    fold R in A1, A2 |- *.
  - split; [done|]. intros Hne.
    rewrite (exists_of_lookup _ _ _ A1), (exists_of_lookup _ _ _ A2).
    split; [done|]. split; [|done]. intros E1. exfalso. apply (Hnot Hok E1).
    destruct (FS.exists_ t e.2); congruence.
  - split; [congruence|]. intros _.
    assert (FS.exists_ (fs R.2) e.1 = false) as X1 by (apply exists_false; by right).
    assert (FS.exists_ (fs R.2) e.2 = true) as X2.
    { apply exists_true. apply exists_true in E1 as [_ [v Hv]]. split.
      - apply exists_false in E2. destruct (table_paths_of_entry e He) as [_ Hp].
        destruct (table_path_under_src _ Hp) as (r & -> & _). done.
      - exists v. congruence. }
    rewrite X1, X2. split; [done|]. split; [done | congruence].
Qed.


(** ** Rollback after a failure in the migration *)

Lemma mkdirs_no_new_file t d t' q data :
  FS.mkdirs t d = Some t' → FS.lookup t' q = Some (File data) →
  FS.lookup t q = Some (File data).
Proof.
  intros Hmk Hq. destruct (Path.is_prefix q d) eqn:Hp.
  - destruct (mkdirs_lookup_prefix _ _ _ _ Hmk Hp) as [es Hes]. congruence.
  - by rewrite <- (mkdirs_lookup_other _ _ _ _ Hmk Hp).
Qed.

Section Rollback.

Variable env : environment.
Hypothesis real : dry_run env = false.

(** The skeleton phase makes directories only: a regular file found after
    it was there before. *)
Lemma skeleton_loop_files ds s s' q data :
  (∀ d, d ∈ ds → d ≠ []) →
  for_each ds (ensure_directory env) s = (Ok tt, s') →
  FS.lookup (fs s') q = Some (File data) → FS.lookup (fs s) q = Some (File data).
Proof.
  revert s. induction ds as [|d r IH]; intros s Hne Hrun Hq.
  - injection Hrun as <-. done.
  - rewrite run_for_each_cons in Hrun.
    destruct (ensure_directory_step env real d s) as (s1 & Hrun1 & _ & _ & Hcase);
      [apply Hne; left|].
    rewrite Hrun1 in Hrun. apply IH in Hrun; [|intros; apply Hne; by right | done].
    destruct Hcase as [[Hfs _] | [_ Hmk]]; [by rewrite <- Hfs|].
    by eapply mkdirs_no_new_file.
Qed.

Lemma skeleton_no_new_file s s' q data :
  create_new_directories env s = (Ok tt, s') →
  FS.lookup (fs s') q = Some (File data) → FS.lookup (fs s) q = Some (File data).
Proof.
  rewrite create_new_directories_unfold, run_bind. unfold logging_info at 1, logging at 1.
  intros Hrun Hq. by apply (skeleton_loop_files _ _ _ _ _ NEW_DIRS_nonempty Hrun) in Hq.
Qed.

Lemma styles_root_in_skeleton : styles_root ∈ NEW_DIRS.
Proof. apply list_elem_of_In. vm_compute. tauto. Qed.

Lemma styles_dir_after_skeleton s s' root es :
  create_new_directories env s = (Ok tt, s') →
  fs s = Dir root → root !! "src"%string = Some (Dir es) →
  FS.isfile (fs s) styles_root = false →
  FS.isdir (fs s') styles_root = true.
Proof.
  intros Hrun Hroot Hsrc Hfile.
  destruct (create_new_directories_post env real s) as (s0 & Hrun0 & _ & _ & _ & _ & Hok & _).
  rewrite Hrun in Hrun0. injection Hrun0 as <-.
  destruct (Hok _ styles_root_in_skeleton) as [Hdir | Hno]; [done|]. exfalso.
  apply mkdirs_none in Hno as (q & data & Hq & Hl).
  apply (skeleton_no_new_file _ _ _ _ Hrun) in Hl. rewrite Hroot in Hl, Hfile.
  destruct q as [|a [|b [|c q]]]; simpl in Hq, Hl.
  - done.
  - destruct (String.eqb_spec a "src") as [-> | ?]; [|done]. rewrite Hsrc in Hl. done.
  - destruct (String.eqb_spec a "src") as [-> | ?]; [|done].
    destruct (String.eqb_spec b "styles") as [-> | ?]; [|done].
    unfold FS.isfile, styles_root, Path.join in Hfile. simpl in Hfile.
    rewrite Hsrc in Hl, Hfile. by rewrite Hl in Hfile.
  - destruct (String.eqb a "src"); [|done]. destruct (String.eqb b "styles"); done.
Qed.

Lemma styles_dir_after_moves s s' :
  process_file_moves env s = (Ok tt, s') →
  FS.isdir (fs s) styles_root = true → FS.isdir (fs s') styles_root = true.
Proof.
  intros Hrun Hdir. destruct (process_file_moves_post env real s) as (s0 & Hrun0 & _ & _ & P).
  rewrite Hrun in Hrun0. injection Hrun0 as <-.
  apply isdir_true in Hdir as (Hne & es & Hes). apply isdir_true. split; [done|].
  assert (kind_le (FS.lookup (fs s) styles_root) (FS.lookup (fs s') styles_root)) as Hk.
  { apply (lp_kind _ _ _ P). intros e He. apply moves_needed_spec in He as [He _].
    destruct (table_paths_of_entry e He) as [H1 H2].
    destruct (table_path_under_src _ H1) as (? & _ & A1).
    destruct (table_path_under_src _ H2) as (? & _ & A2).
    apply apart_spec in A1, A2. tauto. }
  by rewrite Hes in Hk.
Qed.

(** With [os.listdir] failing, a run that starts the migration ends in the
    handler unless a regular file sits where [src/styles] belongs. *)
Lemma fault_rolls_back t e :
  listdir_fault env = Some e → FS.isfile t styles_root = false →
  let R := script env t in
  (fs R.2 = t ∧ progress R.2 = ProgressTracker_init ∧ printed_reports R.2 = [])
  ∨ ∃ root es s2 s5,
      t = Dir root ∧ root !! "src"%string = Some (Dir es) ∧ root !! backup_name env = None
      ∧ fs s2 = Dir (<[backup_name env := Dir es]> root)
      ∧ rolled_back R s2 s5 e.
Proof.
  intros Hfault Hfile R.
  destruct (script_real env real t)
    as [? | (root & es & s2 & s3 & s4 & r5 & s5 & -> & Hsrc & Hbk & Hfs2 & _ & _
             & H3 & H4 & H5 & Hcase)]; [by left|].
  right. exists root, es, s2, s5. repeat (split; [done|]).
  assert (FS.isdir (fs s4) styles_root = true) as Hdir.
  { apply (styles_dir_after_moves _ _ H4).
    apply (styles_dir_after_skeleton _ _ _ es H3 Hfs2).
    - rewrite lookup_insert_ne by (apply backup_name_not_src). done.
    - rewrite Hfs2. unfold FS.isfile, styles_root, Path.join in Hfile |- *. simpl in Hfile |- *.
      rewrite lookup_insert_ne by (apply backup_name_not_src). done. }
  destruct (reorganize_styles_post env real s4) as (r0 & s0 & Hrun0 & _ & Hpost).
  rewrite H5 in Hrun0. injection Hrun0 as <- <-.
  destruct Hpost as [(_ & _ & Hnone & _) | (x & -> & Hx & _)].
  - specialize (Hnone Hdir). congruence.
  - destruct Hcase as [(y & [= <-] & Hrb) | ([=] & _)].
    assert (x = e) as -> by congruence. done.
Qed.

End Rollback.

(** C3.  In a non-simulate run in which listing [src/styles] fails (the
    failure of the migration phase that no handler but the one of [main]
    catches) after at least one move went through, the run ends with the
    source tree as it was before the run: [src] holds what it held, the
    backup directory is still there and holds the same tree, every other
    entry of the working directory is as it was, and the failure is the
    last error recorded. *)
Theorem rollback_restores_source_tree env t e :
  dry_run env = false →
  listdir_fault env = Some e → FS.isfile t styles_root = false →
  let R := script env t in
  1 ≤ completed_operations (progress R.2) →
  FS.lookup (fs R.2) ["src"%string] = FS.lookup t ["src"%string]
  ∧ FS.isdir (fs R.2) [backup_name env] = true
  ∧ FS.lookup (fs R.2) [backup_name env] = FS.lookup t ["src"%string]
  ∧ FS.exists_ t [backup_name env] = false
  ∧ (∀ c : string, c ≠ backup_name env → FS.lookup (fs R.2) [c] = FS.lookup t [c])
  ∧ ∃ errs, errors (progress R.2) = errs ++ [failure_message e].
Proof.
  intros real Hfault Hfile R Hdone.
  destruct (fault_rolls_back env real t e Hfault Hfile)
    as [(_ & Hp & _) | (root & es & s2 & s5 & -> & Hsrc & Hbk & Hfs2 & Hfs & Hp & _)];
    fold R in Hp; [rewrite Hp in Hdone; simpl in Hdone; lia|].
  fold R in Hfs. rewrite Hfs, Hfs2. unfold FS.isdir, FS.exists_. simpl.
  rewrite lookup_insert_eq, lookup_insert_ne, Hsrc, Hbk by (apply backup_name_not_src).
  repeat split; try done.
  - intros c Hc. by rewrite lookup_insert_ne.
  - rewrite Hp. simpl. eauto.
Qed.


(** ** The planned total of a real run *)

Lemma moves_needed_ext t t' :
  (∀ p, p ∈ table_paths → FS.lookup t' p = FS.lookup t p) → moves_needed t' = moves_needed t.
Proof.
  intros H. unfold moves_needed. apply filter_ext_in. intros e He.
  apply list_elem_of_In, table_paths_of_entry in He as [H1 H2].
  by rewrite (exists_of_lookup _ _ _ (H _ H1)), (exists_of_lookup _ _ _ (H _ H2)).
Qed.

Lemma loose_stylesheets_NoDup t : NoDup (loose_stylesheets t).
Proof.
  unfold loose_stylesheets. destruct (FS.listdir styles_root t) as [items|e] eqn:Hl.
  - apply NoDup_filter_bool. by apply listdir_ok in Hl as [? _].
  - constructor.
Qed.

Lemma loose_stylesheets_length t t' :
  (∀ x, is_css t' x = is_css t x) →
  length (loose_stylesheets t') = length (loose_stylesheets t).
Proof.
  intros H. apply Permutation_length, NoDup_Permutation; try apply loose_stylesheets_NoDup.
  intros x. by rewrite !elem_of_loose_stylesheets, H.
Qed.

Lemma loose_stylesheets_not_dir t :
  FS.isdir t styles_root = false → loose_stylesheets t = [].
Proof.
  intros H. unfold loose_stylesheets. by destruct (listdir_not_dir _ _ H) as [e ->].
Qed.

(** The planned total is a function of the tree and of the fate of
    [os.listdir]. *)
Lemma dry_plan_unique env env' t n m :
  listdir_fault env = listdir_fault env' → dry_plan env t n → dry_plan env' t m → n = m.
Proof.
  intros Heq [[-> Hn] | (e & He & Hdir & ->)] [[-> Hm] | (e' & He' & Hdir' & ->)]; try done.
  - specialize (Hn Hdir'). congruence.
  - specialize (Hm Hdir). congruence.
Qed.

Section RealPlan.

Variable env : environment.
Hypothesis real : dry_run env = false.

Lemma is_css_through_skeleton s s' x :
  create_new_directories env s = (Ok tt, s') → is_css (fs s') x = is_css (fs s) x.
Proof.
  intros Hrun. unfold is_css. f_equal.
  set (p := Path.join styles_root x).
  destruct (create_new_directories_post env real s) as (s0 & Hrun0 & _ & _ & _ & Hkind & _).
  rewrite Hrun in Hrun0. injection Hrun0 as <-.
  destruct (FS.isfile (fs s) p) eqn:E.
  - apply isfile_true in E as (Hp & data & E). apply isfile_true. split; [done|].
    specialize (Hkind p). rewrite E in Hkind. eauto.
  - destruct (FS.isfile (fs s') p) eqn:E'; [|done].
    apply isfile_true in E' as (Hp & data & E').
    apply (skeleton_no_new_file env real _ _ _ _ Hrun) in E'.
    assert (FS.isfile (fs s) p = true) by (apply isfile_true; eauto). congruence.
Qed.

Lemma is_css_through_moves s s' x :
  process_file_moves env s = (Ok tt, s') → is_css (fs s') x = is_css (fs s) x.
Proof.
  intros Hrun. apply is_css_of_lookup.
  destruct (process_file_moves_post env real s) as (s0 & Hrun0 & _ & _ & P).
  rewrite Hrun in Hrun0. injection Hrun0 as <-.
  apply (lp_frame _ _ _ P). intros e He. apply moves_needed_spec in He as [He _].
  destruct (table_paths_of_entry e He) as [H1 H2].
  destruct (table_path_under_src _ H1) as (? & _ & A1).
  destruct (table_path_under_src _ H2) as (? & _ & A2).
  rewrite !(apart_sym (Path.join styles_root x)). unfold Path.join.
  split; by apply apart_below.
Qed.

Lemma real_plan t :
  let R := script env t in
  printed_reports R.2 ≠ [] → dry_plan env t (total_operations (progress R.2)).
Proof.
  intros R Hpr.
  destruct (script_real env real t)
    as [(_ & _ & Hnil) | (root & es & s2 & s3 & s4 & r5 & s5 & -> & Hsrc & Hbk & Hfs2 & _ & _
                           & H3 & H4 & H5 & Hcase)]; [done|].
  fold R in Hcase.
  assert (∀ p c r, p = "src"%string :: c :: r → FS.lookup (fs s2) p = FS.lookup (Dir root) p)
    as Hin.
  { intros p c r ->. rewrite Hfs2. apply lookup_root_insert; [done|]. simpl.
    intros Heq. by apply (backup_name_not_src env). }
  assert (moves_needed (fs s3) = moves_needed (Dir root)) as Hmn.
  { apply moves_needed_ext. intros p Hp.
    rewrite (table_path_skeleton_frame env real _ _ _ H3 Hp).
    destruct (table_path_deep _ Hp) as (c & r & Hcr). by eapply Hin. }
  assert (∀ x, is_css (fs s4) x = is_css (Dir root) x) as Hcss.
  { intros x. rewrite (is_css_through_moves _ _ _ H4), (is_css_through_skeleton _ _ _ H3).
    apply is_css_of_lookup. by eapply Hin. }
  assert (FS.isdir (Dir root) styles_root = true → FS.isdir (fs s4) styles_root = true) as Hdir.
  { intros Hd. apply (styles_dir_after_moves env real _ _ H4).
    apply (styles_dir_after_skeleton env real _ _ _ es H3 Hfs2).
    - rewrite lookup_insert_ne by (apply backup_name_not_src). done.
    - apply isdir_true in Hd as (_ & es' & Hd). rewrite <- (Hin styles_root "styles"%string []) in Hd by done.
      destruct (FS.isfile (fs s2) styles_root) eqn:E; [|done].
      apply isfile_true in E as (_ & data & E). congruence. }
  destruct (process_file_moves_post env real s3) as (s0 & Hrun0 & Ht4 & _).
  rewrite H4 in Hrun0. injection Hrun0 as <-. rewrite Hmn in Ht4.
  destruct (reorganize_styles_post env real s4) as (r0 & s0 & Hrun0 & _ & Hpost).
  rewrite H5 in Hrun0. injection Hrun0 as <- <-.
  destruct Hpost as [(-> & Ht5 & Hnone & _) | (x & -> & Hx & Hd4 & _ & Hp5)].
  - destruct Hcase as [(y & [=] & _) | (_ & root5 & _ & _ & Hcase)].
    destruct Hcase as [(_ & _ & Hp & _) | (_ & _ & Hno & _)]; [|done].
    left. rewrite Hp, Ht5, Ht4, (loose_stylesheets_length _ _ Hcss). split; [done|].
    intros Hd. apply Hnone, Hdir, Hd.
  - destruct Hcase as [(y & [= <-] & _ & Hp & _) | ([=] & _)].
    rewrite Hp. simpl. rewrite Hp5, Ht4.
    destruct (FS.isdir (Dir root) styles_root) eqn:Hd.
    + right. by exists x.
    + left. rewrite (loose_stylesheets_not_dir _ Hd). simpl. split; [lia | congruence].
Qed.

End RealPlan.

(** C2.  A simulate-only run leaves the file system exactly as it found
    it.  The total of planned operations it reports is the one a real run
    on the same tree reports, whenever both runs get as far as printing a
    report and [os.listdir] fares the same in both. *)
Theorem dry_run_changes_nothing_and_plans_alike dry real t :
  dry_run dry = true → dry_run real = false →
  listdir_fault dry = listdir_fault real →
  let D := script dry t in
  let R := script real t in
  fs D.2 = t
  ∧ (printed_reports D.2 ≠ [] → printed_reports R.2 ≠ [] →
     total_operations (progress D.2) = total_operations (progress R.2)).
Proof.
  intros Hdry Hreal Hfault D R.
  destruct (script_dry dry Hdry t) as [Hfs Hplan]. fold D in Hfs, Hplan.
  split; [done|]. intros HD HR.
  eapply dry_plan_unique; [exact Hfault | by apply Hplan | by apply real_plan].
Qed.


(** ** What the validation of the move mapping records *)

Definition conflict_message (e : path * path) : message :=
  Text ("Both source and destination exist: " ++ Path.to_string e.1
          ++ " -> " ++ Path.to_string e.2)%string.

Definition parent_message (parent : path) : message :=
  Text ("Parent path is a file: " ++ Path.to_string parent)%string.

(** The findings on one entry: both ends exist, or the source exists and a
    regular file sits on the way to the destination. *)
Definition in_conflict (t : node) (e : path * path) : Prop :=
  FS.exists_ t e.1 = true ∧ FS.exists_ t e.2 = true.

Definition parent_is_file (t : node) (e : path * path) : Prop :=
  FS.exists_ t e.1 = true ∧ ∃ a, a ∈ Path.ancestors e.2 ∧ FS.isfile t a = true.

Definition conflict_logged (s : state) (e : path * path) : Prop :=
  (ERROR, conflict_message e) ∈ log s.

Definition parent_logged (s : state) (e : path * path) : Prop :=
  ∃ parent, parent ∈ Path.ancestors e.2 ∧ FS.isfile (fs s) parent = true
            ∧ (ERROR, parent_message parent) ∈ log s.

Lemma quiet_step_logged s s' x : quiet_step s s' → x ∈ log s → x ∈ log s'.
Proof. intros (_ & _ & _ & lg & ->) Hx. apply elem_of_app. by left. Qed.

Lemma validate_entry_post v e s :
  ∃ v' s', validate_entry v e s = (Ok v', s') ∧ quiet_step s s'
    ∧ (issues_found v = true → issues_found v' = true)
    ∧ (in_conflict (fs s) e → issues_found v' = true ∧ conflict_logged s' e)
    ∧ (parent_is_file (fs s) e → issues_found v' = true ∧ parent_logged s' e).
Proof.
  destruct (readonly_validate_loop [e] v s) as [Hq [v0 Hv0]]. simpl in Hq, Hv0.
  rewrite run_bind in Hq, Hv0.
  destruct (validate_entry v e s) as [[v'|x] s'] eqn:Hrun; [|done]. simpl in Hq, Hv0.
  exists v', s'. split; [done|]. split; [done|]. clear Hv0 v0.
  destruct e as [src dst]. unfold validate_entry in Hrun. unfold in_conflict, parent_is_file.
  simpl. revert Hrun. run.
  destruct (FS.exists_ (fs s) src) eqn:E1, (FS.exists_ (fs s) dst) eqn:E2; simpl;
    try (intros [= <- <-]; simpl; split; [done|]; split; [intros [? ?] | intros [? ?]]; done).
  - destruct (List.find (FS.isfile (fs s)) (Path.ancestors dst)) as [parent|] eqn:Hfind; simpl;
      intros [= <- <-]; simpl.
    + apply find_some in Hfind as [Hin Hfile]. apply list_elem_of_In in Hin.
      split; [done|]. split.
      * intros _. split; [done|]. unfold conflict_logged. simpl. set_solver.
      * intros _. split; [done|]. exists parent. simpl. split; [done|]. split; [done|].
        set_solver.
    + split; [by intros ->|]. split.
      * intros _. split; [apply orb_true_r|]. unfold conflict_logged. simpl. set_solver.
      * intros [_ (a & Ha & Hfile)]. apply list_elem_of_In in Ha.
        by rewrite (find_none _ _ Hfind a Ha) in Hfile.
  - destruct (List.find (FS.isfile (fs s)) (Path.ancestors dst)) as [parent|] eqn:Hfind; simpl;
      intros [= <- <-]; simpl.
    + apply find_some in Hfind as [Hin Hfile]. apply list_elem_of_In in Hin.
      split; [done|]. split; [by intros [_ ?]|].
      intros _. split; [done|]. exists parent. simpl. split; [done|]. split; [done|].
      set_solver.
    + split; [intros ->; done|]. split; [by intros [_ ?]|].
      intros [_ (a & Ha & Hfile)]. apply list_elem_of_In in Ha.
      by rewrite (find_none _ _ Hfind a Ha) in Hfile.
Qed.

Lemma parent_logged_later s s' e : quiet_step s s' → parent_logged s e → parent_logged s' e.
Proof.
  intros Hq (parent & Hin & Hfile & Hlog). exists parent. split; [done|].
  destruct Hq as (Hfs & Hq). rewrite Hfs. split; [done|].
  destruct Hq as (_ & _ & lg & ->). apply elem_of_app. by left.
Qed.

Lemma validate_loop_post l v s :
  ∃ v' s', validate_loop l v s = (Ok v', s') ∧ quiet_step s s'
    ∧ (issues_found v = true → issues_found v' = true)
    ∧ (∀ e, e ∈ l → in_conflict (fs s) e → issues_found v' = true ∧ conflict_logged s' e)
    ∧ (∀ e, e ∈ l → parent_is_file (fs s) e → issues_found v' = true ∧ parent_logged s' e).
Proof.
  revert v s. induction l as [|e r IH]; intros v s.
  - exists v, s. split; [done|]. split; [apply quiet_step_refl|]. split; [done|].
    split; intros e He; by apply elem_of_nil in He.
  - destruct (validate_entry_post v e s) as (v1 & s1 & Hrun1 & Hq1 & Hi1 & Hc1 & Hp1).
    destruct (IH v1 s1) as (v' & s' & Hrun & Hq & Hi & Hc & Hp).
    exists v', s'. simpl. rewrite run_bind, Hrun1. split; [done|].
    split; [by eapply quiet_step_trans|]. split; [tauto|].
    assert (fs s1 = fs s) as Hfs by apply Hq1.
    split; intros e0 [-> | He0]%elem_of_cons Hfound.
    + destruct (Hc1 Hfound) as [Hv1 Hlog]. split; [tauto|].
      by apply (quiet_step_logged s1).
    + apply Hc; [done|]. by rewrite Hfs.
    + destruct (Hp1 Hfound) as [Hv1 Hlog]. split; [tauto|].
      by apply (parent_logged_later s1).
    + apply Hp; [done|]. by rewrite Hfs.
Qed.

(** [validate_file_moves] always returns, and changes neither the file
    system nor the progress tracker nor what is printed: it only logs.  For
    every pair of the mapping whose source and destination both exist it
    logs the conflict as an error, for every pair whose source exists and
    whose destination has a regular file among its ancestors it logs that
    ancestor as an error, and in both cases it returns [False]. *)
Lemma validate_file_moves_findings s :
  ∃ ok s', validate_file_moves s = (Ok ok, s')
    ∧ fs s' = fs s ∧ progress s' = progress s ∧ stdout s' = stdout s
    ∧ (∀ e, e ∈ FILE_MOVES → in_conflict (fs s) e → ok = false ∧ conflict_logged s' e)
    ∧ (∀ e, e ∈ FILE_MOVES → parent_is_file (fs s) e → ok = false ∧ parent_logged s' e).
Proof.
  destruct (readonly_validate_file_moves s) as [Hq [ok Hok]].
  destruct (validate_file_moves s) as [r s'] eqn:Hrun. simpl in Hq, Hok. subst r.
  exists ok, s'. split; [done|].
  destruct Hq as (Hfs & Hp & Ho & _). repeat (split; [done|]).
  unfold validate_file_moves in Hrun. rewrite run_bind in Hrun.
  destruct (validate_loop_post FILE_MOVES
              {| issues_found := false; already_moved := []; missing_sources := [] |} s)
    as (v & s1 & Hrun1 & Hq1 & _ & Hc & Hpar).
  rewrite Hrun1 in Hrun.
  assert (ok = negb (issues_found v) ∧ quiet_step s1 s') as [-> Hq2].
  { revert Hrun. generalize (already_moved v) (missing_sources v). intros am ms.
    rewrite run_bind.
    match goal with |- context [match ?m s1 with _ => _ end] =>
      assert (readonly m) as Hr1 end.
    { unfold logging_info. quietly. }
    destruct (Hr1 s1) as [Hqa [[] Ha]].
    destruct (_ s1) as [ra sa]. simpl in Hqa, Ha. subst ra.
    rewrite run_bind.
    match goal with |- context [match ?m sa with _ => _ end] =>
      assert (readonly m) as Hr2 end.
    { unfold logging_warning. quietly. }
    destruct (Hr2 sa) as [Hqb [[] Hb]].
    destruct (_ sa) as [rb sb]. simpl in Hqb, Hb. subst rb.
    intros [= <- <-]. split; [done|]. by eapply quiet_step_trans. }
  split.
  - intros e He Hfound. destruct (Hc e He Hfound) as [-> Hlog]. split; [done|].
    by apply (quiet_step_logged s1).
  - intros e He Hfound. destruct (Hpar e He Hfound) as [-> Hlog]. split; [done|].
    by apply (parent_logged_later s1).
Qed.

(** A project in which one mapped file is at its source and at its
    destination, and another is ready to move. *)
Definition conflicting_project : node :=
  tree ["src/components/factions"; "src/styles"]
       [ ("src/components/factions/FactionAI.tsx", "export const ai = 1;");
         ("src/components/ships/factions/FactionAI.tsx", "export const ai = 2;");
         ("src/config/playerShipStats.ts", "export const hp = 9;") ].

(** A project with a mapped file at its source and at its destination, and
    a regular file where the directory [src/hooks/factions] of a
    destination belongs, the source of that pair being there. *)
Definition barred_project : node :=
  tree ["src/components/factions"; "src/styles"]
       [ ("src/components/factions/FactionAI.tsx", "export const ai = 1;");
         ("src/components/ships/factions/FactionAI.tsx", "export const ai = 2;");
         ("src/hooks/factions", "not a directory");
         ("src/hooks/useFleetAI.ts", "export const fleet = 1;") ].

(** A project without [src/components/factions], a mapped file at its
    source and at its destination. *)
Definition unvalidated_project : node :=
  tree ["src/components"]
       [ ("src/config/playerShipStats.ts", "export const hp = 9;");
         ("src/config/ships/playerShipStats.ts", "export const hp = 8;") ].

(** A project in which a regular file sits where the directory [src/hooks]
    of several destinations belongs, their sources missing. *)
Definition blocked_project : node :=
  tree ["src/components/factions"] [ ("src/hooks", "not a directory") ].


(** ** A tree on which nothing is left to do *)

(** The skeleton is in place, no entry of the mapping is ready to move and
    no stylesheet is loose. *)
Definition settled (t : node) : Prop :=
  (∀ d, d ∈ NEW_DIRS → skeleton_ok t d)
  ∧ moves_needed t = [] ∧ loose_stylesheets t = [].

Lemma loop_post_nil_fs s s' : loop_post [] s s' → fs s' = fs s.
Proof.
  intros P. assert (FS.lookup (fs s') [] = FS.lookup (fs s) []) as H.
  { apply (lp_frame _ _ _ P). by intros e ?%elem_of_nil. }
  simpl in H. congruence.
Qed.

(** The skeleton below [src/styles]: the directory itself and its three
    buckets. *)
Lemma skeleton_below_styles d :
  d ∈ NEW_DIRS → Path.is_prefix styles_root d = true →
  d = styles_root ∨ ∃ c, c ∈ categories ∧ d = Path.join styles_root c.
Proof.
  assert (forallb (fun d => negb (Path.is_prefix styles_root d)
                            || same_path d styles_root
                            || existsb (fun c => same_path d (Path.join styles_root c)) categories)
                  NEW_DIRS = true) as H by (vm_compute; reflexivity).
  intros Hd Hp. rewrite forallb_forall in H. apply list_elem_of_In, H in Hd.
  rewrite Hp in Hd. cbn [negb orb] in Hd. apply orb_prop in Hd as [Hd | Hd].
  - left. by apply same_path_eq.
  - right. apply existsb_exists in Hd as (c & Hc & Hd). exists c.
    split; [by apply list_elem_of_In | by apply same_path_eq].
Qed.

Section Settled.

Variable env : environment.
Hypothesis real : dry_run env = false.

Lemma skeleton_ok_with_backup root es d :
  d ∈ NEW_DIRS → skeleton_ok (Dir root) d →
  skeleton_ok (Dir (<[backup_name env := Dir es]> root)) d.
Proof.
  intros Hd. apply skeleton_ok_kind. intros q Hq.
  destruct q as [|c r]; [simpl; eauto|]. apply eq_kind_le.
  destruct (NEW_DIRS_under_src d Hd) as [r' ->]. simpl in Hq.
  destruct (String.eqb_spec c "src") as [-> | ?]; [|done].
  apply lookup_root_insert; [done|]. simpl. intros Heq. by apply (backup_name_not_src env).
Qed.

(** A real run on a settled tree changes nothing and plans nothing. *)
Lemma run_on_settled t :
  listdir_fault env = None → settled t →
  let R := script env t in
  fs R.2 = t ∧ total_operations (progress R.2) = 0.
Proof.
  intros Hfault (Hsk & Hmn & Hloose) R.
  destruct (script_real env real t)
    as [(Hfs & Hp & _) | (root & es & s2 & s3 & s4 & r5 & s5 & -> & Hsrc & Hbk & Hfs2 & _ & _
                          & H3 & H4 & H5 & Hcase)]; fold R in Hfs, Hp || fold R in Hcase.
  { split; [done|]. by rewrite Hp. }
  assert (∀ p c r, p = "src"%string :: c :: r → FS.lookup (fs s2) p = FS.lookup (Dir root) p)
    as Hin.
  { intros p c r ->. rewrite Hfs2. apply lookup_root_insert; [done|]. simpl.
    intros Heq. by apply (backup_name_not_src env). }
  assert (fs s3 = fs s2) as Hfs3.
  { destruct (create_new_directories_post env real s2) as (s0 & Hrun0 & _ & _ & _ & _ & _ & Hnoop).
    rewrite H3 in Hrun0. injection Hrun0 as <-. apply Hnoop. intros d Hd. rewrite Hfs2.
    apply skeleton_ok_with_backup; [done | by apply Hsk]. }
  destruct (process_file_moves_post env real s3) as (s0 & Hrun0 & Ht4 & _ & P4).
  rewrite H4 in Hrun0. injection Hrun0 as <-.
  assert (moves_needed (fs s3) = []) as Hmn3.
  { rewrite <- Hmn. apply moves_needed_ext. intros p Hp. rewrite Hfs3.
    destruct (table_path_deep _ Hp) as (c & r & Hcr). by eapply Hin. }
  rewrite Hmn3 in Ht4, P4. apply loop_post_nil_fs in P4 as Hfs4. simpl in Ht4.
  assert (loose_stylesheets (fs s4) = []) as Hl4.
  { apply nil_length_inv. rewrite (loose_stylesheets_length (Dir root) (fs s4)).
    - by rewrite Hloose.
    - intros x. apply is_css_of_lookup. rewrite Hfs4, Hfs3. by eapply Hin. }
  destruct (reorganize_styles_post env real s4) as (r0 & s0 & Hrun0 & _ & Hpost).
  rewrite H5 in Hrun0. injection Hrun0 as <- <-.
  destruct Hpost as [(-> & Ht5 & _ & P5) | (x & _ & Hx & _)]; [|congruence].
  rewrite Hl4 in Ht5, P5. apply loop_post_nil_fs in P5 as Hfs5. simpl in Ht5.
  destruct Hcase as [(y & [=] & _) | (_ & root5 & Hroot5 & Hfs & Hcase)].
  rewrite Hfs5, Hfs4, Hfs3, Hfs2 in Hroot5. injection Hroot5 as <-.
  rewrite Hfs, delete_insert_id by done. split; [done|].
  destruct Hcase as [(Hpos & _) | (_ & _ & _ & ->)]; [lia|]. simpl. lia.
Qed.

(** After a run that went through the tree is settled. *)
Lemma settled_after_success t :
  let R := script env t in succeeded R → settled (fs R.2).
Proof.
  intros R Hok.
  destruct (script_real env real t)
    as [(_ & _ & Hnil) | (root & es & s2 & s3 & s4 & r5 & s5 & -> & Hsrc & Hbk & Hfs2 & _ & _
                          & H3 & H4 & H5 & Hcase)]; fold R in Hnil || fold R in Hcase.
  { by destruct Hok as (_ & ? & _). }
  pose proof Hok as (_ & Hpr & Herr).
  destruct Hcase as [(y & _ & _ & Hp & _) | (-> & root5 & Hfs5 & Hfs & Hcase)].
  { rewrite Hp in Herr. simpl in Herr. by destruct (errors (progress s5)). }
  destruct Hcase as [(_ & _ & Hp & _) | (_ & _ & Hno & _)]; [|done].
  rewrite Hp in Herr.
  assert (∀ p c r, p = "src"%string :: c :: r → FS.lookup (fs R.2) p = FS.lookup (fs s5) p)
    as Hout.
  { intros p c r ->. rewrite Hfs, Hfs5. apply lookup_root_delete; [done|]. simpl.
    intros Heq. by apply (backup_name_not_src env). }
  destruct (process_file_moves_post env real s3) as (s0 & Hrun0 & _ & _ & P4).
  rewrite H4 in Hrun0. injection Hrun0 as <-.
  destruct (reorganize_styles_post env real s4) as (r0 & s0 & Hrun0 & _ & Hpost).
  rewrite H5 in Hrun0. injection Hrun0 as <- <-.
  destruct Hpost as [(_ & _ & _ & P5) | (x & [=] & _)].
  split; [|split].
  - intros d Hd.
    destruct (create_new_directories_post env real s2) as (s0 & Hrun0 & _ & _ & _ & _ & Hsk & _).
    rewrite H3 in Hrun0. injection Hrun0 as <-.
    apply (skeleton_ok_kind (fs s3)); [|by apply Hsk]. intros q Hq.
    apply (kind_le_trans _ (FS.lookup (fs s4) q)); [|apply (kind_le_trans _ (FS.lookup (fs s5) q))].
    + apply (lp_kind _ _ _ P4). intros e He. apply moves_needed_spec in He as [He _].
      destruct (table_paths_of_entry e He) as [H1 H2]. split.
      * destruct (Path.is_prefix e.1 q) eqn:E; [|done].
        pose proof (is_prefix_trans _ _ _ E Hq) as Hbad.
        by rewrite (table_path_not_skeleton _ _ H1 Hd) in Hbad.
      * destruct (Path.is_prefix e.2 q) eqn:E; [|done].
        pose proof (is_prefix_trans _ _ _ E Hq) as Hbad.
        by rewrite (table_path_not_skeleton _ _ H2 Hd) in Hbad.
    + apply (lp_kind _ _ _ P5). intros e (x & -> & Hx)%list_elem_of_fmap.
      apply elem_of_loose_stylesheets, css_name_not_category in Hx.
      unfold css_move. simpl. split.
      * destruct (Path.is_prefix (Path.join styles_root x) q) eqn:E; [|done]. exfalso.
        pose proof (is_prefix_trans _ _ _ E Hq) as Hxd.
        pose proof (is_prefix_trans _ _ _ (is_prefix_app styles_root [x]) Hxd) as Hsd.
        destruct (skeleton_below_styles d Hd Hsd) as [-> | (c & Hc & ->)]; [done|].
        unfold Path.join, styles_root in Hxd. simpl in Hxd.
        destruct (String.eqb_spec x c) as [-> | ?]; done.
      * destruct (Path.is_prefix (Path.join (Path.join styles_root (category_of x)) x) q) eqn:E;
          [|done]. exfalso.
        pose proof (is_prefix_trans _ _ _ E Hq) as Hxd.
        pose proof (is_prefix_trans _ _ _
                      (is_prefix_app styles_root [category_of x; x]) Hxd) as Hsd.
        destruct (skeleton_below_styles d Hd Hsd) as [-> | (c & Hc & ->)]; [done|].
        unfold Path.join, styles_root in Hxd. simpl in Hxd.
        destruct (String.eqb (category_of x) c); done.
    + destruct q as [|c r]; [rewrite Hfs, Hfs5; simpl; eauto|]. apply eq_kind_le.
      destruct (NEW_DIRS_under_src d Hd) as [r' ->]. simpl in Hq.
      destruct (String.eqb_spec c "src") as [-> | ?]; [|done].
      rewrite Hfs, Hfs5. apply lookup_root_delete; [done|]. simpl.
      intros Heq. by apply (backup_name_not_src env).
  - destruct (moves_needed (fs R.2)) as [|e l] eqn:Hmn; [done|]. exfalso.
    assert (e ∈ moves_needed (fs R.2)) as He by (rewrite Hmn; left).
    apply moves_needed_spec in He as (He & E1 & E2).
    destruct (entry_course env real (Dir root) e He) as [[[A1 A2] Hnot] | (_ & _ & A1 & _)];
      fold R in A1, A2 || fold R in A1.
    + apply (Hnot Hok).
      * by rewrite <- (exists_of_lookup _ _ _ A1).
      * by rewrite <- (exists_of_lookup _ _ _ A2).
    + apply exists_true in E1 as [_ [v Hv]]. congruence.
  - assert (∀ x, is_css (fs R.2) x = false) as Hnone.
    { intros x. rewrite (is_css_of_lookup (fs s5) (fs R.2)) by (by eapply Hout).
      destruct (is_css (fs s4) x) eqn:E4.
      - assert (css_move x ∈ css_move <$> loose_stylesheets (fs s4)) as Hin.
        { apply list_elem_of_fmap. exists x. split; [done|]. by apply elem_of_loose_stylesheets. }
        destruct (is_css (fs s5) x) eqn:E5; [|done]. exfalso.
        unfold is_css in E4, E5. apply andb_prop in E4 as [E4 _], E5 as [E5 _].
        apply isfile_true in E4 as (Hne & d4 & E4), E5 as (_ & d5 & E5).
        destruct (lp_each _ _ _ P5 _ Hin) as [(_ & _ & Hgrow) | (_ & Hgone & _)].
        + assert (FS.exists_ (fs s4) (css_move x).1 = true) as Hex
            by (apply exists_true; split; [done | eauto]).
          specialize (Hgrow Hex). rewrite Herr in Hgrow. simpl in Hgrow. lia.
        + change (css_move x).1 with (Path.join styles_root x) in Hgone. congruence.
      - destruct (is_css (fs s5) x) eqn:E5; [|done]. exfalso.
        assert (is_css (fs s5) x = is_css (fs s4) x) as Heq; [|congruence].
        apply is_css_of_lookup. apply (lp_frame _ _ _ P5).
        intros e (y & -> & Hy)%list_elem_of_fmap. apply elem_of_loose_stylesheets in Hy.
        assert (far (css_move x) (css_move y) = true) as Hfar.
        { apply far_css_moves; [intros ->; congruence | by eapply css_name_not_category..]. }
        apply far_spec in Hfar. simpl in Hfar. tauto. }
    destruct (loose_stylesheets (fs R.2)) as [|x l] eqn:Hl; [done|]. exfalso.
    assert (x ∈ loose_stylesheets (fs R.2)) as Hx by (rewrite Hl; left).
    apply elem_of_loose_stylesheets in Hx. by rewrite Hnone in Hx.
Qed.

End Settled.

(** C8.  After a non-simulate run that went through, the tree is settled:
    no entry of the mapping is ready to move and no stylesheet is loose.  A
    second non-simulate run, with [os.listdir] working, therefore plans no
    operation and leaves the file system exactly as the first run left
    it. *)
Theorem second_run_changes_nothing env env' t :
  dry_run env = false → dry_run env' = false → listdir_fault env' = None →
  let R := script env t in
  succeeded R →
  let R' := script env' (fs R.2) in
  fs R'.2 = fs R.2
  ∧ total_operations (progress R'.2) = 0
  ∧ moves_needed (fs R.2) = []
  ∧ loose_stylesheets (fs R.2) = [].
Proof.
  intros real real' Hfault R Hok R'.
  pose proof (settled_after_success env real t Hok) as Hset. fold R in Hset.
  destruct (run_on_settled env' real' (fs R.2) Hfault Hset) as [Hfs Htot].
  destruct Hset as (_ & Hmn & Hloose). done.
Qed.


(** ** The arithmetic of the capacity check *)

Section Binary64.

#[local] Open Scope Z_scope.

Lemma digits2_pos_bounds p :
  2 ^ (Z.pos (digits2_pos p) - 1) ≤ Z.pos p < 2 ^ Z.pos (digits2_pos p).
Proof.
  induction p as [p IH | p IH |]; simpl digits2_pos.
  - rewrite Pos2Z.inj_succ.
    replace (Z.succ (Z.pos (digits2_pos p)) - 1) with (Z.succ (Z.pos (digits2_pos p) - 1)) by lia.
    rewrite !Z.pow_succ_r by lia. lia.
  - rewrite Pos2Z.inj_succ.
    replace (Z.succ (Z.pos (digits2_pos p)) - 1) with (Z.succ (Z.pos (digits2_pos p) - 1)) by lia.
    rewrite !Z.pow_succ_r by lia. lia.
  - simpl. lia.
Qed.

Lemma digits2_pos_unique p d :
  2 ^ (d - 1) ≤ Z.pos p < 2 ^ d → Z.pos (digits2_pos p) = d.
Proof.
  intros [Hlo Hhi]. pose proof (digits2_pos_bounds p) as [Blo Bhi].
  set (d' := Z.pos (digits2_pos p)) in *.
  assert (0 < d) as Hd.
  { destruct (Z.ltb_spec 0 d); [done|]. exfalso.
    destruct (Z.eq_dec d 0) as [-> | ?]; [simpl in Hhi; lia|].
    rewrite Z.pow_neg_r in Hhi by lia. lia. }
  destruct (Z.lt_trichotomy d' d) as [Hlt | [Heq | Hgt]]; [|done|].
  - assert (2 ^ d' ≤ 2 ^ (d - 1)) by (apply Z.pow_le_mono_r; lia). lia.
  - assert (2 ^ d ≤ 2 ^ (d' - 1)) by (apply Z.pow_le_mono_r; lia). lia.
Qed.

Lemma iter_xO_value p k : Z.pos (Pos.iter xO p k) = Z.pos p * 2 ^ Z.pos k.
Proof.
  induction k as [|k IH] using Pos.peano_ind.
  - simpl. lia.
  - rewrite Pos.iter_succ, Pos2Z.inj_succ, Z.pow_succ_r by lia. change (Z.pos (Pos.iter xO p k)~0) with (2 * Z.pos (Pos.iter xO p k)). rewrite IH. lia.
Qed.

(** A record of [shr] stands for the quotient of [N] by [T], the
    remainder being told from half of [T] by the two bits. *)
Definition shifted (N T : Z) (x : shr_record) : Prop :=
  ∃ ρ, N = shr_m x * T + ρ ∧ 0 ≤ ρ < T ∧ 0 ≤ shr_m x
       ∧ shr_r x = (T <=? 2 * ρ)
       ∧ shr_s x = negb (ρ =? 0) && negb (2 * ρ =? T).

Ltac decide_tests :=
  repeat match goal with
         | |- context [?a <=? ?b] => destruct (Z.leb_spec a b)
         | |- context [?a =? ?b] => destruct (Z.eqb_spec a b)
         | H : context [?a <=? ?b] |- _ => destruct (Z.leb_spec a b)
         | H : context [?a =? ?b] |- _ => destruct (Z.eqb_spec a b)
         end; simpl in *; try lia; try done.

Lemma shr_1_shifted N T x : 0 < T → shifted N T x → shifted N (2 * T) (shr_1 x).
Proof.
  intros HT (ρ & HN & Hρ & Hm & Hr & Hs). destruct x as [m r s]. simpl in *.
  destruct m as [|[p|p|]|p]; simpl; try lia.
  - exists ρ. simpl. split; [lia|]. split; [lia|]. split; [lia|]. subst r s.
    split; decide_tests.
  - exists (T + ρ). simpl. split; [lia|]. split; [lia|]. split; [lia|]. subst r s.
    split; decide_tests.
  - exists ρ. simpl. split; [lia|]. split; [lia|]. split; [lia|]. subst r s.
    split; decide_tests.
  - exists (T + ρ). simpl. split; [lia|]. split; [lia|]. split; [lia|]. subst r s.
    split; decide_tests.
Qed.

Lemma iter_shr_1_shifted n N T x :
  0 < T → shifted N T x → shifted N (T * 2 ^ Z.pos n) (SpecFloat.iter_pos shr_1 n x).
Proof.
  revert T x. induction n as [n IH | n IH |]; intros T x HT Hx; simpl SpecFloat.iter_pos.
  - apply shr_1_shifted in Hx; [|done]. apply IH in Hx; [|lia].
    apply IH in Hx; [|apply Z.mul_pos_pos; [lia | apply Z.pow_pos_nonneg; lia]].
    replace (T * 2 ^ Z.pos n~1) with (2 * T * 2 ^ Z.pos n * 2 ^ Z.pos n); [done|].
    replace (Z.pos n~1) with (Z.pos n + Z.pos n + 1) by lia.
    rewrite !Z.pow_add_r by lia. change (2 ^ 1) with 2. lia.
  - apply IH in Hx; [|lia].
    apply IH in Hx; [|apply Z.mul_pos_pos; [lia | apply Z.pow_pos_nonneg; lia]].
    replace (T * 2 ^ Z.pos n~0) with (T * 2 ^ Z.pos n * 2 ^ Z.pos n); [done|].
    replace (Z.pos n~0) with (Z.pos n + Z.pos n) by lia.
    rewrite !Z.pow_add_r by lia. lia.
  - apply shr_1_shifted in Hx; [|done]. change (2 ^ 1) with 2.
    by replace (T * 2) with (2 * T) by lia.
Qed.

(** Rounding to nearest, ties to even: at most half of [T] below [N], and
    not above a multiple of [T] that [N] does not exceed. *)
Lemma round_nearest_even_shifted N T x :
  0 < T → shifted N T x →
  let q := round_nearest_even (shr_m x) (loc_of_shr_record x) in
  shr_m x ≤ q ≤ shr_m x + 1
  ∧ 2 * N - T ≤ 2 * (q * T)
  ∧ ∀ M, N ≤ M * T → q ≤ M.
Proof.
  intros HT (ρ & HN & Hρ & Hm & Hr & Hs). destruct x as [m r s]. simpl in *.
  assert (∀ M, N ≤ M * T → m ≤ M) as Hfloor by (intros M HM; nia).
  assert (∀ M, N ≤ M * T → 0 < ρ → m + 1 ≤ M) as Hceil by (intros M HM Hpos; nia).
  destruct r, s; simpl; revert Hr Hs; decide_tests; intros _ _.
  - split; [lia|]. split; [nia|]. intros M HM. apply Hceil; [done | lia].
  - destruct (Z.even m); (split; [lia|]); (split; [nia|]); intros M HM;
      [by apply Hfloor | apply Hceil; [done | lia]].
  - split; [lia|]. split; [nia|]. done.
  - split; [lia|]. split; [nia|]. done.
Qed.

Lemma shr_fexp_none m e :
  Z.pos (digits2_pos m) = 53 → -1074 ≤ e →
  shr_fexp 53 1024 (Z.pos m) e loc_Exact = (Build_shr_record (Z.pos m) false false, e).
Proof.
  intros Hd He. unfold shr_fexp, fexp, emin. simpl Zdigits2. rewrite Hd.
  replace (Z.max (53 + e - 53) (3 - 1024 - 53) - e) with 0 by lia. done.
Qed.

(** The carry of a rounding that reaches [2 ^ 53]. *)
Lemma shr_fexp_carry e :
  -1074 ≤ e →
  shr_fexp 53 1024 (2 ^ 53) e loc_Exact = (Build_shr_record (2 ^ 52) false false, e + 1).
Proof.
  intros He. unfold shr_fexp, fexp, emin.
  replace (Zdigits2 (2 ^ 53)) with 54 by (vm_compute; reflexivity).
  replace (Z.max (54 + e - 53) (3 - 1024 - 53) - e) with 1 by lia. reflexivity.
Qed.

(** A mantissa of 53 bits is kept as it is. *)
Lemma binary_round_aux_exact m e :
  Z.pos (digits2_pos m) = 53 → -1074 ≤ e ≤ 971 →
  binary_round_aux 53 1024 false (Z.pos m) e loc_Exact = S754_finite false m e.
Proof.
  intros Hd He. unfold binary_round_aux. rewrite shr_fexp_none by (done || lia).
  simpl. rewrite shr_fexp_none by (done || lia). simpl.
  change (1024 - 53) with 971. destruct (Z.leb_spec e 971); [done | lia].
Qed.

(** A longer mantissa [N] is shifted down to 53 bits and rounded: the
    result stands for [Q] units of [2 ^ E]. *)
Lemma binary_round_aux_shift N e :
  let D := Z.pos (digits2_pos N) in
  let T := 2 ^ (D - 53) in
  let E := e + (D - 53) in
  53 < D → -1074 ≤ E → E < 971 →
  ∃ q e' Q,
    binary_round_aux 53 1024 false (Z.pos N) e loc_Exact = S754_finite false q e'
    ∧ E ≤ e' ≤ E + 1
    ∧ Z.pos q * 2 ^ (e' - E) = Q
    ∧ 2 * Z.pos N - T ≤ 2 * (Q * T)
    ∧ ∀ M, Z.pos N ≤ M * T → Q ≤ M.
Proof.
  intros D T E HD HE1 HE2.
  assert (0 < T) as HT by (apply Z.pow_pos_nonneg; lia).
  unfold binary_round_aux. unfold shr_fexp at 1. unfold fexp, emin. simpl Zdigits2. fold D.
  replace (Z.max (D + e - 53) (3 - 1024 - 53) - e) with (D - 53) by lia.
  destruct (D - 53) as [|k|k] eqn:Hk; try lia. unfold shr.
  assert (shifted (Z.pos N) 1 (shr_record_of_loc (Z.pos N) loc_Exact)) as Hs.
  { exists 0. simpl. repeat split; lia. }
  apply (iter_shr_1_shifted k) in Hs; [|lia]. rewrite Z.mul_1_l in Hs. fold T in Hs.
  set (x := SpecFloat.iter_pos shr_1 k _) in *.
  destruct (round_nearest_even_shifted _ _ _ HT Hs) as (Hq & Hlow & Hup).
  set (Q := round_nearest_even (shr_m x) (loc_of_shr_record x)) in *.
  assert (2 ^ 52 ≤ shr_m x < 2 ^ 53) as Hm.
  { destruct Hs as (ρ & HN & Hρ & _). pose proof (digits2_pos_bounds N) as [Blo Bhi].
    fold D in Blo, Bhi.
    assert (2 ^ (D - 1) = 2 ^ 52 * T) as E1
      by (unfold T; rewrite <- Z.pow_add_r by lia; f_equal; lia).
    assert (2 ^ D = 2 ^ 53 * T) as E2
      by (unfold T; rewrite <- Z.pow_add_r by lia; f_equal; lia).
    rewrite E1 in Blo. rewrite E2 in Bhi. split; nia. }
  replace (e + Z.pos k) with E by lia.
  destruct (Z.eq_dec Q (2 ^ 53)) as [HQ | HQ].
  - rewrite HQ, shr_fexp_carry by lia. exists (2 ^ 52)%positive, (E + 1), Q.
    cbn [shr_m]. change (1024 - 53) with 971. destruct (Z.leb_spec (E + 1) 971); [|lia].
    split; [done|]. split; [lia|]. replace (E + 1 - E) with 1 by lia.
    split; [by rewrite HQ|]. done.
  - destruct Q as [|q|q] eqn:HQq; try lia.
    assert (Z.pos (digits2_pos q) = 53) as Hdq.
    { apply digits2_pos_unique. change (53 - 1) with 52. lia. }
    rewrite shr_fexp_none by (done || lia). simpl.
    change (1024 - 53) with 971. destruct (Z.leb_spec E 971); [|lia].
    exists q, E, (Z.pos q). split; [done|]. split; [lia|].
    rewrite Z.sub_diag. split; [simpl; lia|]. done.
Qed.

(** [float(n)] for a positive [n] below [2 ^ 53]: exact. *)
Lemma of_int_small p :
  let d := Z.pos (digits2_pos p) in
  d < 53 →
  ∃ mz, Float.of_int (Z.pos p) = Ok (S754_finite false mz (d - 53))
        ∧ Z.pos mz = Z.pos p * 2 ^ (53 - d)
        ∧ 2 ^ 52 ≤ Z.pos mz < 2 ^ 53.
Proof.
  intros d Hd. pose proof (digits2_pos_bounds p) as [Blo Bhi]. fold d in Blo, Bhi.
  assert (0 < d) as Hd0 by (unfold d; lia).
  unfold Float.of_int, binary_normalize, binary_round, shl_align, fexp, emin,
    Float.prec, Float.emax.
  fold d. replace (Z.max (d + 0 - 53) (3 - 1024 - 53) - 0) with (d - 53) by lia.
  replace (Z.max (d + 0 - 53) (3 - 1024 - 53)) with (d - 53) by lia.
  destruct (d - 53) as [|k|k] eqn:Hk; try lia.
  assert (Z.pos (Pos.iter xO p k) = Z.pos p * 2 ^ (53 - d)) as Hval.
  { rewrite iter_xO_value. f_equal. f_equal. lia. }
  assert (2 ^ 52 ≤ Z.pos (Pos.iter xO p k) < 2 ^ 53) as Hb.
  { rewrite Hval.
    assert (2 ^ 52 = 2 ^ (d - 1) * 2 ^ (53 - d)) as ->
      by (rewrite <- Z.pow_add_r by lia; f_equal; lia).
    assert (2 ^ 53 = 2 ^ d * 2 ^ (53 - d)) as ->
      by (rewrite <- Z.pow_add_r by lia; f_equal; lia).
    assert (0 < 2 ^ (53 - d)) by (apply Z.pow_pos_nonneg; lia). split; nia. }
  rewrite binary_round_aux_exact.
  - exists (Pos.iter xO p k). done.
  - apply digits2_pos_unique. change (53 - 1) with 52. done.
  - lia.
Qed.

(** The comparison behind the gate, on integers. *)
Lemma gate_arith n A F Q T Y N :
  0 ≤ n → 8 ≤ A → n * A < 2 ^ 53 → 0 < T ≤ 2 ^ 53 → 0 < Y →
  N = n * A * 5404319552844595 → Y * T = 2 ^ 52 * A →
  2 * N - T ≤ 2 * (Q * T) → (∀ M, N ≤ M * T → Q ≤ M) →
  F * Y < Q ↔ 5 * F < 6 * n.
Proof.
  change (2 ^ 53) with 9007199254740992. change (2 ^ 52) with 4503599627370496.
  intros Hn HA HnA HT HY -> HYT Hlow Hup.
  assert (0 ≤ n * A) as HnA0 by (apply Z.mul_nonneg_nonneg; lia).
  split.
  - intros H1. destruct (Z.lt_ge_cases (5 * F) (6 * n)) as [|Hge]; [done|]. exfalso.
    assert (Q ≤ F * Y); [|lia]. apply Hup.
    replace (F * Y * T) with (F * (Y * T)) by lia. rewrite HYT.
    assert (6 * n * A ≤ 5 * F * A) by (apply Z.mul_le_mono_nonneg_r; lia). lia.
  - intros H2. destruct (Z.lt_ge_cases (F * Y) Q) as [|Hge]; [done|]. exfalso.
    assert (Q * T ≤ F * Y * T) as H3 by (apply Z.mul_le_mono_nonneg_r; lia).
    replace (F * Y * T) with (F * (Y * T)) in H3 by lia. rewrite HYT in H3.
    assert (5 * F * A ≤ (6 * n - 1) * A) by (apply Z.mul_le_mono_nonneg_r; lia). lia.
Qed.

(** The capacity gate below [2 ^ 50] bytes: the product of [n] and the
    literal [1.2], as a double, exceeds the free space exactly when six
    fifths of [n] do. *)
Lemma required_space_gate n F :
  0 ≤ n < 2 ^ 50 →
  ∃ r, Float.int_mul n Float.lit_1_2 = Ok r ∧ Float.int_lt F r = (5 * F <? 6 * n).
Proof.
  intros [Hn0 Hn]. destruct n as [|p|p]; [| |lia].
  { exists (S754_zero false). split; [reflexivity|]. simpl.
    destruct (Z.ltb_spec F 0), (Z.ltb_spec (5 * F) 0); lia. }
  set (d := Z.pos (digits2_pos p)).
  pose proof (digits2_pos_bounds p) as [Blo Bhi]. fold d in Blo, Bhi.
  assert (0 < d) as Hd0 by (unfold d; lia).
  assert (d ≤ 50) as Hd.
  { destruct (Z.le_gt_cases d 50); [done|].
    assert (2 ^ 50 ≤ 2 ^ (d - 1)) by (apply Z.pow_le_mono_r; lia). lia. }
  destruct (of_int_small p) as (mz & Hof & Hmz & Hb); [fold d; lia|]. fold d in Hof, Hmz.
  unfold Float.int_mul. rewrite Hof. unfold Float.lit_1_2, SFmul, Float.prec, Float.emax.
  cbn [xorb].
  set (N := (mz * 5404319552844595)%positive).
  set (D := Z.pos (digits2_pos N)).
  pose proof (digits2_pos_bounds N) as [Dlo Dhi]. fold D in Dlo, Dhi.
  assert (Z.pos N = Z.pos mz * 5404319552844595) as HN by (unfold N; lia).
  assert (2 ^ 104 ≤ Z.pos N < 2 ^ 106) as HNb.
  { rewrite HN. change (2 ^ 104) with (2 ^ 52 * 2 ^ 52). change (2 ^ 106) with (2 ^ 53 * 2 ^ 53).
    change (2 ^ 52) with 4503599627370496 in *. change (2 ^ 53) with 9007199254740992 in *.
    split; nia. }
  assert (105 ≤ D ≤ 106) as HD.
  { split.
    - destruct (Z.le_gt_cases 105 D); [done|].
      assert (2 ^ D ≤ 2 ^ 104) by (apply Z.pow_le_mono_r; lia). lia.
    - destruct (Z.le_gt_cases D 106); [done|].
      assert (2 ^ 106 ≤ 2 ^ (D - 1)) by (apply Z.pow_le_mono_r; lia). lia. }
  destruct (binary_round_aux_shift N (d - 53 + -52)) as (q & e' & Q & Hr & He' & HQ & Hlow & Hup);
    fold D; [lia..|]. fold D in He', HQ, Hlow, Hup.
  exists (S754_finite false q e'). split; [by rewrite Hr|].
  set (E := d - 53 + -52 + (D - 53)) in *.
  unfold Float.int_lt. destruct e' as [|k|k] eqn:Hk; try lia.
  assert (0 < 2 ^ Z.pos k) as Hpk by (apply Z.pow_pos_nonneg; lia).
  assert (0 < 2 ^ (Z.neg k - E)) as HW by (apply Z.pow_pos_nonneg; lia).
  assert (2 ^ Z.pos k * 2 ^ (Z.neg k - E) = 2 ^ (- E)) as HY
    by (rewrite <- Z.pow_add_r by lia; f_equal; lia).
  assert (F * 2 ^ (- E) < Q ↔ 5 * F < 6 * Z.pos p) as Hgate.
  { apply (gate_arith (Z.pos p) (2 ^ (53 - d)) F Q (2 ^ (D - 53)) (2 ^ (- E)) (Z.pos N)).
    - lia.
    - change 8 with (2 ^ 3). apply Z.pow_le_mono_r; lia.
    - rewrite <- Hmz. lia.
    - split; [apply Z.pow_pos_nonneg; lia | apply Z.pow_le_mono_r; lia].
    - apply Z.pow_pos_nonneg; lia.
    - rewrite HN, Hmz. done.
    - rewrite <- !Z.pow_add_r by lia. f_equal. unfold E. lia.
    - done.
    - done. }
  assert (F * 2 ^ Z.pos k < Z.pos q ↔ F * 2 ^ (- E) < Q) as Hscale.
  { rewrite <- HQ, <- HY. split; nia. }
  destruct (Z.ltb_spec (F * 2 ^ Z.pos k) (Z.pos q)), (Z.ltb_spec (5 * F) (6 * Z.pos p));
    try done; tauto || (exfalso; tauto) || lia.
Qed.

(** [check_disk_space] below [2 ^ 50] bytes: it only logs, and refuses
    exactly when five times the free space is less than six times the
    bytes asked for. *)
Lemma check_disk_space_gate env (backup : bool) s :
  let n := FS.walk_size ["src"%string] (fs s) * (if backup then 2 else 1) in
  0 ≤ n < 2 ^ 50 →
  ∃ s', check_disk_space env backup s = (Ok (negb (5 * free env <? 6 * n)), s')
        ∧ quiet_step s s'.
Proof.
  intros n Hn. destruct (required_space_gate n (free env) Hn) as (r & Hr & Hlt).
  unfold check_disk_space. rewrite run_try, run_bind.
  change (get_fs s) with (Ok (fs s), s). cbv beta iota. rewrite run_bind. fold n. rewrite Hr.
  change (liftR (Ok r) s) with (Ok r, s). cbv beta iota. rewrite Hlt.
  destruct (5 * free env <? 6 * n); simpl.
  - eexists. split; [reflexivity|]. apply (quiet_logging ERROR _ s).
  - eexists. split; [reflexivity|]. apply quiet_step_refl.
Qed.

End Binary64.

(** [main] gives up when the capacity check refuses. *)
Lemma main_stops_at_gate env s0 :
  (∀ s, fs s = fs s0 → (check_disk_space env (negb (dry_run env)) s).1 = Ok false) →
  ∃ s', main env s0 = (Ok tt, s') ∧ quiet_step (fresh s0) s'.
Proof.
  intros Hgate.
  remember (main env s0) as R eqn:HR. unfold main in HR. rewrite run_bind in HR.
  change (set_progress ProgressTracker_init s0) with (Ok tt, fresh s0) in HR.
  cbv beta iota in HR. rewrite run_bind in HR.
  destruct (readonly_validate_environment (fresh s0)) as [Hq1 [ok Hok]].
  destruct (validate_environment (fresh s0)) as [r1 s1]. simpl in Hq1, Hok. subst r1.
  destruct ok; simpl in HR.
  2:{ eexists. split; [exact HR|]. eapply quiet_step_trans; [exact Hq1|].
      apply (quiet_logging ERROR _ s1). }
  rewrite run_bind in HR.
  destruct (readonly_validate_file_moves s1) as [Hq2 [v Hv]].
  destruct (validate_file_moves s1) as [r2 s2]. simpl in Hq2, Hv. subst r2.
  rewrite run_bind in HR.
  destruct (readonly_check_disk_space env (negb (dry_run env)) s2) as [Hq3 _].
  assert (fs s2 = fs s0) as Hfs.
  { destruct Hq1 as (H1 & _), Hq2 as (H2 & _). by rewrite H2, H1. }
  specialize (Hgate s2 Hfs).
  destruct (check_disk_space env (negb (dry_run env)) s2) as [r3 s3]. simpl in Hq3, Hgate.
  subst r3. simpl in HR.
  eexists. split; [exact HR|].
  eapply quiet_step_trans; [|apply (quiet_logging ERROR _ s3)].
  eapply quiet_step_trans; [|exact Hq3]. eapply quiet_step_trans; eauto.
Qed.

(** C5.  For a source tree of less than [2 ^ 50] bytes to provide for
    (the size of [src], doubled when a backup will be made), the capacity
    check refuses exactly when the free space is less than 1.2 times
    those bytes, and passes otherwise; it changes nothing but the log, and
    when it refuses the run ends with the file system as it was, nothing
    planned and nothing printed. *)
Theorem capacity_gate_below_petabyte env t :
  let n := (FS.walk_size ["src"%string] t * (if dry_run env then 1 else 2))%Z in
  (0 ≤ n < 2 ^ 50)%Z →
  (∀ s, fs s = t →
     ∃ s', check_disk_space env (negb (dry_run env)) s
           = (Ok (negb (5 * free env <? 6 * n)%Z), s')
           ∧ quiet_step s s')
  ∧ ((5 * free env < 6 * n)%Z →
     let R := script env t in
     fs R.2 = t ∧ progress R.2 = ProgressTracker_init ∧ printed_reports R.2 = []).
Proof.
  intros n Hn.
  assert (∀ s, fs s = t →
     ∃ s', check_disk_space env (negb (dry_run env)) s
           = (Ok (negb (5 * free env <? 6 * n)%Z), s')
           ∧ quiet_step s s') as Hcheck.
  { intros s Hs. destruct (check_disk_space_gate env (negb (dry_run env)) s) as (s' & Hrun & Hq).
    - rewrite Hs. unfold n in Hn. by destruct (dry_run env).
    - exists s'. split; [|done]. rewrite Hrun, Hs. unfold n. by destruct (dry_run env). }
  split; [exact Hcheck|]. intros Hshort R. unfold R, script.
  destruct (FS.isdir t ["src"%string]); [|done].
  destruct (main_stops_at_gate env (boot t)) as (s' & Hrun & Hq).
  { intros s Hs. destruct (Hcheck s Hs) as (s' & -> & _). simpl.
    destruct (Z.ltb_spec (5 * free env) (6 * n)); [done | lia]. }
  rewrite Hrun. simpl. destruct Hq as (Hfs & Hp & Ho & _). simpl in Hfs, Hp, Ho.
  split; [done|]. split; [done|]. unfold printed_reports. by rewrite Ho.
Qed.


(** ** Further properties of the program *)

(** *** The directory skeleton *)

(** X1.  [create_new_directories] never raises and is idempotent, with
    or without [--dry-run]: a second call right after the first leaves the
    file system as the first call left it, and neither call touches the
    progress tracker or the standard output. *)
Theorem skeleton_creation_is_idempotent env s :
  ∃ s1 s2,
    create_new_directories env s = (Ok tt, s1)
    ∧ create_new_directories env s1 = (Ok tt, s2)
    ∧ fs s2 = fs s1
    ∧ progress s2 = progress s ∧ stdout s2 = stdout s.
Proof.
  destruct (dry_run env) eqn:Hdry.
  - destruct (create_new_directories_dry env Hdry s) as [Hq1 [[] Hok1]].
    destruct (create_new_directories env s) as [r1 s1] eqn:E1. simpl in Hq1, Hok1. subst r1.
    destruct (create_new_directories_dry env Hdry s1) as [Hq2 [[] Hok2]].
    destruct (create_new_directories env s1) as [r2 s2] eqn:E2. simpl in Hq2, Hok2. subst r2.
    exists s1, s2. destruct Hq1 as (? & ? & ? & _), Hq2 as (? & ? & ? & _).
    repeat split; congruence.
  - destruct (create_new_directories_post env Hdry s)
      as (s1 & Hrun1 & Hp1 & Ho1 & _ & _ & Hok & _).
    destruct (create_new_directories_post env Hdry s1)
      as (s2 & Hrun2 & Hp2 & Ho2 & _ & _ & _ & Hnoop).
    exists s1, s2. repeat split; try done; [by apply Hnoop | congruence..].
Qed.

(** X2.  [create_new_directories] makes directories and nothing else:
    whatever existed keeps its kind, a regular file keeps its contents, no
    regular file appears, and a path that is not at or above a directory of
    the skeleton is as it was.  Without [--dry-run] every directory of the
    skeleton is then in place, unless a regular file sits on its path (the
    failure of [os.makedirs] is logged and the loop goes on). *)
Theorem skeleton_creation_keeps_what_exists env s :
  ∃ s',
    create_new_directories env s = (Ok tt, s')
    ∧ (∀ q, kind_le (FS.lookup (fs s) q) (FS.lookup (fs s') q))
    ∧ (∀ q data, FS.lookup (fs s') q = Some (File data) →
                 FS.lookup (fs s) q = Some (File data))
    ∧ (∀ q, (∀ d, d ∈ NEW_DIRS → Path.is_prefix q d = false) →
            FS.lookup (fs s') q = FS.lookup (fs s) q)
    ∧ (dry_run env = false →
       ∀ d, d ∈ NEW_DIRS →
         FS.isdir (fs s') d = true
         ∨ ∃ q data, Path.is_prefix q d = true ∧ FS.lookup (fs s') q = Some (File data)).
Proof.
  destruct (dry_run env) eqn:Hdry.
  - destruct (create_new_directories_dry env Hdry s) as [Hq1 [[] Hok1]].
    destruct (create_new_directories env s) as [r1 s1]. simpl in Hq1, Hok1. subst r1.
    exists s1. destruct Hq1 as (Hfs & _). rewrite Hfs.
    repeat split; try done. intros q. apply kind_le_refl.
  - destruct (create_new_directories_post env Hdry s)
      as (s1 & Hrun1 & _ & _ & Hframe & Hkind & Hok & _).
    exists s1. split; [done|]. split; [done|].
    split; [intros q data; by apply (skeleton_no_new_file env Hdry s s1)|].
    split; [done|]. intros _ d Hd.
    destruct (Hok d Hd) as [Hdir | Hno]; [by left|]. right. by apply mkdirs_none.
Qed.

(** *** The checks before the migration *)

(** X3.  [validate_environment] accepts exactly when [src],
    [src/components] and [src/components/factions] are directories; it
    changes nothing but the log, to which it adds one error when it
    refuses and nothing when it accepts. *)
Theorem validate_environment_verdict s :
  let ok := FS.isdir (fs s) ["src"%string]
            && FS.isdir (fs s) ["src"%string; "components"%string]
            && FS.isdir (fs s) ["src"%string; "components"%string; "factions"%string] in
  ∃ s',
    validate_environment s = (Ok ok, s')
    ∧ fs s' = fs s ∧ progress s' = progress s ∧ stdout s' = stdout s
    ∧ (if ok then log s' = log s else ∃ m, log s' = log s ++ [(ERROR, Text m)]).
Proof.
  unfold validate_environment, required_dirs. rewrite run_bind.
  change (get_fs s) with (Ok (fs s), s). cbv beta iota. cbn [List.find].
  destruct (FS.isdir (fs s) ["src"%string]); cbn [negb andb];
    [|eexists; split; [reflexivity|]; simpl; repeat split; eauto].
  destruct (FS.isdir (fs s) ["src"%string; "components"%string]); cbn [negb andb];
    [|eexists; split; [reflexivity|]; simpl; repeat split; eauto].
  destruct (FS.isdir (fs s) ["src"%string; "components"%string; "factions"%string]);
    cbn [negb andb]; [by exists s|].
  eexists; split; [reflexivity|]; simpl; repeat split; eauto.
Qed.

(** One line of [check_extra_files] per listed file. *)
Definition extra_file_line (t : node) (f : path) : level * message :=
  if FS.exists_ t f then
    (WARNING, Text ("Extra file found: " ++ Path.to_string f
                      ++ "  —  Consider removing or moving this file.")%string)
  else (INFO, Text ("Extra file not found (OK): " ++ Path.to_string f)%string).

Lemma extra_files_loop (l : list path) s :
  ∃ s', for_each l (fun f =>
          t ← get_fs;
          if FS.exists_ t f then
            logging_warning ("Extra file found: " ++ Path.to_string f
                               ++ "  —  Consider removing or moving this file.")%string
          else logging_info ("Extra file not found (OK): " ++ Path.to_string f)%string) s
        = (Ok tt, s')
    ∧ fs s' = fs s ∧ progress s' = progress s ∧ stdout s' = stdout s
    ∧ log s' = log s ++ (extra_file_line (fs s) <$> l).
Proof.
  revert s. induction l as [|f r IH]; intros s.
  - exists s. simpl. by rewrite app_nil_r.
  - rewrite run_for_each_cons, run_bind. unfold get_fs at 1. cbv beta iota.
    set (s1 := {| fs := fs s; log := log s ++ [extra_file_line (fs s) f];
                  stdout := stdout s; progress := progress s |}).
    assert ((if FS.exists_ (fs s) f
             then logging_warning ("Extra file found: " ++ Path.to_string f
                                     ++ "  —  Consider removing or moving this file.")%string
             else logging_info ("Extra file not found (OK): " ++ Path.to_string f)%string) s
            = (Ok tt, s1)) as ->.
    { unfold s1, extra_file_line. by destruct (FS.exists_ (fs s) f). }
    destruct (IH s1) as (s' & Hrun & Hfs & Hp & Ho & Hlog). exists s'.
    split; [done|]. repeat split; try done. rewrite Hlog. simpl.
    by rewrite <- app_assoc.
Qed.

(** X4.  [check_extra_files] only logs: it returns normally, leaves the
    file system, the tracker and the standard output alone, and adds to
    the log its heading and then one line per listed file, in the order of
    the list: a warning for a file that exists, an information for one that
    does not. *)
Theorem check_extra_files_only_logs s :
  ∃ s',
    check_extra_files s = (Ok tt, s')
    ∧ fs s' = fs s ∧ progress s' = progress s ∧ stdout s' = stdout s
    ∧ log s' = log s
               ++ (INFO, Text "Checking for extra files that may not belong ...")
                  :: (extra_file_line (fs s) <$> EXTRA_WARN_FILES).
Proof.
  unfold check_extra_files. rewrite run_bind. unfold logging_info at 1, logging at 1.
  cbv beta iota.
  destruct (extra_files_loop EXTRA_WARN_FILES
              {| fs := fs s;
                 log := log s ++ [(INFO, Text "Checking for extra files that may not belong ...")];
                 stdout := stdout s; progress := progress s |})
    as (s' & Hrun & Hfs & Hp & Ho & Hlog).
  exists s'. split; [exact Hrun|]. repeat split; try done.
  rewrite Hlog. simpl. by rewrite <- app_assoc.
Qed.

(** *** One move *)

(** The tree in which [move_file] moves, its source being there: the tree
    as it is when the directory of the destination is in place, and
    otherwise what [os.makedirs] makes of it, or the exception it raises. *)
Definition destination_ready (t : node) (dst : path) : result node :=
  if FS.isdir t (Path.dirname dst) then Ok t else FS.makedirs (Path.dirname dst) t.

Definition makedirs_message (dst : path) (e : exn) : string :=
  ("Error creating destination directory " ++ Path.to_string (Path.dirname dst)
     ++ ": " ++ str_exn e)%string.

Definition move_message (src dst : path) (e : exn) : string :=
  ("Error moving " ++ Path.to_string src ++ " to " ++ Path.to_string dst
     ++ ": " ++ str_exn e)%string.

(** The three ways [move_file] ends: the source is missing, the creation of
    the destination directory or the move fails, or the move is done (or,
    with [--dry-run], announced). *)
Definition move_skipped (src : path) (s s' : state) : Prop :=
  FS.exists_ (fs s) src = false
  ∧ fs s' = fs s
  ∧ warnings (progress s')
    = warnings (progress s) ++ [("Source file not found (skipped): " ++ Path.to_string src)%string]
  ∧ errors (progress s') = errors (progress s)
  ∧ completed_operations (progress s') = completed_operations (progress s).

Definition move_failed (env : environment) (src dst : path) (s s' : state) : Prop :=
  FS.exists_ (fs s) src = true
  ∧ dry_run env = false
  ∧ ((∃ e, destination_ready (fs s) dst = Raise e
           ∧ fs s' = fs s
           ∧ errors (progress s') = errors (progress s) ++ [makedirs_message dst e])
     ∨ (∃ tm e, destination_ready (fs s) dst = Ok tm
                ∧ FS.move src dst tm = Raise e
                ∧ fs s' = tm
                ∧ errors (progress s') = errors (progress s) ++ [move_message src dst e]))
  ∧ warnings (progress s') = warnings (progress s)
  ∧ completed_operations (progress s') = completed_operations (progress s).

Definition move_done (env : environment) (src dst : path) (s s' : state) : Prop :=
  FS.exists_ (fs s) src = true
  ∧ (if dry_run env then fs s' = fs s
     else ∃ tm, destination_ready (fs s) dst = Ok tm ∧ FS.move src dst tm = Ok (fs s'))
  ∧ errors (progress s') = errors (progress s)
  ∧ warnings (progress s') = warnings (progress s)
  ∧ completed_operations (progress s') = completed_operations (progress s) + 1.

Lemma move_file_outcome env src dst s :
  ∃ s', move_file env src dst s = (Ok tt, s')
    ∧ total_operations (progress s') = total_operations (progress s)
    ∧ (move_skipped src s s' ∨ move_failed env src dst s s' ∨ move_done env src dst s s').
Proof.
  unfold move_file, move_skipped, move_failed, move_done, destination_ready. run.
  destruct (FS.exists_ (fs s) src) eqn:Hsrc; simpl.
  2:{ eexists. split; [done|]. simpl. split; [done|]. left. done. }
  destruct (FS.isdir (fs s) (Path.dirname dst)) eqn:Hdir; simpl.
  - destruct (dry_run env) eqn:Hdry; simpl.
    + destruct (0 <? total_operations (progress s)); simpl;
        (eexists; split; [done|]; simpl; split; [done|]; right; right; done).
    + destruct (FS.move src dst (fs s)) as [t'|e] eqn:Hmv; simpl.
      * destruct (0 <? total_operations (progress s)); simpl;
          (eexists; split; [done|]; simpl; split; [done|]; right; right;
           repeat split; try done; exists (fs s); split; done).
      * eexists. split; [done|]. simpl. split; [done|]. right. left.
        repeat split; try done. right. exists (fs s), e. done.
  - destruct (dry_run env) eqn:Hdry; simpl.
    + destruct (0 <? total_operations (progress s)); simpl;
        (eexists; split; [done|]; simpl; split; [done|]; right; right; done).
    + destruct (FS.makedirs (Path.dirname dst) (fs s)) as [tm|e] eqn:Hmk; simpl.
      * destruct (FS.move src dst tm) as [t'|e] eqn:Hmv; simpl.
        -- destruct (0 <? total_operations (progress s)); simpl;
             (eexists; split; [done|]; simpl; split; [done|]; right; right;
              repeat split; try done; exists tm; split; done).
        -- eexists. split; [done|]. simpl. split; [done|]. right. left.
           repeat split; try done. right. exists tm, e. done.
      * eexists. split; [done|]. simpl. split; [done|]. right. left.
        repeat split; try done. left. exists e. done.
Qed.

(** X5.  [move_file] never raises, never changes the planned total, and
    what it does is decided by the state it starts from.  A missing source
    costs one warning and nothing else.  With the source there and
    [--dry-run], the operation is counted once and the file system is left
    as it is.  Otherwise the directory of the destination is made unless it
    is there: when [os.makedirs] raises, its error is recorded, nothing is
    counted and the file system is left as it was; when [shutil.move]
    raises, its error is recorded, nothing is counted and the file system
    is the one with the directory made; when neither raises, no error is
    recorded, the operation is counted once and the file system is the
    result of the move.  The three outcomes exclude each other. *)
Theorem move_file_isolates_failure env src dst s :
  ∃ s', move_file env src dst s = (Ok tt, s')
    ∧ total_operations (progress s') = total_operations (progress s)
    ∧ (FS.exists_ (fs s) src = false → move_skipped src s s')
    ∧ (FS.exists_ (fs s) src = true → dry_run env = true → move_done env src dst s s')
    ∧ (FS.exists_ (fs s) src = true → dry_run env = false →
       match destination_ready (fs s) dst with
       | Raise e =>
           move_failed env src dst s s' ∧ fs s' = fs s
           ∧ errors (progress s') = errors (progress s) ++ [makedirs_message dst e]
       | Ok tm =>
           match FS.move src dst tm with
           | Raise e =>
               move_failed env src dst s s' ∧ fs s' = tm
               ∧ errors (progress s') = errors (progress s) ++ [move_message src dst e]
           | Ok t' =>
               move_done env src dst s s' ∧ fs s' = t'
           end
       end)
    ∧ ¬ (move_skipped src s s' ∧ move_failed env src dst s s')
    ∧ ¬ (move_skipped src s s' ∧ move_done env src dst s s')
    ∧ ¬ (move_failed env src dst s s' ∧ move_done env src dst s s').
Proof.
  destruct (move_file_outcome env src dst s) as (s' & Hrun & Htot & Hcase).
  exists s'. split; [exact Hrun|]. split; [exact Htot|].
  assert (∀ l (x : string), l ++ [x] ≠ l) as Hgrow.
  { intros l x H. apply (f_equal length) in H. rewrite length_app in H. simpl in H. lia. }
  split; [|split; [|split; [|split; [|split]]]].
  - intros Hno. destruct Hcase as [H | [(Hex & _) | (Hex & _)]]; [done | congruence..].
  - intros Hex Hdry.
    destruct Hcase as [(Hno & _) | [(_ & Hreal & _) | H]]; [congruence.. | done].
  - intros Hex Hreal.
    destruct Hcase as [(Hno & _) | [Hfail | Hdone]]; [congruence | |].
    + destruct Hfail as (H1 & H2 & [(e & Hr & Hfs & Herr) | (tm & e & Hr & Hmv & Hfs & Herr)] & H4).
      * rewrite Hr. split; [|done]. split; [done|]. split; [done|]. split; [|done].
        left. by exists e.
      * rewrite Hr, Hmv. split; [|done]. split; [done|]. split; [done|]. split; [|done].
        right. by exists tm, e.
    + pose proof Hdone as (_ & Hmv & _). rewrite Hreal in Hmv.
      destruct Hmv as (tm & Hr & Hmv). by rewrite Hr, Hmv.
  - intros [(Hno & _) (Hex & _)]. congruence.
  - intros [(Hno & _) (Hex & _)]. congruence.
  - intros [(_ & _ & Hf & _) (_ & _ & Herr & _)].
    destruct Hf as [(e & _ & _ & He) | (tm & e & _ & _ & _ & He)];
      rewrite Herr in He; symmetry in He; by apply Hgrow in He.
Qed.

(** *** The counters of the tracker *)

Definition tally (s : state) : nat * nat :=
  (total_operations (progress s), completed_operations (progress s)).

(** [m] changes neither the planned total nor the completed count. *)
Definition keeps_tally {A} (m : M A) : Prop := ∀ s, tally (m s).2 = tally s.

Lemma keeps_tally_quiet {A} (m : M A) : quiet m → keeps_tally m.
Proof. intros H s. destruct (H s) as (_ & Hp & _). unfold tally. by rewrite Hp. Qed.

Lemma keeps_tally_ret {A} (a : A) : keeps_tally (mret a : M A).
Proof. done. Qed.

Lemma keeps_tally_syscall op : keeps_tally (syscall op).
Proof. intros s. unfold syscall. by destruct (op (fs s)). Qed.

Lemma keeps_tally_add_error msg : keeps_tally (add_error msg).
Proof. done. Qed.

Lemma keeps_tally_add_warning msg : keeps_tally (add_warning msg).
Proof. done. Qed.

Lemma keeps_tally_write_stdout o : keeps_tally (write_stdout o).
Proof. done. Qed.

Lemma keeps_tally_generate_report : keeps_tally generate_report.
Proof.
  intros s. unfold generate_report. rewrite run_bind. unfold get_progress. cbv beta iota.
  by destruct (total_operations (progress s) =? 0).
Qed.

Lemma keeps_tally_bind {A B} (m : M A) (f : A → M B) :
  keeps_tally m → (∀ a, keeps_tally (f a)) → keeps_tally (m ≫= f).
Proof.
  intros Hm Hf s. rewrite run_bind. specialize (Hm s).
  destruct (m s) as [[a|e] s1]; simpl in *; [|done]. by rewrite Hf.
Qed.

Lemma keeps_tally_try {A} (body : M A) handler :
  keeps_tally body → (∀ e, keeps_tally (handler e)) → keeps_tally (try_except body handler).
Proof.
  intros Hb Hh s. rewrite run_try. specialize (Hb s).
  destruct (body s) as [[a|e] s1]; simpl in *; [done|]. by rewrite Hh.
Qed.

Ltac tallying :=
  repeat first
    [ apply keeps_tally_ret | apply keeps_tally_syscall | apply keeps_tally_add_error
    | apply keeps_tally_add_warning | apply keeps_tally_write_stdout
    | apply keeps_tally_generate_report
    | apply keeps_tally_quiet; quietly; fail
    | apply keeps_tally_bind; [|intros ?]
    | apply keeps_tally_try; [|intros ?]
    | match goal with
      | |- keeps_tally (if ?b then _ else _) => destruct b
      | |- keeps_tally (match ?x with _ => _ end) => destruct x
      end ].

Lemma keeps_tally_create_new_directories env : keeps_tally (create_new_directories env).
Proof.
  unfold create_new_directories, logging_info, logging_error.
  apply keeps_tally_bind; [apply keeps_tally_quiet, quiet_logging|]. intros _.
  induction NEW_DIRS as [|d r IH]; [apply keeps_tally_ret|].
  apply (keeps_tally_bind _ (fun _ => for_each r _)); [|intros _; apply IH].
  apply keeps_tally_bind; [apply keeps_tally_quiet, quiet_get_fs|]. intros t.
  destruct (FS.isdir t d); [apply keeps_tally_quiet, quiet_logging|].
  destruct (dry_run env); [apply keeps_tally_quiet, quiet_logging|].
  apply keeps_tally_try.
  - apply keeps_tally_bind; [apply keeps_tally_syscall|]. intros _.
    apply keeps_tally_quiet, quiet_logging.
  - intros e. apply keeps_tally_quiet, quiet_logging.
Qed.

Lemma keeps_tally_create_backup env : keeps_tally (create_backup env).
Proof.
  unfold create_backup, logging_info, logging_error. destruct (negb (dry_run env)); [|done].
  apply keeps_tally_try.
  - apply keeps_tally_bind; [apply keeps_tally_syscall|]. intros _.
    apply keeps_tally_bind; [apply keeps_tally_quiet, quiet_logging | done].
  - intros e. apply keeps_tally_bind; [apply keeps_tally_quiet, quiet_logging | done].
Qed.

Lemma keeps_tally_restore_from_backup env dir : keeps_tally (restore_from_backup env dir).
Proof.
  unfold restore_from_backup, logging_info, logging_error.
  apply keeps_tally_bind; [apply keeps_tally_quiet, quiet_get_fs|]. intros t.
  destruct (_ && _); [|done]. apply keeps_tally_try.
  - apply keeps_tally_bind; [apply keeps_tally_syscall|]. intros _.
    apply keeps_tally_bind; [apply keeps_tally_syscall|]. intros _.
    apply keeps_tally_bind; [apply keeps_tally_quiet, quiet_logging | done].
  - intros e. apply keeps_tally_bind; [apply keeps_tally_quiet, quiet_logging | done].
Qed.

Lemma keeps_tally_report_and_print : keeps_tally report_and_print.
Proof.
  apply keeps_tally_bind; [apply keeps_tally_generate_report|]. intros r.
  apply keeps_tally_write_stdout.
Qed.

Lemma keeps_tally_finish env bd : keeps_tally (finish env bd).
Proof.
  unfold finish, logging_info.
  apply keeps_tally_bind; [apply keeps_tally_quiet, readonly_quiet, readonly_check_extra_files|].
  intros _. apply keeps_tally_bind; [|intros _; apply keeps_tally_report_and_print].
  destruct (dry_run env); [apply keeps_tally_quiet, quiet_logging|].
  apply keeps_tally_bind; [apply keeps_tally_quiet, quiet_logging|]. intros _.
  destruct bd as [dir|]; [|done].
  apply keeps_tally_bind; [apply keeps_tally_quiet, quiet_get_fs|]. intros t.
  destruct (FS.exists_ t dir); [|done].
  apply keeps_tally_bind; [apply keeps_tally_syscall|]. intros _.
  apply keeps_tally_quiet, quiet_logging.
Qed.

Lemma keeps_tally_on_failure env bd e : keeps_tally (on_failure env bd e).
Proof.
  unfold on_failure, logging_info, logging_error.
  apply keeps_tally_bind; [apply keeps_tally_add_error|]. intros _.
  apply keeps_tally_bind; [|intros _; apply keeps_tally_report_and_print].
  destruct bd as [dir|]; [|done]. destruct (negb (dry_run env)); [|done].
  apply keeps_tally_bind; [apply keeps_tally_quiet, quiet_logging|]. intros _.
  apply keeps_tally_bind; [apply keeps_tally_restore_from_backup|]. intros restored.
  destruct restored; apply keeps_tally_quiet, quiet_logging.
Qed.

(** A loop of moves counts at most one operation per pair. *)
Lemma move_loop_tally env (l : list (path * path)) s :
  ∃ s', for_each l (fun sd => move_file env sd.1 sd.2) s = (Ok tt, s')
    ∧ total_operations (progress s') = total_operations (progress s)
    ∧ completed_operations (progress s')
      ≤ completed_operations (progress s) + length l.
Proof.
  revert s. induction l as [|e r IH]; intros s.
  - exists s. simpl. repeat split; try done. lia.
  - destruct (move_file_outcome env e.1 e.2 s) as (s1 & Hrun1 & Ht1 & Hcase).
    destruct (IH s1) as (s' & Hrun & Ht & Hc). exists s'.
    rewrite run_for_each_cons, Hrun1. split; [done|]. split; [congruence|]. simpl.
    destruct Hcase as [(_ & _ & _ & _ & Hc1) | [(_ & _ & _ & _ & Hc1) | (_ & _ & _ & _ & Hc1)]];
      lia.
Qed.

Lemma filter_by_category_length (l : list string) :
  length (List.filter (fun item => String.eqb (category_of item) "effects") l)
  + (length (List.filter (fun item => String.eqb (category_of item) "ui") l)
     + (length (List.filter (fun item => String.eqb (category_of item) "components") l) + 0))
  = length l.
Proof.
  induction l as [|x r IH]; [done|]. simpl.
  destruct (category_of_cases x) as [-> | [-> | ->]]; simpl; lia.
Qed.

#[local] Transparent css_files.

Lemma css_moves_length t items :
  length (css_moves t items) = length (List.filter (is_css t) items).
Proof.
  unfold css_moves, css_files. simpl. rewrite !length_app, !length_fmap. simpl.
  apply filter_by_category_length.
Qed.

#[local] Opaque css_files.

Lemma process_file_moves_tally env s :
  ∃ s', process_file_moves env s = (Ok tt, s')
    ∧ completed_operations (progress s')
      ≤ completed_operations (progress s) + total_operations (progress s').
Proof.
  unfold process_file_moves. rewrite run_bind. unfold logging_info at 1, logging at 1.
  cbv beta iota. rewrite run_bind. unfold get_fs at 1. cbv beta iota zeta. simpl fs.
  rewrite run_bind. unfold set_total at 1. rewrite run_bind. unfold get_progress at 1.
  cbv beta iota. unfold set_progress at 1. cbv beta iota. rewrite run_bind.
  match goal with |- context [for_each _ _ ?x] => set (s1 := x) end.
  destruct (move_loop_tally env (moves_needed (fs s)) s1) as (s2 & Hrun & Ht & Hc).
  rewrite Hrun. simpl in Ht, Hc.
  destruct (0 <? _); simpl; (eexists; split; [reflexivity|]); simpl; lia.
Qed.

Lemma reorganize_styles_tally env s :
  completed_operations (progress (reorganize_styles env s).2) + total_operations (progress s)
  ≤ completed_operations (progress s) + total_operations (progress (reorganize_styles env s).2).
Proof.
  unfold reorganize_styles, os_listdir. run.
  destruct (FS.isdir (fs s) styles_root) eqn:Hdir; simpl; [|lia].
  destruct (listdir_fault env) as [e|]; simpl; [lia|].
  destruct (FS.listdir styles_root (fs s)) as [items|e]; simpl; [|lia].
  rewrite css_loops_flatten.
  match goal with |- context [for_each _ _ ?x] => set (s1 := x) end.
  destruct (move_loop_tally env (css_moves (fs s) items) s1) as (s2 & Hrun & Ht & Hc).
  rewrite Hrun. simpl in Ht, Hc |- *. rewrite css_moves_length in Hc. lia.
Qed.

Lemma main_tally env s0 :
  completed_operations (progress (main env s0).2) ≤ total_operations (progress (main env s0).2).
Proof.
  destruct (main_cases env s0) as [(s' & -> & Hq) | (s1 & bd & s2 & Hq & Hb & _ & ->)].
  { simpl. destruct Hq as (_ & -> & _). simpl. lia. }
  assert (tally s2 = (0, 0)) as H2.
  { pose proof (keeps_tally_create_backup env s1) as H. rewrite Hb in H. simpl in H.
    rewrite H. destruct Hq as (_ & Hp & _). unfold tally. by rewrite Hp. }
  assert (∀ s, completed_operations (progress s) ≤ total_operations (progress s) →
               ∀ e, completed_operations (progress (on_failure env bd e s).2)
                    ≤ total_operations (progress (on_failure env bd e s).2)) as Hfail.
  { intros s Hs e. pose proof (keeps_tally_on_failure env bd e s) as H.
    injection H as -> ->. done. }
  rewrite run_try, migrate_unfold, run_bind.
  pose proof (keeps_tally_create_new_directories env s2) as H3.
  destruct (create_new_directories env s2) as [[[]|e] s3]; simpl in H3; rewrite H2 in H3;
    injection H3 as Ht3 Hc3; [|apply Hfail; lia].
  rewrite run_bind.
  destruct (process_file_moves_tally env s3) as (s4 & -> & Hc4).
  rewrite run_bind.
  pose proof (reorganize_styles_tally env s4) as H5.
  destruct (reorganize_styles env s4) as [[[]|e] s5]; simpl in H5; [|apply Hfail; lia].
  pose proof (keeps_tally_finish env bd s5) as H6.
  destruct (finish env bd s5) as [[[]|e] s6]; simpl in H6; injection H6 as Ht6 Hc6.
  - simpl. lia.
  - apply Hfail. lia.
Qed.

(** X6.  However a run ends, the tracker never counts more operations as
    completed than were planned: the success rate of the report is at most
    100 percent. *)
Theorem completed_never_exceeds_total env t :
  completed_operations (progress (script env t).2)
  ≤ total_operations (progress (script env t).2).
Proof.
  unfold script. destruct (FS.isdir t ["src"%string]); [|simpl; lia].
  pose proof (main_tally env (boot t)) as H.
  by destruct (main env (boot t)) as [[[]|e] s].
Qed.

(** *** Backup and restore *)

Lemma copytree_root_fresh (a b : string) root es :
  root !! a = Some (Dir es) → root !! b = None →
  FS.copytree [a] [b] (Dir root) = Ok (Dir (<[b := Dir es]> root)).
Proof.
  intros Ha Hb. unfold FS.copytree. simpl. rewrite Ha.
  unfold FS.makedirs_new. rewrite exists_root_entry, Hb.
  rewrite bool_decide_eq_false_2 by (by intros [? ?]).
  unfold FS.makedirs. simpl. rewrite Hb. simpl. by rewrite put_root_entry.
Qed.

(** The entries of a directory. *)
Definition entries (t : node) : gmap string node :=
  match t with Dir es => es | File _ => ∅ end.

(** X7.  What [create_backup] makes, [restore_from_backup] brings back.
    Without [--dry-run], from a working directory whose [src] is a
    directory and in which the name of the backup is free, [create_backup]
    returns that name and adds a copy of [src] under it, touching nothing
    else.  In every later state in which the backup is still what it was
    and [src] still a directory, whatever has happened inside [src],
    [restore_from_backup] returns [True] and [src] is again the tree that
    was backed up; the backup and every other entry stay. *)
Theorem backup_then_restore_round_trip env s root es :
  dry_run env = false →
  fs s = Dir root → root !! "src"%string = Some (Dir es) → root !! backup_name env = None →
  ∃ s1,
    create_backup env s = (Ok (Some [backup_name env]), s1)
    ∧ fs s1 = Dir (<[backup_name env := Dir es]> root)
    ∧ ∀ s2 root2 es2,
        fs s2 = Dir root2 →
        root2 !! backup_name env = Some (Dir es) → root2 !! "src"%string = Some (Dir es2) →
        ∃ s3, restore_from_backup env [backup_name env] s2 = (Ok true, s3)
              ∧ fs s3 = Dir (<["src"%string := Dir es]> root2)
              ∧ FS.lookup (fs s3) ["src"%string] = FS.lookup (fs s) ["src"%string].
Proof.
  intros real Hroot Hsrc Hbk.
  assert (∃ s1, create_backup env s = (Ok (Some [backup_name env]), s1)
                ∧ fs s1 = Dir (<[backup_name env := Dir es]> root)) as (s1 & Hrun & Hfs1).
  { unfold create_backup. rewrite real. run. rewrite Hroot.
    fold (backup_name env). rewrite (copytree_root_fresh _ _ _ es) by done. simpl.
    eexists. split; [reflexivity | done]. }
  exists s1. split; [done|]. split; [done|]. intros s2 root2 es2 Hroot2 Hbk2 Hsrc2.
  destruct (restore_from_backup_post env real (backup_name env) s2 root2 es es2)
    as (s3 & Hrun3 & Hfs3 & _); [apply backup_name_not_src | done..|].
  exists s3. split; [done|]. split; [done|]. rewrite Hfs3, Hroot. simpl.
  by rewrite lookup_insert_eq, Hsrc.
Qed.


(** X8.  [restore_from_backup] never raises, and what it does depends on
    what it finds.  With [--dry-run], or when nothing has the name of the
    backup, it returns [False] and changes nothing.  When [src] is not a
    directory, [shutil.rmtree] fails and nothing changes.  When the backup
    and [src] are directories, [src] becomes a copy of the backup.  But when
    the name of the backup is that of a regular file, [src] has been
    removed by the time [shutil.copytree] fails: the function returns
    [False] and [src] is gone. *)
Theorem restore_from_backup_outcomes env (bk : string) s root :
  fs s = Dir root → bk ≠ "src"%string →
  ∃ b s',
    restore_from_backup env [bk] s = (Ok b, s')
    ∧ progress s' = progress s ∧ stdout s' = stdout s
    ∧ (if dry_run env then b = false ∧ s' = s
       else
         match root !! bk, root !! "src"%string with
         | None, _ => b = false ∧ s' = s
         | Some _, (None | Some (File _)) => b = false ∧ fs s' = fs s
         | Some (Dir es), Some (Dir _) =>
             b = true ∧ fs s' = Dir (<["src"%string := Dir es]> root)
         | Some (File _), Some (Dir _) =>
             b = false ∧ fs s' = Dir (delete "src"%string root)
         end).
Proof.
  intros Hroot Hbk. unfold restore_from_backup. run.
  destruct (dry_run env) eqn:Hdry; simpl; [by exists false, s|].
  rewrite Hroot, exists_root_entry.
  destruct (root !! bk) as [b|] eqn:Hb.
  2:{ rewrite bool_decide_eq_false_2 by (by intros [? ?]). simpl. by exists false, s. }
  rewrite bool_decide_eq_true_2 by eauto. simpl. rewrite ?Hroot.
  destruct (root !! "src"%string) as [[data|es']|] eqn:Hsrc.
  - assert (FS.rmtree ["src"%string] (Dir root) = Raise (NotADirectoryError ["src"%string])) as ->
      by (unfold FS.rmtree; simpl; by rewrite Hsrc).
    simpl. destruct b; eexists _, _; (split; [reflexivity|]); simpl; by rewrite ?Hroot.
  - assert (FS.rmtree ["src"%string] (Dir root) = Ok (Dir (delete "src"%string root))) as ->
      by (unfold FS.rmtree; simpl; by rewrite Hsrc).
    simpl. destruct b as [data|es].
    + assert (FS.copytree [bk] ["src"%string] (Dir (delete "src"%string root))
              = Raise (NotADirectoryError [bk])) as ->
        by (unfold FS.copytree; simpl; by rewrite lookup_delete_ne, Hb).
      simpl. eexists _, _. split; [reflexivity|]. done.
    + rewrite (copytree_root_fresh bk "src" _ es);
        [|by rewrite lookup_delete_ne | apply lookup_delete_eq].
      simpl. rewrite insert_delete_eq. eexists _, _. split; [reflexivity|]. done.
  - assert (FS.rmtree ["src"%string] (Dir root) = Raise (FileNotFoundError ["src"%string])) as ->
      by (unfold FS.rmtree; simpl; by rewrite Hsrc).
    simpl. destruct b; eexists _, _; (split; [reflexivity|]); simpl; by rewrite ?Hroot.
Qed.


(** *** The walk up the parents of a destination *)

Lemma ancestors_snoc (q : path) x :
  Path.ancestors (q ++ [x]) = match q with [] => [] | _ => q :: Path.ancestors q end.
Proof.
  unfold Path.ancestors. rewrite length_app. simpl. rewrite Nat.add_1_r. simpl.
  unfold Path.dirname. rewrite removelast_last. by destruct q.
Qed.

Lemma elem_of_ancestors p a :
  a ∈ Path.ancestors p ↔ a ≠ [] ∧ ∃ r, r ≠ [] ∧ p = a ++ r.
Proof.
  induction p as [|x q IH] using rev_ind.
  - split; [by intros ?%elem_of_nil|]. intros (_ & r & Hr & Hp).
    symmetry in Hp. apply app_eq_nil in Hp as [_ ->]. done.
  - rewrite ancestors_snoc. destruct q as [|c q'] eqn:Hq.
    + split; [by intros ?%elem_of_nil|]. intros (Ha & r & Hr & Hp). exfalso.
      apply (f_equal length) in Hp. rewrite !length_app in Hp.
      destruct a; [done|]. destruct r; [done|]. simpl in Hp. lia.
    + rewrite <- Hq in *. rewrite elem_of_cons, IH. split.
      * intros [-> | (Ha & r & Hr & ->)].
        -- split; [by rewrite Hq|]. exists [x]. done.
        -- split; [done|]. exists (r ++ [x]). split; [by destruct r|]. by rewrite app_assoc.
      * intros (Ha & r & Hr & Hp).
        destruct (exists_last Hr) as (r0 & y & ->). rewrite app_assoc in Hp.
        apply app_inj_tail in Hp as [-> ->].
        destruct r0 as [|z r0]; [left; by rewrite app_nil_r|]. right.
        split; [done|]. by exists (z :: r0).
Qed.

(** X9.  The [while parent:] walk of [validate_file_moves] needs no
    bound: from a path it goes to its parent, then on from there, and stops
    at the empty path.  It visits exactly the proper, non-empty ancestors of
    the path, nearest first. *)
Theorem ancestors_walk_is_complete :
  (∀ (q : path) x,
     Path.ancestors (q ++ [x]) = match q with [] => [] | _ => q :: Path.ancestors q end)
  ∧ (∀ p a, a ∈ Path.ancestors p ↔ a ≠ [] ∧ ∃ r, r ≠ [] ∧ p = a ++ r).
Proof. split; [apply ancestors_snoc | apply elem_of_ancestors]. Qed.

(** *** The verdict of the validation *)

Lemma validate_entry_sound v e s v' s' :
  validate_entry v e s = (Ok v', s') → issues_found v' = true →
  issues_found v = true ∨ in_conflict (fs s) e ∨ parent_is_file (fs s) e.
Proof.
  destruct e as [src dst]. unfold validate_entry, in_conflict, parent_is_file. simpl. run.
  destruct (FS.exists_ (fs s) src) eqn:E1, (FS.exists_ (fs s) dst) eqn:E2; simpl;
    try (intros [= <- <-]; simpl; by left).
  - destruct (List.find (FS.isfile (fs s)) (Path.ancestors dst)); simpl;
      intros [= <- <-] _; right; by left.
  - destruct (List.find (FS.isfile (fs s)) (Path.ancestors dst)) as [parent|] eqn:Hfind; simpl;
      intros [= <- <-]; simpl.
    + intros _. right. right. split; [done|]. apply find_some in Hfind as [Hin Hfile].
      exists parent. split; [by apply list_elem_of_In | done].
    + rewrite orb_false_r. by left.
Qed.

Lemma validate_loop_sound l v s v' s' :
  validate_loop l v s = (Ok v', s') → issues_found v' = true →
  issues_found v = true
  ∨ ∃ e, e ∈ l ∧ (in_conflict (fs s) e ∨ parent_is_file (fs s) e).
Proof.
  revert v s. induction l as [|e r IH]; intros v s; simpl.
  - intros [= <- <-]. by left.
  - rewrite run_bind.
    destruct (validate_entry_post v e s) as (v1 & s1 & Hrun1 & Hq1 & _).
    rewrite Hrun1. intros Hrun Hv'. assert (fs s1 = fs s) as Hfs by apply Hq1.
    destruct (IH _ _ Hrun Hv') as [Hv1 | (e0 & He0 & Hfound)].
    + destruct (validate_entry_sound _ _ _ _ _ Hrun1 Hv1) as [? | Hfound]; [by left|].
      right. exists e. split; [left | done].
    + right. exists e0. split; [by right | by rewrite <- Hfs].
Qed.

Lemma validate_file_moves_verdict s :
  ∃ v s1 s',
    validate_loop FILE_MOVES
      {| issues_found := false; already_moved := []; missing_sources := [] |} s = (Ok v, s1)
    ∧ validate_file_moves s = (Ok (negb (issues_found v)), s')
    ∧ quiet_step s1 s'.
Proof.
  destruct (validate_loop_post FILE_MOVES
              {| issues_found := false; already_moved := []; missing_sources := [] |} s)
    as (v & s1 & Hrun1 & _).
  exists v, s1. unfold validate_file_moves. rewrite run_bind, Hrun1.
  generalize (already_moved v) (missing_sources v). intros am ms.
  rewrite run_bind.
  match goal with |- context [match ?m s1 with _ => _ end] =>
    assert (readonly m) as Hr1 end.
  { unfold logging_info. quietly. }
  destruct (Hr1 s1) as [Hqa [[] Ha]].
  destruct (_ s1) as [ra sa]. simpl in Hqa, Ha. subst ra.
  rewrite run_bind.
  match goal with |- context [match ?m sa with _ => _ end] =>
    assert (readonly m) as Hr2 end.
  { unfold logging_warning. quietly. }
  destruct (Hr2 sa) as [Hqb [[] Hb]].
  destruct (_ sa) as [rb sb]. simpl in Hqb, Hb. subst rb.
  exists sb. split; [done|]. split; [done|]. by eapply quiet_step_trans.
Qed.

(** X10.  [validate_file_moves] returns [True] exactly when the mapping
    has no pair whose source and destination both exist and no pair whose
    source exists while a regular file sits among the ancestors of its
    destination. *)
Theorem validate_file_moves_accepts_iff_clean s :
  ∃ ok s',
    validate_file_moves s = (Ok ok, s')
    ∧ (ok = true ↔
       ∀ e, e ∈ FILE_MOVES → ¬ in_conflict (fs s) e ∧ ¬ parent_is_file (fs s) e).
Proof.
  destruct (validate_file_moves_verdict s) as (v & s1 & s' & Hloop & Hrun & _).
  exists (negb (issues_found v)), s'. split; [done|].
  destruct (validate_loop_post FILE_MOVES
              {| issues_found := false; already_moved := []; missing_sources := [] |} s)
    as (v0 & s0 & Hrun0 & _ & _ & Hc & Hp).
  rewrite Hloop in Hrun0. injection Hrun0 as <- <-.
  split.
  - intros Hok e He. apply negb_true_iff in Hok. split; intros Hfound.
    + destruct (Hc e He Hfound). congruence.
    + destruct (Hp e He Hfound). congruence.
  - intros Hclean. apply negb_true_iff. destruct (issues_found v) eqn:Hv; [|done]. exfalso.
    destruct (validate_loop_sound _ _ _ _ _ Hloop Hv) as [Hinit | (e & He & [Hfound | Hfound])];
      [simpl in Hinit; done | destruct (Hclean e He); done | destruct (Hclean e He); done].
Qed.

(** *** What a run leaves behind *)

(** X11.  A run changes nothing outside [src] and its own backup
    directory: every other entry of the working directory, with all that
    lies below it, is after the run what it was before, however the run
    ends. *)
Theorem run_touches_only_src_and_its_backup env t (c : string) (r : path) :
  c ≠ "src"%string → c ≠ backup_name env →
  FS.lookup (fs (script env t).2) (c :: r) = FS.lookup t (c :: r).
Proof.
  intros Hsrc Hbk. destruct (dry_run env) eqn:Hdry.
  { destruct (script_dry env Hdry t) as [Hfs _]. by rewrite Hfs. }
  destruct (script_real env Hdry t)
    as [(Hfs & _) | (root & es & s2 & s3 & s4 & r5 & s5 & -> & Hes & Hfree & Hfs2 & _ & _
                     & H3 & H4 & H5 & Hcase)]; [by rewrite Hfs|].
  destruct Hcase as [(x & _ & Hfs & _) | (_ & root5 & Hfs5 & Hfs & _)].
  - rewrite Hfs, Hfs2. apply lookup_root_insert; [done|]. simpl. congruence.
  - assert (root_kept (fs s2) (fs s5)) as Hkept.
    { eapply root_kept_trans; [by eapply skeleton_root_kept|].
      eapply root_kept_trans; [by eapply moves_root_kept | by eapply styles_root_kept]. }
    destruct (root_kept_dir _ _ _ Hkept Hfs2) as (root5' & Hfs5' & Hother & _).
    rewrite Hfs5 in Hfs5'. injection Hfs5' as <-.
    rewrite Hfs. simpl. rewrite lookup_delete_ne by done. rewrite Hother by done.
    by rewrite lookup_insert_ne.
Qed.


(** X12.  No file of the mapping is ever lost.  Whatever the mode and
    however the run ends, what the source of a pair held before the run is
    afterwards still at the source, or the source is gone and the
    destination holds it. *)
Theorem mapped_file_is_never_lost env t e v :
  e ∈ FILE_MOVES → FS.lookup t e.1 = Some v →
  let R := script env t in
  FS.lookup (fs R.2) e.1 = Some v
  ∨ (FS.lookup (fs R.2) e.1 = None ∧ FS.lookup (fs R.2) e.2 = Some v).
Proof.
  intros He Hv. cbv zeta. destruct (dry_run env) eqn:Hdry.
  { destruct (script_dry env Hdry t) as [Hfs _]. left. by rewrite Hfs. }
  destruct (entry_course env Hdry t e He) as [[[A1 _] _] | (_ & _ & A1 & A2)].
  - left. congruence.
  - right. split; [done | congruence].
Qed.


(** X13.  When [os.listdir] works, the total a run reports, with or
    without [--dry-run], is the number of pairs of the mapping whose source
    exists and whose destination does not, plus the number of stylesheets
    loose in [src/styles], both counted on the tree as it was before the
    run. *)
Theorem reported_total_is_ready_pairs_plus_loose_stylesheets env t :
  listdir_fault env = None →
  let R := script env t in
  printed_reports R.2 ≠ [] →
  total_operations (progress R.2)
  = length (moves_needed t) + length (loose_stylesheets t).
Proof.
  intros Hfault R Hpr. unfold R in *. clear R.
  assert (dry_plan env t (total_operations (progress (script env t).2))) as Hplan.
  { destruct (dry_run env) eqn:Hdry.
    - destruct (script_dry env Hdry t) as [_ Hplan]. by apply Hplan.
    - by apply real_plan. }
  destruct Hplan as [[-> _] | (e & He & _)]; [done | congruence].
Qed.


(** X14.  Without [--dry-run], when [reorganize_styles] returns without
    having recorded an error, every stylesheet that was loose in
    [src/styles] is gone from there and its bucket holds it, under the same
    name and with the same contents (the bucket having no directory of that
    name). *)
Theorem loose_stylesheets_end_in_their_buckets env s s' x :
  dry_run env = false →
  reorganize_styles env s = (Ok tt, s') →
  errors (progress s') = errors (progress s) →
  is_css (fs s) x = true →
  FS.isdir (fs s) (Path.join (Path.join styles_root (category_of x)) x) = false →
  FS.lookup (fs s') (Path.join styles_root x) = None
  ∧ FS.lookup (fs s') (Path.join (Path.join styles_root (category_of x)) x)
    = FS.lookup (fs s) (Path.join styles_root x).
Proof.
  intros real Hrun Herr Hcss Hnodir.
  destruct (reorganize_styles_post env real s) as (r0 & s0 & Hrun0 & _ & Hpost).
  rewrite Hrun in Hrun0. injection Hrun0 as <- <-.
  destruct Hpost as [(_ & _ & _ & P) | (e & [=] & _)].
  assert (css_move x ∈ css_move <$> loose_stylesheets (fs s)) as Hin.
  { apply list_elem_of_fmap. exists x. split; [done|]. by apply elem_of_loose_stylesheets. }
  destruct (lp_each _ _ _ P _ Hin) as [(_ & _ & Hgrow) | (_ & Hgone & Hthere)].
  - exfalso. unfold is_css in Hcss. apply andb_prop in Hcss as [Hfile _].
    apply isfile_true in Hfile as (Hne & data & Hfile).
    assert (FS.exists_ (fs s) (css_move x).1 = true) as Hex
      by (apply exists_true; split; [done | eauto]).
    specialize (Hgrow Hex). rewrite Herr in Hgrow. lia.
  - unfold real_dst in Hthere. change (css_move x).1 with (Path.join styles_root x) in *.
    change (css_move x).2 with (Path.join (Path.join styles_root (category_of x)) x) in *.
    rewrite Hnodir in Hthere. done.
Qed.


(** *** The handler after a completed migration *)

Lemma last_log_snoc s lg x : log s = lg ++ [x] → last_log s = Some x.
Proof. intros H. unfold last_log. rewrite H, fmap_app. simpl. apply last_last. Qed.

(** X15.  When nothing was planned, a migration that has completed and
    removed its backup still ends in the handler of [main], because the
    report cannot be computed; the handler then finds no backup to restore
    from and logs that the restore failed and that the backup remains at
    its place, which no longer exists.  Nothing is printed and
    [ZeroDivisionError] leaves [main]. *)
Theorem handler_reports_a_backup_that_is_gone env (bk : string) s root es :
  dry_run env = false →
  fs s = Dir root → root !! bk = Some (Dir es) →
  total_operations (progress s) = 0 →
  ∃ s',
    try_except (finish env (Some [bk])) (on_failure env (Some [bk])) s
    = (Raise ZeroDivisionError, s')
    ∧ fs s' = Dir (delete bk root)
    ∧ FS.exists_ (fs s') [bk] = false
    ∧ last_log s'
      = Some (ERROR, Text ("Failed to restore. Backup remains at: " ++ Path.to_string [bk])%string)
    ∧ printed_reports s' = printed_reports s.
Proof.
  intros real Hroot Hbk Htot. rewrite run_try.
  destruct (finish_real env real bk s root es Hroot Hbk) as (s7 & -> & Hfs7 & Hp7 & Hpr7).
  destruct (report_and_print_cases s7) as [[_ Hrun7] | [Hpos _]]; [|rewrite Hp7 in Hpos; lia].
  unfold report_and_print. rewrite Hrun7.
  unfold on_failure, restore_from_backup. rewrite real. run.
  rewrite Hfs7, exists_root_entry, lookup_delete_eq.
  rewrite bool_decide_eq_false_2 by (by intros [? ?]). simpl.
  unfold generate_report. run. rewrite Hp7, Htot. simpl.
  eexists. split; [reflexivity|]. simpl.
  split; [done|]. split; [by rewrite exists_root_entry, lookup_delete_eq,
                            bool_decide_eq_false_2 by (by intros [? ?])|].
  split; [by eapply last_log_snoc|]. by rewrite <- Hpr7.
Qed.


(** *** The outcomes of the backup *)



(** ** What a run adds to the log, to the tracker and to the output *)

(** The errors the tracker is given: a failure of [move_file], or the
    failure the handler of [main] has caught. *)
Definition move_error (msg : string) : bool :=
  Str.startswith "Error creating destination directory " msg
  || Str.startswith "Error moving " msg
  || Str.startswith "An error occurred during restructuring: " msg.

(** The warnings the tracker is given. *)
Definition skip_warning (msg : string) : bool :=
  Str.startswith "Source file not found (skipped): " msg
  || Str.startswith "Styles folder not found: " msg.

(** From [s] to [s'] the log has grown, and the tracker has gained errors
    and warnings of the kinds above, and nothing else. *)
Definition extends (s s' : state) : Prop :=
  (∃ lg, log s' = log s ++ lg)
  ∧ (∃ es, errors (progress s') = errors (progress s) ++ es
           ∧ Forall (fun msg => move_error msg = true) es)
  ∧ (∃ ws, warnings (progress s') = warnings (progress s) ++ ws
           ∧ Forall (fun msg => skip_warning msg = true) ws).

(** [m] makes the state grow, and prints no report. *)
Definition tracked {A} (m : M A) : Prop :=
  ∀ s, extends s (m s).2 ∧ printed_reports (m s).2 = printed_reports s.

Lemma extends_same s s' : log s' = log s → progress s' = progress s → extends s s'.
Proof.
  intros Hl Hp. unfold extends. rewrite Hl, Hp.
  repeat split; exists []; by rewrite app_nil_r.
Qed.

Lemma extends_refl s : extends s s.
Proof. by apply extends_same. Qed.

Lemma extends_trans s1 s2 s3 : extends s1 s2 → extends s2 s3 → extends s1 s3.
Proof.
  intros ((lg1 & Hl1) & (es1 & He1 & Hs1) & (ws1 & Hw1 & Ht1))
         ((lg2 & Hl2) & (es2 & He2 & Hs2) & (ws2 & Hw2 & Ht2)).
  split; [|split].
  - exists (lg1 ++ lg2). by rewrite Hl2, Hl1, app_assoc.
  - exists (es1 ++ es2). split; [by rewrite He2, He1, app_assoc | by apply Forall_app].
  - exists (ws1 ++ ws2). split; [by rewrite Hw2, Hw1, app_assoc | by apply Forall_app].
Qed.

Lemma extends_logged s s' x : extends s s' → x ∈ log s → x ∈ log s'.
Proof. intros ((lg & ->) & _) Hx. apply elem_of_app. by left. Qed.

Lemma extends_recorded s s' msg :
  extends s s' → msg ∈ errors (progress s) → msg ∈ errors (progress s').
Proof. intros (_ & (es & -> & _) & _) Hx. apply elem_of_app. by left. Qed.

Lemma quiet_step_extends s s' : quiet_step s s' → extends s s'.
Proof.
  intros (_ & Hp & _ & Hlg). split; [done|]. rewrite Hp.
  split; exists []; rewrite app_nil_r; done.
Qed.

Lemma tracked_quiet {A} (m : M A) : quiet m → tracked m.
Proof.
  intros H s. destruct (H s) as (Hfs & Hp & Ho & Hlg).
  split; [by apply quiet_step_extends | by apply printed_of_stdout].
Qed.

Lemma tracked_ret {A} (a : A) : tracked (mret a : M A).
Proof. intros s. split; [apply extends_refl | done]. Qed.

Lemma tracked_syscall op : tracked (syscall op).
Proof.
  intros s. unfold syscall. destruct (op (fs s)); simpl; (split; [by apply extends_same | done]).
Qed.

Lemma tracked_add_error msg : move_error msg = true → tracked (add_error msg).
Proof.
  intros Hmsg s. split; [|done]. simpl. split; [by eexists|]. split.
  - exists [msg]. split; [done|]. by apply Forall_singleton.
  - exists []. by rewrite app_nil_r.
Qed.

Lemma tracked_add_warning msg : skip_warning msg = true → tracked (add_warning msg).
Proof.
  intros Hmsg s. split; [|done]. simpl. split; [by eexists|]. split.
  - exists []. by rewrite app_nil_r.
  - exists [msg]. split; [done|]. by apply Forall_singleton.
Qed.

Lemma tracked_set_total n : tracked (set_total n).
Proof. intros s. split; [|done]. simpl. repeat split; exists []; by rewrite app_nil_r. Qed.

Lemma tracked_increment : tracked increment.
Proof.
  intros s. unfold increment, _update_progress. run.
  destruct (0 <? _); simpl; (split; [|unfold printed_reports; simpl; try rewrite omap_app;
                                       simpl; by rewrite ?app_nil_r]);
    repeat split; exists []; by rewrite app_nil_r.
Qed.

Lemma tracked_bind {A B} (m : M A) (f : A → M B) :
  tracked m → (∀ a, tracked (f a)) → tracked (m ≫= f).
Proof.
  intros Hm Hf s. rewrite run_bind. destruct (Hm s) as [He Hp].
  destruct (m s) as [[a|e] s1]; simpl in *; [|done].
  destruct (Hf a s1) as [He2 Hp2]. split; [by eapply extends_trans | congruence].
Qed.

Lemma tracked_try {A} (body : M A) handler :
  tracked body → (∀ e, tracked (handler e)) → tracked (try_except body handler).
Proof.
  intros Hb Hh s. rewrite run_try. destruct (Hb s) as [He Hp].
  destruct (body s) as [[a|e] s1]; simpl in *; [done|].
  destruct (Hh e s1) as [He2 Hp2]. split; [by eapply extends_trans | congruence].
Qed.

Lemma tracked_for_each {A} (l : list A) body :
  (∀ x, tracked (body x)) → tracked (for_each l body).
Proof.
  intros H. induction l as [|x r IH]; [apply tracked_ret|].
  apply (tracked_bind (body x) (fun _ => for_each r body)); [apply H | by intros _].
Qed.

Lemma tracked_logging l m : tracked (logging l m).
Proof. apply tracked_quiet, quiet_logging. Qed.

Lemma tracked_get_fs : tracked get_fs.
Proof. apply tracked_quiet, quiet_get_fs. Qed.

Lemma tracked_get_progress : tracked get_progress.
Proof. intros s. split; [apply extends_refl | done]. Qed.

Lemma tracked_raise {A} e : tracked (raise e : M A).
Proof. apply tracked_quiet, quiet_raise. Qed.

Lemma tracked_liftR {A} (r : result A) : tracked (liftR r).
Proof. apply tracked_quiet, quiet_liftR. Qed.

Ltac tracking :=
  repeat match goal with
    | |- tracked (mret _) => apply tracked_ret
    | |- tracked (raise _) => apply tracked_raise
    | |- tracked (liftR _) => apply tracked_liftR
    | |- tracked get_fs => apply tracked_get_fs
    | |- tracked get_progress => apply tracked_get_progress
    | |- tracked (logging _ _) => apply tracked_logging
    | |- tracked (syscall _) => apply tracked_syscall
    | |- tracked (set_total _) => apply tracked_set_total
    | |- tracked increment => apply tracked_increment
    | |- tracked (add_error _) => apply tracked_add_error; reflexivity
    | |- tracked (add_warning _) => apply tracked_add_warning; reflexivity
    | |- tracked (_ ≫= _) => apply tracked_bind; [|intros ?]
    | |- tracked (try_except _ _) => apply tracked_try; [|intros ?]
    | |- tracked (for_each _ _) => apply tracked_for_each; intros ?
    | |- tracked (if ?b then _ else _) => destruct b
    | |- tracked (match ?x with _ => _ end) => destruct x
    end.

Lemma tracked_os_listdir env p : tracked (os_listdir env p).
Proof. unfold os_listdir. tracking. Qed.

Lemma tracked_move_file env src dst : tracked (move_file env src dst).
Proof. unfold move_file, logging_info. tracking. Qed.

Lemma tracked_create_new_directories env : tracked (create_new_directories env).
Proof. unfold create_new_directories, logging_info, logging_error. tracking. Qed.

Lemma tracked_process_file_moves env : tracked (process_file_moves env).
Proof.
  unfold process_file_moves, logging_info.
  apply tracked_bind; [tracking|]. intros _.
  apply tracked_bind; [tracking|]. intros t.
  apply tracked_bind; [tracking|]. intros _.
  apply tracked_bind; [apply tracked_for_each; intros ?; apply tracked_move_file|]. intros _.
  cbv zeta. tracking.
Qed.

Lemma tracked_reorganize_styles env : tracked (reorganize_styles env).
Proof.
  unfold reorganize_styles, logging_info.
  apply tracked_bind; [tracking|]. intros _.
  apply tracked_bind; [tracking|]. intros t.
  destruct (negb _); [tracking|].
  apply tracked_bind; [apply tracked_os_listdir|]. intros counted.
  apply tracked_bind; [tracking|]. intros p.
  apply tracked_bind; [tracking|]. intros _.
  apply tracked_bind; [apply tracked_os_listdir|]. intros items.
  apply tracked_for_each. intros entry. apply tracked_for_each. intros file.
  apply tracked_move_file.
Qed.

Lemma tracked_create_backup env : tracked (create_backup env).
Proof. unfold create_backup, logging_info, logging_error. tracking. Qed.

Lemma tracked_restore_from_backup env dir : tracked (restore_from_backup env dir).
Proof. unfold restore_from_backup, logging_info, logging_error. tracking. Qed.

Lemma tracked_check_extra_files : tracked check_extra_files.
Proof. apply tracked_quiet, readonly_quiet, readonly_check_extra_files. Qed.

(** *** The report *)

(** The lines [generate_report] joins, for a tracker with planned
    operations. *)
Definition report_lines (p : ProgressTracker) : list report_line :=
  concat
    [ [ Line (nl ++ "=== Restructuring Report ===");
        Line ("Total operations: " ++ pretty (total_operations p));
        Line ("Completed operations: " ++ pretty (completed_operations p));
        SuccessRate (completed_operations p) (total_operations p) ];
      (if errors p is [] then [] else [Line (nl ++ "Errors:")]);
      (fun err => Line ("  - " ++ err)) <$> errors p;
      (if warnings p is [] then [] else [Line (nl ++ "Warnings:")]);
      (fun warn => Line ("  - " ++ warn)) <$> warnings p;
      [ Line (nl ++ "===========================") ] ]%string.

(** A message is listed in a report: one of its lines enumerates it. *)
Definition listed (report : list report_line) (msg : string) : Prop :=
  Line ("  - " ++ msg)%string ∈ report.

Ltac first_character H :=
  cbv [String.append nl] in H;
  first [ discriminate H
        | injection H as H _; vm_compute in H; discriminate H ].

Lemma listed_report_lines p msg :
  listed (report_lines p) msg ↔ msg ∈ errors p ∨ msg ∈ warnings p.
Proof.
  unfold listed, report_lines. simpl.
  rewrite !elem_of_cons, !elem_of_app, !list_elem_of_fmap, list_elem_of_singleton.
  split.
  - intros [H | [H | [H | [H | [H | [H | [H | [H | H]]]]]]]]; try first_character H.
    + destruct (errors p); [by apply elem_of_nil in H|].
      apply list_elem_of_singleton in H. first_character H.
    + destruct H as (err & H & Hin). cbv [String.append] in H. injection H as ->. by left.
    + destruct (warnings p); [by apply elem_of_nil in H|].
      apply list_elem_of_singleton in H. first_character H.
    + destruct H as (warn & H & Hin). cbv [String.append] in H. injection H as ->. by right.
  - intros [H | H].
    + do 5 right. left. by exists msg.
    + do 7 right. left. by exists msg.
Qed.

Lemma run_report_and_print s :
  (total_operations (progress s) = 0 ∧ report_and_print s = (Raise ZeroDivisionError, s))
  ∨ (0 < total_operations (progress s)
     ∧ report_and_print s
       = (Ok tt, {| fs := fs s; log := log s;
                    stdout := stdout s ++ [Printed (report_lines (progress s))];
                    progress := progress s |})).
Proof.
  unfold report_and_print, generate_report. rewrite !run_bind.
  unfold get_progress. cbv beta iota.
  destruct (total_operations (progress s)) as [|n] eqn:Hn; simpl.
  - left. done.
  - right. split; [lia|]. unfold report_lines. by rewrite Hn.
Qed.

(** From [s] to [s'] one report has been printed, the one of the tracker
    of [s']. *)
Definition reported (s s' : state) : Prop :=
  printed_reports s' = printed_reports s ++ [report_lines (progress s')].

(** [m] makes the state grow and ends, when it returns, by printing the
    report of its tracker; when it raises it has printed none. *)
Definition reports {A} (m : M A) : Prop :=
  ∀ s, extends s (m s).2
       ∧ match (m s).1 with
         | Ok _ => reported s (m s).2 ∧ 0 < total_operations (progress (m s).2)
         | Raise _ => printed_reports (m s).2 = printed_reports s
         end.

(** [m] makes the state grow and prints the report of its tracker unless
    no operation is planned. *)
Definition always_reports {A} (m : M A) : Prop :=
  ∀ s, extends s (m s).2
       ∧ (0 < total_operations (progress (m s).2) → reported s (m s).2)
       ∧ (total_operations (progress (m s).2) = 0
          → printed_reports (m s).2 = printed_reports s).

(** [m] never raises. *)
Definition returns {A} (m : M A) : Prop := ∀ s, ∃ a, (m s).1 = Ok a.

Lemma reports_report_and_print : reports report_and_print.
Proof.
  intros s. destruct (run_report_and_print s) as [[H0 ->] | [Hpos ->]]; simpl.
  - split; [apply extends_refl | done].
  - split; [by apply extends_same|]. split; [|done].
    unfold reported. by apply printed_reports_snoc.
Qed.

Lemma always_reports_report_and_print : always_reports report_and_print.
Proof.
  intros s. destruct (run_report_and_print s) as [[H0 ->] | [Hpos ->]]; simpl.
  - split; [apply extends_refl|]. split; [lia | done].
  - split; [by apply extends_same|]. split; [|lia].
    intros _. unfold reported. by apply printed_reports_snoc.
Qed.

Lemma reported_after s s1 s' :
  printed_reports s1 = printed_reports s → reported s1 s' → reported s s'.
Proof. unfold reported. by intros ->. Qed.

Lemma reports_bind {A B} (m : M A) (f : A → M B) :
  tracked m → (∀ a, reports (f a)) → reports (m ≫= f).
Proof.
  intros Hm Hf s. rewrite run_bind. destruct (Hm s) as [He Hp].
  destruct (m s) as [[a|e] s1]; simpl in *; [|done].
  destruct (Hf a s1) as [He2 Hc]. split; [by eapply extends_trans|].
  destruct (f a s1).1; [|congruence].
  destruct Hc as [Hr Hpos]. split; [by eapply reported_after | done].
Qed.

Lemma always_reports_bind {A B} (m : M A) (f : A → M B) :
  tracked m → returns m → (∀ a, always_reports (f a)) → always_reports (m ≫= f).
Proof.
  intros Hm Hr Hf s. rewrite run_bind. destruct (Hm s) as [He Hp]. destruct (Hr s) as [a Ha].
  destruct (m s) as [[a'|e] s1]; simpl in *; [|done].
  destruct (Hf a' s1) as (He2 & Hpos & Hzero). split; [by eapply extends_trans|].
  split.
  - intros H. eapply reported_after; [exact Hp | by apply Hpos].
  - intros H. rewrite <- Hp. by apply Hzero.
Qed.

Lemma always_reports_try {A} (body : M A) handler :
  reports body → (∀ e, always_reports (handler e)) → always_reports (try_except body handler).
Proof.
  intros Hb Hh s. rewrite run_try. destruct (Hb s) as [He Hc].
  destruct (body s) as [[a|e] s1]; simpl in *.
  - destruct Hc as [Hr Hpos]. split; [done|]. split; [done | lia].
  - destruct (Hh e s1) as (He2 & Hpos & Hzero). split; [by eapply extends_trans|].
    split.
    + intros H. eapply reported_after; [exact Hc | by apply Hpos].
    + intros H. rewrite <- Hc. by apply Hzero.
Qed.

Lemma returns_ret {A} (a : A) : returns (mret a : M A).
Proof. intros s. by exists a. Qed.

Lemma returns_bind {A B} (m : M A) (f : A → M B) :
  returns m → (∀ a, returns (f a)) → returns (m ≫= f).
Proof.
  intros Hm Hf s. rewrite run_bind. destruct (Hm s) as [a Ha].
  destruct (m s) as [[a'|e] s1]; simpl in *; [|done]. apply Hf.
Qed.

Lemma returns_readonly {A} (m : M A) : readonly m → returns m.
Proof. intros H s. apply H. Qed.

Lemma returns_restore_from_backup env dir : returns (restore_from_backup env dir).
Proof.
  intros s. unfold restore_from_backup. rewrite run_bind. unfold get_fs. cbv beta iota.
  destruct (_ && _); [|by eexists]. rewrite run_try, run_bind. unfold syscall at 1.
  destruct (FS.rmtree _ _) as [t1|e1]; simpl; [|by eexists].
  rewrite run_bind. unfold syscall at 1. simpl.
  destruct (FS.copytree _ _ _) as [t2|e2]; simpl; by eexists.
Qed.

Lemma reports_finish env bd : reports (finish env bd).
Proof.
  unfold finish, logging_info.
  apply reports_bind; [apply tracked_check_extra_files|]. intros _.
  apply reports_bind; [tracking | intros _; apply reports_report_and_print].
Qed.

Lemma reports_migrate_tail env bd : reports (reorganize_styles env ;; finish env bd).
Proof. apply reports_bind; [apply tracked_reorganize_styles | intros _; apply reports_finish]. Qed.

Lemma reports_migrate env bd : reports (migrate env bd).
Proof.
  rewrite migrate_unfold.
  apply reports_bind; [apply tracked_create_new_directories|]. intros _.
  apply reports_bind; [apply tracked_process_file_moves|]. intros _.
  apply reports_migrate_tail.
Qed.

Lemma always_reports_on_failure env bd e : always_reports (on_failure env bd e).
Proof.
  unfold on_failure, logging_info, logging_error.
  apply always_reports_bind; [tracking | by intros s; eexists |]. intros _.
  apply always_reports_bind; [| |intros _; apply always_reports_report_and_print].
  - destruct bd as [dir|]; [|tracking]. destruct (negb _); [|tracking].
    apply tracked_bind; [tracking|]. intros _.
    apply tracked_bind; [apply tracked_restore_from_backup|]. intros restored.
    destruct restored; tracking.
  - destruct bd as [dir|]; [|apply returns_ret]. destruct (negb _); [|apply returns_ret].
    apply returns_bind; [by intros s; eexists|]. intros _.
    apply returns_bind; [apply returns_restore_from_backup|]. intros restored.
    destruct restored; intros s; by eexists.
Qed.

(** However [main] ends, the state it started from has grown, and at most
    one report has been printed, the one of the final tracker. *)
Lemma main_report env s0 :
  let s' := (main env s0).2 in
  extends (fresh s0) s'
  ∧ (printed_reports s' = printed_reports s0 ∨ reported s0 s').
Proof.
  simpl.
  destruct (main_cases env s0) as [(s' & -> & Hq) | (s1 & bd & s2 & Hq & Hb & _ & ->)].
  { simpl. split; [by apply quiet_step_extends|]. left.
    destruct Hq as (_ & _ & Ho & _). by apply printed_of_stdout in Ho. }
  destruct (tracked_create_backup env s1) as [He2 Hp2]. rewrite Hb in He2, Hp2. simpl in *.
  assert (printed_reports s2 = printed_reports s0) as Hp.
  { rewrite Hp2. destruct Hq as (_ & _ & Ho & _). by apply printed_of_stdout in Ho. }
  destruct (always_reports_try (migrate env bd) (on_failure env bd) (reports_migrate env bd)
              (always_reports_on_failure env bd) s2) as (He & Hpos & Hzero).
  split.
  - eapply extends_trans; [|exact He]. eapply extends_trans; [|exact He2].
    by apply quiet_step_extends.
  - destruct (total_operations (progress (try_except (migrate env bd) (on_failure env bd) s2).2))
      eqn:Hn.
    + left. rewrite <- Hp. by apply Hzero.
    + right. eapply reported_after; [exact Hp|]. apply Hpos. lia.
Qed.

(** The same of the whole script: the errors and warnings of the final
    tracker are those of the move phase and of the handler, and a printed
    report is the report of the final tracker. *)
Lemma script_report env t :
  let R := script env t in
  Forall (fun msg => move_error msg = true) (errors (progress R.2))
  ∧ Forall (fun msg => skip_warning msg = true) (warnings (progress R.2))
  ∧ (printed_reports R.2 = [] ∨ printed_reports R.2 = [report_lines (progress R.2)]).
Proof.
  simpl. unfold script. destruct (negb _); simpl; [by repeat split; try left|].
  destruct (main_report env (boot t)) as [(_ & (es & He & Hes) & (ws & Hw & Hws)) Hp].
  destruct (main env (boot t)) as [[[]|e] s]; simpl in *; rewrite He, Hw;
    (split; [done|]; split; [done|]);
    (destruct Hp as [Hp | Hp]; [by left | by right]).
Qed.

(** ** Conflicts in a run *)

Definition conflict_text (e : path * path) : string :=
  ("Both source and destination exist: " ++ Path.to_string e.1
     ++ " -> " ++ Path.to_string e.2)%string.

(** The directories [validate_environment] asks for are in place. *)
Definition validated (t : node) : Prop :=
  FS.isdir t ["src"%string] = true
  ∧ FS.isdir t ["src"%string; "components"%string] = true
  ∧ FS.isdir t ["src"%string; "components"%string; "factions"%string] = true.

(** The capacity check lets the run go on, and without [--dry-run] the
    name of the backup is free. *)
Definition cleared (env : environment) (t : node) : Prop :=
  (check_disk_space env (negb (dry_run env)) (boot t)).1 = Ok true
  ∧ (dry_run env = false → FS.exists_ t [backup_name env] = false).

(** The lines with which the three phases of the migration begin. *)
Definition phase_lines : list (level * message) :=
  [ (INFO, Text "Creating new directory structure ...");
    (INFO, Text "Processing explicit file moves ...");
    (INFO, Text "Reorganizing CSS files ...") ].

Lemma run_validate_environment s : validated (fs s) → validate_environment s = (Ok true, s).
Proof.
  intros (H1 & H2 & H3). unfold validate_environment, required_dirs. rewrite run_bind.
  change (get_fs s) with (Ok (fs s), s). cbv beta iota. cbn [List.find].
  by rewrite H1, H2, H3.
Qed.

(** The capacity check reads the file system only. *)
Lemma check_disk_space_reads_fs env backup s :
  (check_disk_space env backup s).1 = (check_disk_space env backup (boot (fs s))).1.
Proof.
  unfold check_disk_space. rewrite !run_try, !run_bind.
  change (get_fs s) with (Ok (fs s), s).
  change (get_fs (boot (fs s))) with (Ok (fs s), boot (fs s)).
  cbv beta iota. rewrite !run_bind. unfold liftR.
  destruct (Float.int_mul _ _) as [r|x]; cbv beta iota; [|reflexivity].
  destruct (Float.int_lt _ _); reflexivity.
Qed.

Lemma isdir_root t (c : string) :
  FS.isdir t [c] = true → ∃ root es, t = Dir root ∧ root !! c = Some (Dir es).
Proof.
  intros H. apply isdir_true in H as (_ & es & Hes). destruct t as [data|root]; [done|].
  exists root, es. split; [done|]. rewrite lookup_dir_cons in Hes.
  destruct (root !! c) as [v|]; simpl in Hes; [|done]. destruct v; simpl in Hes; congruence.
Qed.

(** Past the three gates of [main]: the verdict of the validation is not
    read, and the [try] block is entered on a tree whose [src] is the one
    of the start. *)
Lemma main_proceeds env s0 :
  validated (fs s0) → cleared env (fs s0) →
  ∃ ok s1 s2 bd s3,
    validate_file_moves (fresh s0) = (Ok ok, s1)
    ∧ quiet_step (fresh s0) s1
    ∧ quiet_step s1 s2
    ∧ create_backup env s2 = (Ok bd, s3)
    ∧ (∀ r, FS.lookup (fs s3) ("src"%string :: r) = FS.lookup (fs s0) ("src"%string :: r))
    ∧ main env s0 = try_except (migrate env bd) (on_failure env bd) s3.
Proof.
  intros Hv [Hspace Hfree].
  destruct (readonly_validate_file_moves (fresh s0)) as [Hq1 [ok Hok]].
  destruct (validate_file_moves (fresh s0)) as [r1 s1] eqn:Hrun1. simpl in Hq1, Hok. subst r1.
  assert (fs s1 = fs s0) as Hfs1 by apply Hq1.
  destruct (readonly_check_disk_space env (negb (dry_run env)) s1) as [Hq2 [enough He]].
  assert (enough = true) as ->.
  { pose proof (check_disk_space_reads_fs env (negb (dry_run env)) s1) as H.
    rewrite He, Hfs1, Hspace in H. by injection H. }
  destruct (check_disk_space env (negb (dry_run env)) s1) as [r2 s2] eqn:Hrun2.
  simpl in Hq2, He. subst r2.
  assert (fs s2 = fs s0) as Hfs2 by (destruct Hq2 as [-> _]; done).
  assert (∃ bd s3, create_backup env s2 = (Ok bd, s3)
                   ∧ ((if bd is Some _ then false else true) && negb (dry_run env) = false)
                   ∧ ∀ r, FS.lookup (fs s3) ("src"%string :: r)
                          = FS.lookup (fs s0) ("src"%string :: r))
    as (bd & s3 & Hb & Hbd & Hsrc).
  { destruct (dry_run env) eqn:Hdry.
    - exists None, s2. unfold create_backup. rewrite Hdry. simpl. split; [done|].
      split; [done|]. intros r. by rewrite Hfs2.
    - destruct Hv as (Hsrc & _). apply isdir_root in Hsrc as (root & es & Hroot & Hes).
      specialize (Hfree eq_refl). rewrite Hroot, exists_root_entry in Hfree.
      apply bool_decide_eq_false in Hfree.
      assert (root !! backup_name env = None) as Hbk
        by (destruct (root !! backup_name env) eqn:E; [exfalso; apply Hfree; eauto | done]).
      unfold create_backup. fold (backup_name env). rewrite Hdry. cbn [negb]. cbv iota.
      rewrite run_try, run_bind. unfold syscall at 1.
      rewrite Hfs2, Hroot, (copytree_root_fresh _ _ _ es) by done. simpl.
      eexists _, _. split; [reflexivity|]. split; [done|]. simpl. intros r.
      apply (lookup_root_insert root (backup_name env) (Dir es) ("src"%string :: r)); [done|].
      simpl. intros Heq.
      by apply (backup_name_not_src env). }
  exists ok, s1, s2, bd, s3. repeat (split; [done|]).
  unfold main. rewrite run_bind.
  change (set_progress ProgressTracker_init s0) with (Ok tt, fresh s0). cbv beta iota.
  rewrite run_bind, (run_validate_environment (fresh s0)) by done. cbv beta iota. cbn [negb].
  cbv iota. rewrite run_bind, Hrun1. cbv beta iota. rewrite run_bind, Hrun2. cbv beta iota.
  cbn [negb]. cbv iota. rewrite run_bind, Hb. cbv beta iota. by rewrite Hbd.
Qed.

(** *** The phases are entered *)

Lemma returns_try {A} (body : M A) handler :
  (∀ e, returns (handler e)) → returns (try_except body handler).
Proof.
  intros Hh s. rewrite run_try. destruct (body s) as [[a|e] s1]; [by exists a | apply Hh].
Qed.

Lemma returns_for_each {A} (l : list A) body :
  (∀ x, returns (body x)) → returns (for_each l body).
Proof.
  intros H. induction l as [|x r IH]; [apply returns_ret|].
  apply (returns_bind (body x) (fun _ => for_each r body)); [apply H | by intros _].
Qed.

Lemma returns_logging l m : returns (logging l m).
Proof. intros s. by eexists. Qed.

Lemma returns_create_new_directories env : returns (create_new_directories env).
Proof.
  unfold create_new_directories, logging_info, logging_error.
  apply returns_bind; [apply returns_logging|]. intros _.
  apply returns_for_each. intros d.
  apply returns_bind; [by intros s; eexists|]. intros t.
  destruct (FS.isdir t d); [apply returns_logging|].
  destruct (dry_run env); [apply returns_logging|].
  apply returns_try. intros e. apply returns_logging.
Qed.

(** What is logged first stays in the log. *)
Lemma logged_first {A} l m (rest : M A) s :
  tracked rest → (l, m) ∈ log ((logging l m ;; rest) s).2.
Proof.
  intros Hrest. rewrite run_bind. unfold logging at 1. cbv beta iota.
  match goal with |- context [rest ?x] => destruct (Hrest x) as [He _] end.
  eapply extends_logged; [exact He|]. simpl. apply elem_of_app. right. by left.
Qed.

Lemma create_new_directories_line env s :
  (INFO, Text "Creating new directory structure ...") ∈ log (create_new_directories env s).2.
Proof.
  unfold create_new_directories, logging_info at 1. apply logged_first.
  unfold logging_info, logging_error. tracking.
Qed.

Lemma process_file_moves_line env s :
  (INFO, Text "Processing explicit file moves ...") ∈ log (process_file_moves env s).2.
Proof.
  unfold process_file_moves, logging_info at 1. apply logged_first.
  apply tracked_bind; [tracking|]. intros t.
  apply tracked_bind; [tracking|]. intros _.
  apply tracked_bind; [apply tracked_for_each; intros ?; apply tracked_move_file|]. intros _.
  cbv zeta. unfold logging_info. tracking.
Qed.

Lemma reorganize_styles_line env s :
  (INFO, Text "Reorganizing CSS files ...") ∈ log (reorganize_styles env s).2.
Proof.
  unfold reorganize_styles, logging_info at 1. apply logged_first.
  apply tracked_bind; [tracking|]. intros t.
  destruct (negb _); [tracking|].
  apply tracked_bind; [apply tracked_os_listdir|]. intros counted.
  apply tracked_bind; [tracking|]. intros p.
  apply tracked_bind; [tracking|]. intros _.
  apply tracked_bind; [apply tracked_os_listdir|]. intros items.
  apply tracked_for_each. intros entry. apply tracked_for_each. intros file.
  apply tracked_move_file.
Qed.

Lemma reorganize_styles_total env s :
  total_operations (progress s) ≤ total_operations (progress (reorganize_styles env s).2).
Proof.
  unfold reorganize_styles, os_listdir. run.
  destruct (FS.isdir (fs s) styles_root) eqn:Hdir; simpl; [|lia].
  destruct (listdir_fault env) as [e|]; simpl; [lia|].
  destruct (FS.listdir styles_root (fs s)) as [items|e]; simpl; [|lia].
  rewrite css_loops_flatten.
  match goal with |- context [for_each _ _ ?x] => set (s1 := x) end.
  destruct (move_loop_tally env (css_moves (fs s) items) s1) as (s2 & Hrun & Ht & Hc).
  rewrite Hrun. simpl in Ht |- *. lia.
Qed.

(** The end of the [try] block, from the state the move phase leaves: the
    state grows, the planned total does not shrink, and the report of the
    final tracker is printed unless nothing is planned. *)
Lemma migrate_tail env bd s :
  let s' := (try_except (reorganize_styles env ;; finish env bd) (on_failure env bd) s).2 in
  extends (reorganize_styles env s).2 s'
  ∧ extends s s'
  ∧ total_operations (progress s) ≤ total_operations (progress s')
  ∧ (0 < total_operations (progress s') → reported s s').
Proof.
  simpl.
  destruct (always_reports_try _ _ (reports_migrate_tail env bd)
              (always_reports_on_failure env bd) s) as (He & Hpos & _).
  split; [|split; [done|split; [|done]]].
  - rewrite run_try, run_bind.
    destruct (reorganize_styles env s) as [[[]|e] s1]; simpl.
    + pose proof (always_reports_try _ _ (reports_finish env bd)
                    (always_reports_on_failure env bd) s1) as (H & _).
      by rewrite run_try in H.
    + apply always_reports_on_failure.
  - pose proof (reorganize_styles_total env s) as Ht.
    rewrite run_try, run_bind.
    destruct (reorganize_styles env s) as [[[]|e] s1]; simpl in *.
    + pose proof (keeps_tally_try _ _ (keeps_tally_finish env bd)
                    (keeps_tally_on_failure env bd) s1) as H.
      rewrite run_try in H. injection H as H _. lia.
    + pose proof (keeps_tally_on_failure env bd e s1) as H. injection H as H _. lia.
Qed.

(** The course of a run that gets past the gates: the skeleton and the
    move phase return, whatever the validation has found. *)
Lemma script_course env t :
  validated t → cleared env t →
  ∃ bd s3 s4 s5,
    (∀ r, FS.lookup (fs s3) ("src"%string :: r) = FS.lookup t ("src"%string :: r))
    ∧ printed_reports s3 = []
    ∧ create_new_directories env s3 = (Ok tt, s4)
    ∧ process_file_moves env s4 = (Ok tt, s5)
    ∧ (script env t).2
      = (try_except (reorganize_styles env ;; finish env bd) (on_failure env bd) s5).2.
Proof.
  intros Hv Hc.
  destruct (main_proceeds env (boot t) Hv Hc)
    as (ok & s1 & s2 & bd & s3 & Hrun1 & Hq1 & Hq2 & Hb & Hsrc & Hmain).
  destruct (returns_create_new_directories env s3) as [[] H4].
  destruct (create_new_directories env s3) as [r4 s4] eqn:Hrun4. simpl in H4. subst r4.
  destruct (process_file_moves_tally env s4) as (s5 & Hrun5 & _).
  exists bd, s3, s4, s5. split; [exact Hsrc|]. split.
  { destruct (tracked_create_backup env s2) as [_ Hp]. rewrite Hb in Hp. simpl in Hp.
    rewrite Hp. destruct Hq2 as (_ & _ & Ho2 & _), Hq1 as (_ & _ & Ho1 & _).
    unfold printed_reports. by rewrite Ho2, Ho1. }
  split; [done|]. split; [done|].
  assert (main env (boot t)
          = try_except (reorganize_styles env ;; finish env bd) (on_failure env bd) s5) as Hm.
  { rewrite Hmain, (run_try _ _ s3), (run_try _ _ s5), migrate_unfold, run_bind, Hrun4.
    cbv beta iota. by rewrite run_bind, Hrun5. }
  unfold script. destruct Hv as (-> & _). cbn [negb]. cbv iota. rewrite Hm.
  by destruct (try_except _ _ s5) as [[[]|?] ?].
Qed.

(** *** A destination below a regular file *)

Lemma kind_le_exists t t' q :
  kind_le (FS.lookup t q) (FS.lookup t' q) → FS.exists_ t q = true → FS.exists_ t' q = true.
Proof.
  intros Hk Hex. apply exists_true in Hex as (Hq & v & Hv). apply exists_true.
  split; [done|]. rewrite Hv in Hk. destruct v; simpl in Hk; [eauto|].
  destruct Hk as [es ->]. eauto.
Qed.

Lemma kind_le_isfile t t' q :
  kind_le (FS.lookup t q) (FS.lookup t' q) → FS.isfile t q = true → FS.isfile t' q = true.
Proof.
  intros Hk Hf. apply isfile_true in Hf as (Hq & data & Hv). apply isfile_true.
  split; [done|]. rewrite Hv in Hk. simpl in Hk. eauto.
Qed.

Lemma blocked_not_dir t a d :
  FS.isfile t a = true → Path.is_prefix a d = true → FS.isdir t d = false.
Proof.
  intros Hf Hp. apply isfile_true in Hf as (_ & data & Hdata).
  destruct (FS.isdir t d) eqn:Hd; [|done]. exfalso.
  apply isdir_true in Hd as (_ & es & Hes). apply is_prefix_spec in Hp as [r ->].
  destruct r as [|c r].
  - rewrite app_nil_r in Hes. congruence.
  - by rewrite (lookup_below_file _ _ data) in Hes.
Qed.

Lemma blocked_makedirs t a d :
  FS.isfile t a = true → Path.is_prefix a d = true → ∃ x, FS.makedirs d t = Raise x.
Proof.
  intros Hf Hp. apply isfile_true in Hf as (_ & data & Hdata).
  unfold FS.makedirs. destruct d as [|c d]; [by eexists|].
  assert (FS.mkdirs t (c :: d) = None) as -> by (apply mkdirs_none; eauto).
  by eexists.
Qed.

Lemma ancestor_of_dirname p a :
  a ∈ Path.ancestors p → Path.is_prefix a (Path.dirname p) = true.
Proof.
  intros Ha. apply elem_of_ancestors in Ha as (_ & r & Hr & ->).
  unfold Path.dirname. rewrite removelast_app by done. apply is_prefix_app.
Qed.

Lemma blocked_destination t a dst :
  a ∈ Path.ancestors dst → FS.isfile t a = true → ∃ x, destination_ready t dst = Raise x.
Proof.
  intros Ha Hf. apply ancestor_of_dirname in Ha. unfold destination_ready.
  rewrite (blocked_not_dir t a) by done. by apply (blocked_makedirs t a).
Qed.

Lemma blocked_absent t a dst :
  a ∈ Path.ancestors dst → FS.isfile t a = true → FS.exists_ t dst = false.
Proof.
  intros Ha Hf. apply elem_of_ancestors in Ha as (_ & r & Hr & ->).
  apply isfile_true in Hf as (_ & data & Hdata). apply exists_false. right.
  destruct r as [|c r]; [done|]. by apply (lookup_below_file _ _ data).
Qed.

Lemma independent_app l1 l2 :
  independent (l1 ++ l2) = true →
  independent l1 = true ∧ ∀ x y, x ∈ l1 → y ∈ l2 → far x y = true.
Proof.
  induction l1 as [|e r IH]; simpl app.
  - intros _. split; [done|]. intros x y Hx. by apply elem_of_nil in Hx.
  - rewrite independent_cons. intros [Hfar Hind]. destruct (IH Hind) as [Hr Hcross].
    split.
    + apply independent_cons. split; [|done]. intros e' He'. apply Hfar.
      apply elem_of_app. by left.
    + intros x y [-> | Hx]%elem_of_cons Hy.
      * apply Hfar. apply elem_of_app. by right.
      * by apply Hcross.
Qed.

Section Blocked.

Variable env : environment.
Hypothesis real : dry_run env = false.

(** In a loop of moves a pair whose source is there and whose destination
    lies below a regular file costs the error of [os.makedirs], which
    stays in the tracker. *)
Lemma move_loop_blocked (l : list (path * path)) e a s :
  well_separated l → e ∈ l →
  FS.exists_ (fs s) e.1 = true → a ∈ Path.ancestors e.2 → FS.isfile (fs s) a = true →
  ∃ x s', for_each l (fun sd => move_file env sd.1 sd.2) s = (Ok tt, s')
          ∧ makedirs_message e.2 x ∈ errors (progress s').
Proof.
  intros [Hind Hap] He Hex Ha Hfile.
  apply list_elem_of_split in He as (l1 & l2 & ->).
  apply independent_app in Hind as [Hind1 Hfar].
  destruct (move_loop env real l1 s) as (s1 & Hrun1 & _ & P1).
  { split; [done|]. intros e' He'. apply Hap. apply elem_of_app. by left. }
  assert (∀ e', e' ∈ l1 → far e' e = true) as Hfar1
    by (intros e' He'; apply Hfar; [done | by left]).
  assert (FS.exists_ (fs s1) e.1 = true) as Hex1.
  { rewrite (exists_of_lookup (fs s)); [done|]. apply (lp_frame _ _ _ P1). intros e' He'.
    apply Hfar1, far_spec in He' as (H1 & _ & H3 & _).
    by rewrite (apart_sym e.1 e'.1), (apart_sym e.1 e'.2). }
  assert (FS.isfile (fs s1) a = true) as Hfile1.
  { apply (kind_le_isfile (fs s)); [|done]. apply (lp_kind _ _ _ P1). intros e' He'.
    apply Hfar1, far_spec in He' as (_ & H2 & _ & H4).
    apply elem_of_ancestors in Ha as (_ & r & _ & Hr).
    assert (Path.is_prefix a e.2 = true) as Hpre by (rewrite Hr; apply is_prefix_app).
    apply apart_spec in H2 as [H2 _], H4 as [H4 _].
    split.
    - destruct (Path.is_prefix e'.1 a) eqn:E; [|done].
      by rewrite (is_prefix_trans _ _ _ E Hpre) in H2.
    - destruct (Path.is_prefix e'.2 a) eqn:E; [|done].
      by rewrite (is_prefix_trans _ _ _ E Hpre) in H4. }
  destruct (blocked_destination (fs s1) a e.2 Ha Hfile1) as [x Hx].
  destruct (move_file_outcome env e.1 e.2 s1) as (s2 & Hrun2 & _ & Hcase).
  assert (makedirs_message e.2 x ∈ errors (progress s2)) as Hmsg.
  { destruct Hcase as [(Hno & _) | [(_ & _ & Hf & _) | (_ & Hd & _)]].
    - congruence.
    - destruct Hf as [(x' & Hx' & _ & ->) | (tm & x' & Hx' & _)]; [|congruence].
      rewrite Hx in Hx'. injection Hx' as <-. apply elem_of_app. right. by left.
    - rewrite real in Hd. destruct Hd as (tm & Hx' & _). congruence. }
  destruct (move_loop_tally env l2 s2) as (s' & Hrun & _).
  exists x, s'. split.
  - rewrite run_for_each_app, run_bind, Hrun1. cbv beta iota.
    by rewrite run_for_each_cons, Hrun2.
  - destruct (tracked_for_each l2 (fun sd => move_file env sd.1 sd.2)
                (fun sd => tracked_move_file env sd.1 sd.2) s2) as [Hext _].
    rewrite Hrun in Hext. by apply (extends_recorded s2).
Qed.

Lemma process_file_moves_blocked e a s :
  e ∈ FILE_MOVES →
  FS.exists_ (fs s) e.1 = true → a ∈ Path.ancestors e.2 → FS.isfile (fs s) a = true →
  ∃ x s', process_file_moves env s = (Ok tt, s')
          ∧ makedirs_message e.2 x ∈ errors (progress s')
          ∧ 0 < total_operations (progress s').
Proof.
  intros He Hex Ha Hfile.
  assert (e ∈ moves_needed (fs s)) as Hneeded.
  { apply moves_needed_spec. split; [done|]. split; [done|]. by apply (blocked_absent _ a). }
  destruct (process_file_moves_post env real s) as (s' & Hrun & Htot & _).
  assert (0 < total_operations (progress s')) as Hpos.
  { rewrite Htot. destruct (moves_needed (fs s)); [by apply elem_of_nil in Hneeded|]. simpl. lia. }
  revert Hrun. unfold process_file_moves. run.
  match goal with |- context [for_each _ _ ?x] => set (s1 := x) end.
  destruct (move_loop_blocked (moves_needed (fs s)) e a s1) as (x & s2 & Hrun2 & Hmsg);
    [apply moves_needed_separated | done..|].
  rewrite Hrun2. destruct (0 <? _); simpl; intros [= <-]; exists x; eexists; done.
Qed.

End Blocked.

(** *** The conflicts of a run *)

(** [m] makes the state grow. *)
Definition grows {A} (m : M A) : Prop := ∀ s, extends s (m s).2.

Lemma grows_tracked {A} (m : M A) : tracked m → grows m.
Proof. intros H s. apply H. Qed.

Lemma grows_always_reports {A} (m : M A) : always_reports m → grows m.
Proof. intros H s. apply H. Qed.

Lemma grows_bind {A B} (m : M A) (f : A → M B) :
  grows m → (∀ a, grows (f a)) → grows (m ≫= f).
Proof.
  intros Hm Hf s. rewrite run_bind. specialize (Hm s).
  destruct (m s) as [[a|e] s1]; simpl in *; [|done].
  eapply extends_trans; [exact Hm | apply Hf].
Qed.

Lemma script_state env t :
  FS.isdir t ["src"%string] = true → (script env t).2 = (main env (boot t)).2.
Proof. intros H. unfold script. rewrite H. simpl. by destruct (main env (boot t)) as [[[]|?] ?]. Qed.

(** Once the environment is validated the move mapping is validated, and
    whatever follows only adds to what the validation has logged. *)
Lemma main_after_validation env s0 :
  validated (fs s0) →
  ∃ ok s1, validate_file_moves (fresh s0) = (Ok ok, s1) ∧ extends s1 (main env s0).2.
Proof.
  intros Hv.
  destruct (readonly_validate_file_moves (fresh s0)) as [_ [ok Hok]].
  destruct (validate_file_moves (fresh s0)) as [r1 s1] eqn:Hrun1. simpl in Hok. subst r1.
  exists ok, s1. split; [done|].
  unfold main. rewrite run_bind.
  change (set_progress ProgressTracker_init s0) with (Ok tt, fresh s0). cbv beta iota.
  rewrite run_bind, (run_validate_environment (fresh s0)) by done. cbv beta iota. cbn [negb].
  cbv iota. rewrite run_bind, Hrun1. cbv beta iota.
  match goal with |- extends _ (?m _).2 => assert (grows m) as Hm; [|apply Hm] end.
  unfold logging_error.
  apply grows_bind.
  { apply grows_tracked, tracked_quiet, readonly_quiet, readonly_check_disk_space. }
  intros enough. destruct (negb enough); [apply grows_tracked, tracked_logging|].
  apply grows_bind; [apply grows_tracked, tracked_create_backup|]. intros bd.
  destruct (_ && _); [apply grows_tracked, tracked_logging|].
  apply grows_always_reports, always_reports_try;
    [apply reports_migrate | apply always_reports_on_failure].
Qed.

Lemma conflict_text_unrecorded e :
  move_error (conflict_text e) = false ∧ skip_warning (conflict_text e) = false.
Proof. split; reflexivity. Qed.

Lemma ancestor_under_src (r : path) a :
  a ∈ Path.ancestors ("src"%string :: r) → ∃ r', a = "src"%string :: r'.
Proof.
  intros Ha. apply elem_of_ancestors in Ha as (Hne & r' & _ & Heq).
  destruct a as [|c a]; [done|]. injection Heq as <- _. by eexists.
Qed.

(** C7, as the code has it.  Once the environment validation has passed,
    the validation of the move mapping runs and what it finds stays in the
    log of the run.  For a pair whose source and destination both exist the
    conflict is logged as an error; it is never among the errors of the
    tracker, and no printed report lists it.  For a pair whose source
    exists and whose destination has a regular file among its ancestors
    that ancestor is logged as an error.  Neither finding halts the batch:
    a run that gets past the capacity check and the backup enters the three
    phases of the migration.  Such a run, without [--dry-run], meets the
    regular file again when it moves the pair: the failure of
    [os.makedirs] is recorded in the tracker, and the one report that is
    printed lists it. *)
Theorem conflicts_are_logged_and_do_not_halt env t :
  validated t →
  let R := script env t in
  (∀ e, e ∈ FILE_MOVES → in_conflict t e →
        (ERROR, conflict_message e) ∈ log R.2
        ∧ ¬ (conflict_text e ∈ errors (progress R.2))
        ∧ (∀ report, report ∈ printed_reports R.2 → ¬ listed report (conflict_text e)))
  ∧ (∀ e, e ∈ FILE_MOVES → parent_is_file t e →
          ∃ parent, parent ∈ Path.ancestors e.2 ∧ FS.isfile t parent = true
                    ∧ (ERROR, parent_message parent) ∈ log R.2)
  ∧ (cleared env t → ∀ line, line ∈ phase_lines → line ∈ log R.2)
  ∧ (cleared env t → dry_run env = false →
     ∀ e, e ∈ FILE_MOVES → parent_is_file t e →
          ∃ x report,
            makedirs_message e.2 x ∈ errors (progress R.2)
            ∧ printed_reports R.2 = [report]
            ∧ listed report (makedirs_message e.2 x)).
Proof.
  intros Hv R.
  assert (R.2 = (main env (boot t)).2) as HR by (apply script_state, Hv).
  destruct (main_after_validation env (boot t) Hv) as (ok & s1 & Hrun1 & Hext).
  change (fresh (boot t)) with (boot t) in Hrun1. rewrite <- HR in Hext.
  destruct (validate_file_moves_findings (boot t))
    as (ok' & s1' & Hrun1' & Hfs1 & _ & _ & Hconf & Hpar).
  rewrite Hrun1 in Hrun1'. injection Hrun1' as <- <-. simpl in Hfs1.
  destruct (script_report env t) as (Herr & Hwarn & Hprinted). fold R in Herr, Hwarn, Hprinted.
  split; [|split; [|split]].
  - intros e He Hc. destruct (Hconf e He Hc) as [_ Hlog].
    destruct (conflict_text_unrecorded e) as [Hne Hnw].
    assert (conflict_text e ∉ errors (progress R.2)) as Hnot.
    { intros Hin. rewrite Forall_forall in Herr. apply Herr in Hin. congruence. }
    split; [by apply (extends_logged s1)|]. split; [done|].
    intros report Hrep Hlisted.
    destruct Hprinted as [Hp | Hp]; rewrite Hp in Hrep; [by apply elem_of_nil in Hrep|].
    apply list_elem_of_singleton in Hrep. subst report.
    apply listed_report_lines in Hlisted as [Hin | Hin]; [done|].
    rewrite Forall_forall in Hwarn. apply Hwarn in Hin. congruence.
  - intros e He Hp. destruct (Hpar e He Hp) as [_ (parent & Hin & Hfile & Hlog)].
    exists parent. split; [done|]. split; [by rewrite <- Hfs1|].
    by apply (extends_logged s1).
  - intros Hc line Hline.
    destruct (script_course env t Hv Hc) as (bd & s3 & s4 & s5 & _ & _ & Hrun4 & Hrun5 & Hend).
    fold R in Hend. rewrite Hend.
    destruct (migrate_tail env bd s5) as (Hext6 & Hext5 & _).
    pose proof (create_new_directories_line env s3) as H1. rewrite Hrun4 in H1.
    pose proof (process_file_moves_line env s4) as H2. rewrite Hrun5 in H2.
    pose proof (reorganize_styles_line env s5) as H3.
    destruct (tracked_process_file_moves env s4) as [Hext4 _]. rewrite Hrun5 in Hext4.
    unfold phase_lines in Hline.
    apply elem_of_cons in Hline as [-> | Hline];
      [apply (extends_logged s5); [done|]; by apply (extends_logged s4)|].
    apply elem_of_cons in Hline as [-> | Hline]; [by apply (extends_logged s5)|].
    apply list_elem_of_singleton in Hline as ->.
    by apply (extends_logged (reorganize_styles env s5).2).
  - intros Hc Hreal e He [Hex (a & Ha & Hfile)].
    destruct (script_course env t Hv Hc)
      as (bd & s3 & s4 & s5 & Hsrc & Hp3 & Hrun4 & Hrun5 & Hend).
    fold R in Hend.
    destruct (table_paths_of_entry e He) as [H1 H2].
    apply table_path_under_src in H1 as (r1 & Hr1 & _), H2 as (r2 & Hr2 & _).
    assert (∃ ra, a = "src"%string :: ra) as [ra Hra]
      by (rewrite Hr2 in Ha; by apply ancestor_under_src in Ha).
    destruct (create_new_directories_post env Hreal s3)
      as (s4' & Hrun4' & _ & _ & _ & Hkind & _).
    rewrite Hrun4 in Hrun4'. injection Hrun4' as <-.
    assert (FS.exists_ (fs s4) e.1 = true) as Hex4.
    { apply (kind_le_exists (fs s3)); [apply Hkind|].
      rewrite (exists_of_lookup t); [done|]. rewrite Hr1. apply Hsrc. }
    assert (FS.isfile (fs s4) a = true) as Hfile4.
    { apply (kind_le_isfile (fs s3)); [apply Hkind|].
      destruct (tests_of_lookup t (fs s3) a) as (_ & _ & ->); [|done]. rewrite Hra. apply Hsrc. }
    destruct (process_file_moves_blocked env Hreal e a s4 He Hex4 Ha Hfile4)
      as (x & s5' & Hrun5' & Hmsg & Hpos).
    rewrite Hrun5 in Hrun5'. injection Hrun5' as <-.
    destruct (migrate_tail env bd s5) as (_ & Hext5 & Htot & Hrep). rewrite <- Hend in *.
    assert (printed_reports s5 = []) as Hp5.
    { destruct (tracked_process_file_moves env s4) as [_ Hq5]. rewrite Hrun5 in Hq5.
      destruct (tracked_create_new_directories env s3) as [_ Hq4]. rewrite Hrun4 in Hq4.
      simpl in Hq4, Hq5. congruence. }
    exists x, (report_lines (progress R.2)).
    split; [by apply (extends_recorded s5)|]. split.
    + unfold reported in Hrep. rewrite Hrep, Hp5 by lia. done.
    + apply listed_report_lines. left. by apply (extends_recorded s5).
Qed.

End Reorganizer.

(** ** Runs on sample projects

    The names of the sample projects are ASCII, so that their runs never
    consult the case mapping of text that is not: the mapping taken here
    leaves such text as it is. *)

#[local] Instance unmapped : Str.Lowering := fun s => s.

#[local] Opaque FILE_MOVES NEW_DIRS EXTRA_WARN_FILES css_files.
#[local] Open Scope list_scope.
#[local] Open Scope nat_scope.

Lemma exactly_one_side_after_successful_run_witness :
  let e := (Path.of_string "src/components/factions/FactionAI.tsx",
            Path.of_string "src/components/ships/factions/FactionAI.tsx") in
  let R := script (settings false 1000) sample_project in
  succeeded R
  ∧ (FS.exists_ sample_project e.1 = FS.exists_ sample_project e.2 →
     untouched sample_project (fs R.2) e)
  ∧ (FS.exists_ sample_project e.1 ≠ FS.exists_ sample_project e.2 →
     FS.exists_ (fs R.2) e.1 ≠ FS.exists_ (fs R.2) e.2
     ∧ (FS.exists_ sample_project e.1 = true → migrated sample_project (fs R.2) e)
     ∧ (FS.exists_ sample_project e.1 = false → untouched sample_project (fs R.2) e)).
Proof.
  intros e R.
  assert (succeeded R) as Hok.
  { split; [by vm_compute|]. split; [|by vm_compute]. vm_compute. discriminate. }
  split; [exact Hok|].
  apply (exactly_one_side_after_successful_run (tables := unmapped) (settings false 1000) sample_project e).
  - reflexivity.
  - apply list_elem_of_In. vm_compute. tauto.
  - exact Hok.
Defined.

Lemma rollback_restores_source_tree_witness :
  let env := {| dry_run := false; now := "20250101_120000"; free := 1000;
                listdir_fault := Some (OSError "[Errno 5] Input/output error") |} in
  let R := script env sample_project in
  completed_operations (progress R.2) = 1
  ∧ FS.lookup (fs R.2) ["src"%string] = FS.lookup sample_project ["src"%string]
  ∧ FS.isdir (fs R.2) [backup_name env] = true
  ∧ FS.lookup (fs R.2) [backup_name env] = FS.lookup sample_project ["src"%string]
  ∧ FS.exists_ sample_project [backup_name env] = false
  ∧ (∀ c : string, c ≠ backup_name env → FS.lookup (fs R.2) [c] = FS.lookup sample_project [c])
  ∧ ∃ errs, errors (progress R.2)
            = errs ++ [failure_message (OSError "[Errno 5] Input/output error")].
Proof.
  intros env R. split; [by vm_compute|].
  apply (rollback_restores_source_tree (tables := unmapped) env sample_project
           (OSError "[Errno 5] Input/output error")).
  - reflexivity.
  - reflexivity.
  - by vm_compute.
  - vm_compute. apply le_n.
Defined.

Lemma dry_run_changes_nothing_and_plans_alike_witness :
  let D := script (settings true 1000) sample_project in
  let R := script (settings false 1000) sample_project in
  (printed_reports D.2 ≠ [] ∧ printed_reports R.2 ≠ [])
  ∧ fs D.2 = sample_project
  ∧ (printed_reports D.2 ≠ [] → printed_reports R.2 ≠ [] →
     total_operations (progress D.2) = total_operations (progress R.2)).
Proof.
  intros D R. split; [split; vm_compute; discriminate|].
  apply (dry_run_changes_nothing_and_plans_alike (tables := unmapped) (settings true 1000) (settings false 1000)
           sample_project); reflexivity.
Defined.

(** With free space for one copy of [src] but not for two, the simulate-only
    run reports four planned operations on a tree on which the real run
    gives up at the capacity check and performs none. *)
Lemma dry_run_total_differs_from_real_run :
  let D := script (settings true 100) sample_project in
  let R := script (settings false 100) sample_project in
  FS.walk_size ["src"%string] sample_project = 61%Z
  ∧ (∃ report, printed_reports D.2 = [report] ∧ In (Line "Total operations: 4") report)
  ∧ total_operations (progress D.2) = 4
  ∧ completed_operations (progress D.2) = 4
  ∧ fs R.2 = sample_project
  ∧ printed_reports R.2 = []
  ∧ total_operations (progress R.2) = 0
  ∧ completed_operations (progress R.2) = 0
  ∧ last_log R.2 = Some (ERROR, Text "Disk space check failed. Aborting.").
Proof.
  vm_compute. split; [reflexivity|]. split; [|repeat split; reflexivity].
  eexists. split; [reflexivity|]. simpl. tauto.
Qed.

Lemma conflicts_are_logged_and_do_not_halt_witness :
  let env := settings false 1000 in
  let both := (Path.of_string "src/components/factions/FactionAI.tsx",
               Path.of_string "src/components/ships/factions/FactionAI.tsx") in
  let below := (Path.of_string "src/hooks/useFleetAI.ts",
                Path.of_string "src/hooks/factions/useFleetAI.ts") in
  let R := script env barred_project in
  (validated barred_project ∧ cleared env barred_project
   ∧ both ∈ FILE_MOVES ∧ in_conflict barred_project both
   ∧ below ∈ FILE_MOVES ∧ parent_is_file barred_project below)
  ∧ (∀ e, e ∈ FILE_MOVES → in_conflict barred_project e →
          (ERROR, conflict_message e) ∈ log R.2
          ∧ ¬ (conflict_text e ∈ errors (progress R.2))
          ∧ (∀ report, report ∈ printed_reports R.2 → ¬ listed report (conflict_text e)))
  ∧ (∀ e, e ∈ FILE_MOVES → parent_is_file barred_project e →
          ∃ parent, parent ∈ Path.ancestors e.2 ∧ FS.isfile barred_project parent = true
                    ∧ (ERROR, parent_message parent) ∈ log R.2)
  ∧ (cleared env barred_project → ∀ line, line ∈ phase_lines → line ∈ log R.2)
  ∧ (cleared env barred_project → dry_run env = false →
     ∀ e, e ∈ FILE_MOVES → parent_is_file barred_project e →
          ∃ x report,
            makedirs_message e.2 x ∈ errors (progress R.2)
            ∧ printed_reports R.2 = [report]
            ∧ listed report (makedirs_message e.2 x)).
Proof.
  split.
  - split; [by vm_compute|]. split; [by vm_compute|].
    split; [apply list_elem_of_In; vm_compute; tauto|]. split; [by vm_compute|].
    split; [apply list_elem_of_In; vm_compute; tauto|]. split; [by vm_compute|].
    exists ["src"; "hooks"; "factions"]. split; [|by vm_compute].
    apply list_elem_of_In. vm_compute. tauto.
  - apply (conflicts_are_logged_and_do_not_halt (tables := unmapped) (settings false 1000)
             barred_project).
    by vm_compute.
Defined.

(** Four runs against the claim as stated.  A conflict of a pair whose
    two ends exist is logged, and the run goes on to move the other file,
    but the report that is printed has no error section and the tracker no
    error.  A regular file among the ancestors of a destination goes
    unnoticed when the source of the pair is missing.  With [--dry-run] such
    a file is logged by the validation, the source being there, and the
    report lists no error.  And where a required directory is missing the
    run ends before the move mapping is validated: the conflict is not
    even logged. *)
Lemma conflict_is_absent_from_report :
  (let e := (Path.of_string "src/components/factions/FactionAI.tsx",
             Path.of_string "src/components/ships/factions/FactionAI.tsx") in
   let R := script (settings false 1000) conflicting_project in
   In e FILE_MOVES
   ∧ in_conflict conflicting_project e
   ∧ error_lines R.2 = [conflict_message e]
   ∧ R.1 = 0%Z
   ∧ errors (progress R.2) = []
   ∧ printed_reports R.2
     = [[ Line (nl ++ "=== Restructuring Report ===");
          Line "Total operations: 1";
          Line "Completed operations: 1";
          SuccessRate 1 1;
          Line (nl ++ "===========================") ]])
  ∧ (let e := (Path.of_string "src/components/factions/factionHooks/useFactionAI.ts",
               Path.of_string "src/hooks/factions/useFactionAI.ts") in
     let r := validate_file_moves (boot blocked_project) in
     In e FILE_MOVES
     ∧ In ["src"; "hooks"] (Path.ancestors e.2)
     ∧ FS.isfile blocked_project ["src"; "hooks"] = true
     ∧ r.1 = Ok true
     ∧ error_lines r.2 = [])
  ∧ (let e := (Path.of_string "src/hooks/useFleetAI.ts",
               Path.of_string "src/hooks/factions/useFleetAI.ts") in
     let R := script (settings true 1000) barred_project in
     In e FILE_MOVES
     ∧ FS.exists_ barred_project e.1 = true
     ∧ In ["src"; "hooks"; "factions"] (Path.ancestors e.2)
     ∧ FS.isfile barred_project ["src"; "hooks"; "factions"] = true
     ∧ In (parent_message ["src"; "hooks"; "factions"]) (error_lines R.2)
     ∧ R.1 = 0%Z
     ∧ errors (progress R.2) = []
     ∧ printed_reports R.2
       = [[ Line (nl ++ "=== Restructuring Report ===");
            Line "Total operations: 1";
            Line "Completed operations: 1";
            SuccessRate 1 1;
            Line (nl ++ "===========================") ]])
  ∧ (let e := (Path.of_string "src/config/playerShipStats.ts",
               Path.of_string "src/config/ships/playerShipStats.ts") in
     let R := script (settings false 1000) unvalidated_project in
     In e FILE_MOVES
     ∧ in_conflict unvalidated_project e
     ∧ R.1 = 0%Z
     ∧ error_lines R.2
       = [ Text "Required directory not found: src/components/factions";
           Text "Environment validation failed. Aborting." ]
     ∧ printed_reports R.2 = []).
Proof.
  split; [|split; [|split]].
  - vm_compute. split; [tauto|]. repeat split; reflexivity.
  - vm_compute. split; [tauto|]. split; [tauto|]. repeat split; reflexivity.
  - vm_compute. split; [tauto|]. split; [reflexivity|]. split; [tauto|].
    split; [reflexivity|]. split; [tauto|]. repeat split; reflexivity.
  - vm_compute. split; [tauto|]. repeat split; reflexivity.
Qed.


Lemma second_run_changes_nothing_witness :
  let R := script (settings false 1000) sample_project in
  let R' := script (settings false 1000) (fs R.2) in
  succeeded R
  ∧ fs R'.2 = fs R.2
  ∧ total_operations (progress R'.2) = 0
  ∧ moves_needed (fs R.2) = []
  ∧ loose_stylesheets (fs R.2) = [].
Proof.
  intros R R'.
  assert (succeeded R) as Hok.
  { split; [by vm_compute|]. split; [|by vm_compute]. vm_compute. discriminate. }
  split; [exact Hok|].
  apply (second_run_changes_nothing (tables := unmapped) (settings false 1000) (settings false 1000) sample_project);
    [reflexivity | reflexivity | reflexivity | exact Hok].
Defined.

(** After the first run on the sample project a mapped file whose source
    was never there has no destination either, the entry mapped onto itself
    still has its source, and the second run ends in the handler with an
    error recorded and no report. *)
Lemma second_run_is_not_clean :
  let R := script (settings false 1000) sample_project in
  let R' := script (settings false 1000) (fs R.2) in
  let missing := (Path.of_string "src/config/playerShipStats.ts",
                  Path.of_string "src/config/ships/playerShipStats.ts") in
  let kept := (Path.of_string "src/utils/math.ts", Path.of_string "src/utils/math.ts") in
  R.1 = 0%Z ∧ errors (progress R.2) = []
  ∧ In missing FILE_MOVES ∧ FS.exists_ (fs R.2) missing.2 = false
  ∧ In kept FILE_MOVES ∧ FS.exists_ (fs R.2) kept.1 = true
  ∧ R'.1 = 1%Z
  ∧ errors (progress R'.2) = ["An error occurred during restructuring: division by zero"%string]
  ∧ printed_reports R'.2 = [].
Proof.
  vm_compute. repeat split; try reflexivity; tauto.
Qed.

Lemma capacity_gate_below_petabyte_witness :
  let env := settings false 100 in
  let R := script env sample_project in
  (∀ s, fs s = sample_project →
     ∃ s', check_disk_space env true s = (Ok false, s') ∧ quiet_step s s')
  ∧ fs R.2 = sample_project ∧ progress R.2 = ProgressTracker_init ∧ printed_reports R.2 = [].
Proof.
  intros env R.
  destruct (capacity_gate_below_petabyte (tables := unmapped) env sample_project) as [Hcheck Hstop].
  - vm_compute. split; [discriminate | reflexivity].
  - split; [exact Hcheck|]. apply Hstop. vm_compute. reflexivity.
Defined.

(** A source tree of three quarters of a pebibyte, to be backed up: the
    free space is short of 1.2 times the bytes to provide for, and the
    check passes all the same, the product having been rounded down to the
    free space. *)
Lemma capacity_gate_passes_short_of_requirement :
  let S := 844424930131968%Z in
  let F := 2026619832316723%Z in
  (5 * F < 6 * (S * 2))%Z
  ∧ (∃ r, Float.int_mul (S * 2) Float.lit_1_2 = Ok r ∧ Float.int_lt F r = false)
  ∧ (∀ env s, free env = F → FS.walk_size ["src"%string] (fs s) = S →
              check_disk_space env true s = (Ok true, s)).
Proof.
  split; [by vm_compute|]. split.
  - eexists. split; vm_compute; reflexivity.
  - intros env s HF HS. unfold check_disk_space. rewrite run_try, run_bind.
    unfold get_fs at 1. cbv beta iota zeta. rewrite !run_bind, HS, HF.
    vm_compute. reflexivity.
Qed.

Lemma backup_then_restore_round_trip_witness :
  let env := settings false 1000 in
  let s := boot sample_project in
  let root := entries sample_project in
  let es := entries (default (Dir ∅) (root !! "src"%string)) in
  fs s = Dir root ∧ root !! "src"%string = Some (Dir es)
  ∧ ∃ s1,
      create_backup env s = (Ok (Some [backup_name env]), s1)
      ∧ fs s1 = Dir (<[backup_name env := Dir es]> root)
      ∧ ∀ s2 root2 es2,
          fs s2 = Dir root2 →
          root2 !! backup_name env = Some (Dir es) → root2 !! "src"%string = Some (Dir es2) →
          ∃ s3, restore_from_backup env [backup_name env] s2 = (Ok true, s3)
                ∧ fs s3 = Dir (<["src"%string := Dir es]> root2)
                ∧ FS.lookup (fs s3) ["src"%string] = FS.lookup (fs s) ["src"%string].
Proof.
  intros env s root es.
  assert (fs s = Dir root) as Hroot by (vm_compute; reflexivity).
  assert (root !! "src"%string = Some (Dir es)) as Hsrc by (vm_compute; reflexivity).
  split; [exact Hroot|]. split; [exact Hsrc|].
  apply (backup_then_restore_round_trip env s root es);
    [reflexivity | exact Hroot | exact Hsrc | vm_compute; reflexivity].
Defined.

Lemma restore_from_backup_outcomes_witness :
  let env := settings false 1000 in
  let s := boot (add_file sample_project ("old_copy", "not a directory")) in
  let root := entries (fs s) in
  root !! "old_copy"%string = Some (File "not a directory")
  ∧ FS.isdir (fs s) ["src"%string] = true
  ∧ (restore_from_backup env ["old_copy"%string] s).1 = Ok false
  ∧ FS.exists_ (fs (restore_from_backup env ["old_copy"%string] s).2) ["src"%string] = false
  ∧ ∃ b s',
      restore_from_backup env ["old_copy"%string] s = (Ok b, s')
      ∧ progress s' = progress s ∧ stdout s' = stdout s
      ∧ (if dry_run env then b = false ∧ s' = s
         else
           match root !! "old_copy"%string, root !! "src"%string with
           | None, _ => b = false ∧ s' = s
           | Some _, (None | Some (File _)) => b = false ∧ fs s' = fs s
           | Some (Dir es), Some (Dir _) =>
               b = true ∧ fs s' = Dir (<["src"%string := Dir es]> root)
           | Some (File _), Some (Dir _) =>
               b = false ∧ fs s' = Dir (delete "src"%string root)
           end).
Proof.
  intros env s root.
  split; [vm_compute; reflexivity|]. split; [vm_compute; reflexivity|].
  split; [vm_compute; reflexivity|]. split; [vm_compute; reflexivity|].
  apply (restore_from_backup_outcomes env "old_copy" s root);
    [vm_compute; reflexivity | done].
Defined.

Lemma run_touches_only_src_and_its_backup_witness :
  let env := settings false 1000 in
  let t := add_file sample_project ("package.json", "{}") in
  FS.lookup t ["package.json"%string] = Some (File "{}")
  ∧ FS.lookup (fs (script env t).2) ["package.json"%string] = FS.lookup t ["package.json"%string].
Proof.
  intros env t. split; [vm_compute; reflexivity|].
  apply (run_touches_only_src_and_its_backup (tables := unmapped) env t "package.json" []); done.
Defined.

Lemma mapped_file_is_never_lost_witness :
  let e := (Path.of_string "src/components/factions/FactionAI.tsx",
            Path.of_string "src/components/ships/factions/FactionAI.tsx") in
  let R := script (settings false 1000) sample_project in
  FS.lookup (fs R.2) e.1 = Some (File "export const ai = 1;")
  ∨ (FS.lookup (fs R.2) e.1 = None
     ∧ FS.lookup (fs R.2) e.2 = Some (File "export const ai = 1;")).
Proof.
  intros e R.
  apply (mapped_file_is_never_lost (tables := unmapped) (settings false 1000) sample_project e
           (File "export const ai = 1;")).
  - apply list_elem_of_In. vm_compute. tauto.
  - vm_compute. reflexivity.
Defined.

Lemma reported_total_is_ready_pairs_plus_loose_stylesheets_witness :
  let R := script (settings false 1000) sample_project in
  printed_reports R.2 ≠ []
  ∧ length (moves_needed sample_project) = 1
  ∧ length (loose_stylesheets sample_project) = 3
  ∧ total_operations (progress R.2)
    = length (moves_needed sample_project) + length (loose_stylesheets sample_project).
Proof.
  intros R.
  assert (printed_reports R.2 ≠ []) as Hpr by (vm_compute; discriminate).
  split; [exact Hpr|]. split; [vm_compute; reflexivity|]. split; [vm_compute; reflexivity|].
  apply (reported_total_is_ready_pairs_plus_loose_stylesheets (tables := unmapped) (settings false 1000)
           sample_project); [reflexivity | exact Hpr].
Defined.

Lemma loose_stylesheets_end_in_their_buckets_witness :
  let env := settings false 1000 in
  let s := boot sample_project in
  let s' := (reorganize_styles env s).2 in
  category_of "panel.css" = "components"%string
  ∧ FS.lookup (fs s) (Path.join styles_root "panel.css") = Some (File ".p {}")
  ∧ FS.lookup (fs s') (Path.join styles_root "panel.css") = None
  ∧ FS.lookup (fs s') (Path.join (Path.join styles_root (category_of "panel.css")) "panel.css")
    = FS.lookup (fs s) (Path.join styles_root "panel.css").
Proof.
  intros env s s'. split; [vm_compute; reflexivity|]. split; [vm_compute; reflexivity|].
  apply (loose_stylesheets_end_in_their_buckets (tables := unmapped) env s s' "panel.css");
    vm_compute; reflexivity.
Defined.

Lemma handler_reports_a_backup_that_is_gone_witness :
  let env := settings false 1000 in
  let s := boot (add_dir settled_project "src_backup_20250101_120000") in
  let root := entries (fs s) in
  FS.isdir (fs s) ["src_backup_20250101_120000"%string] = true
  ∧ ∃ s',
      try_except (finish env (Some ["src_backup_20250101_120000"%string]))
                 (on_failure env (Some ["src_backup_20250101_120000"%string])) s
      = (Raise ZeroDivisionError, s')
      ∧ fs s' = Dir (delete "src_backup_20250101_120000"%string root)
      ∧ FS.exists_ (fs s') ["src_backup_20250101_120000"%string] = false
      ∧ last_log s'
        = Some (ERROR, Text ("Failed to restore. Backup remains at: "
                               ++ Path.to_string ["src_backup_20250101_120000"%string])%string)
      ∧ printed_reports s' = printed_reports s.
Proof.
  intros env s root. split; [vm_compute; reflexivity|].
  apply (handler_reports_a_backup_that_is_gone env "src_backup_20250101_120000" s root ∅);
    vm_compute; reflexivity.
Defined.

